(** * Applio TTS inference API ([api/app.py], [api/config.py],
    [api/fix_multipart.py]): a shallow embedding

    The handlers of the FastAPI application are embedded as functions over an
    explicit [World]: the disk, the names whose removal the system refuses,
    the module global [_voices_data], the clock, what was printed, and the
    calls made to the synthesis pipeline.  A handler is a computation
    [M A = World -> (Raised + A) * World] that returns a value or raises.

    Functions imported from the rest of Applio ([run_tts_script],
    [load_voices_data], [match_index], [Config]), [librosa.get_duration], the
    way the system resolves file names, the errors of [os.stat] that
    [Path.exists] lets pass, and the Unicode tables (case mappings,
    printable code points) are parameters, gathered in [Env]; [get_files]
    and [get_speakers_id], which only the model endpoints call, are in
    [ModelStore].

    Not embedded: the effects of importing the module (the creation of the
    output directory), what [traceback.print_exc] writes to the error
    stream, the endpoints [/], [/health] and [/gpu/status], and
    [print_config_summary].  Floating-point values are only passed around by
    the handlers; they are rationals here. *)

From Stdlib Require Import NArith ZArith QArith List String Ascii Bool Lia.
From stdpp Require Import base option list gmap.

Local Open Scope N_scope.

(** ** Python [str]

    A [str] is a sequence of Unicode code points. *)

Abbreviation str := (list N).

(** Decoding of the UTF-8 bytes of a source literal into code points. *)
Fixpoint utf8_decode (bs : list N) : str :=
  match bs with
  | [] => []
  | b :: r =>
      if b <? 128 then b :: utf8_decode r
      else if b <? 224 then
        match r with
        | c1 :: r1 => ((b - 192) * 64 + (c1 - 128)) :: utf8_decode r1
        | _ => []
        end
      else if b <? 240 then
        match r with
        | c1 :: c2 :: r2 =>
            ((b - 224) * 4096 + (c1 - 128) * 64 + (c2 - 128)) :: utf8_decode r2
        | _ => []
        end
      else
        match r with
        | c1 :: c2 :: c3 :: r3 =>
            ((b - 240) * 262144 + (c1 - 128) * 4096 + (c2 - 128) * 64 + (c3 - 128))
              :: utf8_decode r3
        | _ => []
        end
  end.

(** [u "..."] is the [str] written by the literal. *)
Definition u (s : string) : str :=
  utf8_decode (map N_of_ascii (list_ascii_of_string s)).

Definition str_eqb (a b : str) : bool := bool_decide (a = b).

(** [s.startswith(p)] *)
Fixpoint startswith (s p : str) : bool :=
  match p, s with
  | [], _ => true
  | _ :: _, [] => false
  | c :: p', d :: s' => (c =? d) && startswith s' p'
  end.

(** [s.endswith(p)] *)
Definition endswith (s p : str) : bool := startswith (rev s) (rev p).

(** [p in s] for two strings *)
Fixpoint str_in (p s : str) : bool :=
  startswith s p ||
  match s with
  | [] => false
  | _ :: s' => str_in p s'
  end.

(** [c in s] for a one-character [c] *)
Definition char_in (c : N) (s : str) : bool := existsb (N.eqb c) s.

(** [s.split(sep)[0]] for a one-character separator *)
Fixpoint split_first (sep : N) (s : str) : str :=
  match s with
  | [] => []
  | c :: r => if c =? sep then [] else c :: split_first sep r
  end.

(** [sep.join(l)] *)
Fixpoint str_join (sep : str) (l : list str) : str :=
  match l with
  | [] => []
  | [x] => x
  | x :: r => x ++ sep ++ str_join sep r
  end.

(** Truth value of a [str] and of an [Optional[str]]. *)
Definition truthy (s : str) : bool := negb (str_eqb s []).
Definition otruthy (o : option str) : bool :=
  match o with Some s => truthy s | None => false end.

(** *** [str.strip()]: the code points Python treats as whitespace *)
Definition isspace (c : N) : bool :=
  ((9 <=? c) && (c <=? 13)) || ((28 <=? c) && (c <=? 32)) ||
  (c =? 133) || (c =? 160) || (c =? 5760) ||
  ((8192 <=? c) && (c <=? 8202)) || (c =? 8232) || (c =? 8233) ||
  (c =? 8239) || (c =? 8287) || (c =? 12288).

Fixpoint lstrip (s : str) : str :=
  match s with
  | [] => []
  | c :: r => if isspace c then lstrip r else s
  end.

Definition rstrip (s : str) : str := rev (lstrip (rev s)).
Definition strip (s : str) : str := rstrip (lstrip s).

(** ** Text sanitizer: [clean_text] *)

(** The character class [[\x00-\x08\x0B\x0C\x0E-\x1F\x7F]]. *)
Definition control_class (c : N) : bool :=
  (c <=? 8) || (c =? 11) || (c =? 12) || ((14 <=? c) && (c <=? 31)) || (c =? 127).

(** [re.sub(class, '', text)] *)
Definition re_sub_class (cls : N -> bool) (text : str) : str :=
  List.filter (fun c => negb (cls c)) text.

(** [s.replace(a + b, new)] for a two-character pattern, scanning from the
    left over non-overlapping occurrences. *)
Fixpoint replace2 (a b : N) (new : str) (s : str) : str :=
  match s with
  | [] => []
  | c :: r =>
      match r with
      | d :: r' =>
          if (c =? a) && (d =? b) then new ++ replace2 a b new r'
          else c :: replace2 a b new r
      | [] => [c]
      end
  end.

(** [s.replace(a, new)] for a one-character pattern. *)
Definition replace1 (a : N) (new : str) (s : str) : str :=
  flat_map (fun c => if c =? a then new else [c]) s.

Definition CR : N := 13.
Definition LF : N := 10.

Definition clean_text (text : str) : str :=
  let cleaned := re_sub_class control_class text in
  let cleaned := replace1 CR [LF] (replace2 CR LF [LF] cleaned) in
  strip cleaned.


(** *** Case mappings

    [str.upper()] maps every code point on its own; [str.lower()] does so too
    except that a few code points look at their neighbours.  The mappings of
    the ASCII range are fixed here; those of the other code points come from
    the interpreter's Unicode tables and are parameters. *)
Record CaseTables := {
  upper_full : N -> str;
  lower_full : str -> N -> str -> str  (* text before, code point, text after *)
}.

Definition ascii_upper (c : N) : N :=
  if (97 <=? c) && (c <=? 122) then c - 32 else c.
Definition ascii_lower (c : N) : N :=
  if (65 <=? c) && (c <=? 90) then c + 32 else c.

Definition upper (T : CaseTables) (s : str) : str :=
  flat_map (fun c => if c <? 128 then [ascii_upper c] else upper_full T c) s.

Fixpoint lower_from (T : CaseTables) (before_rev : str) (s : str) : str :=
  match s with
  | [] => []
  | c :: r =>
      (if c <? 128 then [ascii_lower c] else lower_full T (rev before_rev) c r)
        ++ lower_from T (c :: before_rev) r
  end.
Definition lower (T : CaseTables) (s : str) : str := lower_from T [] s.

(** ** Paths *)

Definition SEP : N := 47.

(** [s.split(sep)] for a one-character separator *)
Fixpoint split_on (sep : N) (s : str) : list str :=
  match s with
  | [] => [[]]
  | c :: r =>
      if c =? sep then [] :: split_on sep r
      else match split_on sep r with
           | x :: xs => (c :: x) :: xs
           | [] => [[c]]
           end
  end.

(** [os.path.join(a, b)] (POSIX) *)
Definition os_path_join (a b : str) : str :=
  if startswith b [SEP] then b
  else if negb (truthy a) || endswith a [SEP] then a ++ b
  else a ++ [SEP] ++ b.

(** [os.path.basename(p)]: what follows the last separator *)
Definition os_path_basename (p : str) : str :=
  match rev (split_on SEP p) with
  | x :: _ => x
  | [] => []
  end.

(** [pathlib.Path] (POSIX flavour): a root and the list of components. *)
Record Path := { root : str; parts : list str }.

Definition path_root (s : str) : str :=
  if startswith s [SEP; SEP] && negb (startswith s [SEP; SEP; SEP]) then [SEP; SEP]
  else if startswith s [SEP] then [SEP]
  else [].

Definition path_parts (s : str) : list str :=
  List.filter (fun x => truthy x && negb (str_eqb x (u "."))) (split_on SEP s).

(** [Path(s)] *)
Definition mkPath (s : str) : Path :=
  {| root := path_root s; parts := path_parts s |}.

(** [p / key] *)
Definition truediv (p : Path) (key : str) : Path :=
  let k := mkPath key in
  if truthy (root k) then k
  else {| root := root p; parts := parts p ++ parts k |}.

(** [str(p)], also [os.fspath(p)] *)
Definition path_str (p : Path) : str :=
  let s := root p ++ str_join [SEP] (parts p) in
  if truthy s then s else u ".".

(** ** The disk *)

Inductive node :=
  | File (data : list N)
  | Dir (st_size : N).

(** A voice record of the catalog: a [dict] with string values. *)
Abbreviation Voice := (gmap str str).

(** [d.get(k, "")] *)
Definition dict_get (d : Voice) (k : str) : str := default [] (d !! k).

(** ** Exceptions *)

Record HTTPException := { status_code : N; detail : str }.

(** Any other exception, as far as the handlers look at it: [str(e)]. *)
Record Exn := { exn_str : str }.

Inductive Raised :=
  | RaiseHTTP (e : HTTPException)
  | RaiseExc (e : Exn).

(** ** Request and response models *)

Module SimpleTTSRequest.
Record t := {
  text : str;
  tts_voice : str;
  model_path : str;
  index_path : option str;
  tts_rate : Z;
  return_base64 : bool;
  output_format : str
}.

(** The field constraints checked when the body is parsed. *)
Definition valid (r : t) : bool :=
  (1 <=? length (text r))%nat && (length (text r) <=? 5000)%nat &&
  (-100 <=? tts_rate r)%Z && (tts_rate r <=? 100)%Z.
End SimpleTTSRequest.

Module TTSInferenceRequest.
Record t := {
  text : str;
  tts_voice : str;
  model_path : str;
  index_path : option str;
  tts_rate : Z;
  pitch : Z;
  index_rate : Q;
  volume_envelope : Q;
  protect : Q;
  f0_method : str;
  split_audio : bool;
  f0_autotune : bool;
  f0_autotune_strength : Q;
  proposed_pitch : bool;
  proposed_pitch_threshold : Q;
  clean_audio : bool;
  clean_strength : Q;
  export_format : str;
  embedder_model : str;
  embedder_model_custom : option str;
  sid : Z;
  return_base64 : bool;
  output_filename : option str
}.

Definition in_range (lo hi x : Q) : bool := Qle_bool lo x && Qle_bool x hi.

(** The field constraints checked when the model is built. *)
Definition valid (r : t) : bool :=
  (1 <=? length (text r))%nat && (length (text r) <=? 5000)%nat &&
  (-100 <=? tts_rate r)%Z && (tts_rate r <=? 100)%Z &&
  (-24 <=? pitch r)%Z && (pitch r <=? 24)%Z &&
  in_range 0 1 (index_rate r) && in_range 0 1 (volume_envelope r) &&
  in_range 0 (1 # 2) (protect r) && in_range 0 1 (f0_autotune_strength r) &&
  in_range 50 1200 (proposed_pitch_threshold r) &&
  in_range 0 1 (clean_strength r) && (0 <=? sid r)%Z.

(** [request.index_path = v] *)
Definition set_index_path (r : t) (v : option str) : t :=
  {| text := text r; tts_voice := tts_voice r; model_path := model_path r;
     index_path := v; tts_rate := tts_rate r; pitch := pitch r;
     index_rate := index_rate r; volume_envelope := volume_envelope r;
     protect := protect r; f0_method := f0_method r;
     split_audio := split_audio r; f0_autotune := f0_autotune r;
     f0_autotune_strength := f0_autotune_strength r;
     proposed_pitch := proposed_pitch r;
     proposed_pitch_threshold := proposed_pitch_threshold r;
     clean_audio := clean_audio r; clean_strength := clean_strength r;
     export_format := export_format r; embedder_model := embedder_model r;
     embedder_model_custom := embedder_model_custom r; sid := sid r;
     return_base64 := return_base64 r; output_filename := output_filename r |}.
End TTSInferenceRequest.

Module TTSInferenceResponse.
Record t := {
  success : bool;
  message : str;
  text : str;
  tts_voice : str;
  model_path : str;
  index_path : option str;
  output_file : option str;
  output_path : option str;
  base64 : option str;
  format : option str;
  size_kb : option Q;
  duration_seconds : option Q
}.
End TTSInferenceResponse.

Module VoiceInfo.
Record t := {
  short_name : str;
  name : str;
  locale : str;
  gender : str;
  language : str
}.
End VoiceInfo.

Module VoicesListResponse.
Record t := {
  success : bool;
  voices : list VoiceInfo.t;
  total : nat;
  language_filter : option str
}.
End VoicesListResponse.

(** What [download_audio] returns: the arguments of [FileResponse]. *)
Module FileResponse.
Record t := { path : str; filename : str; media_type : str }.
End FileResponse.

(** The keyword arguments of one call of [run_tts_script]. *)
Module TTSArgs.
Record t := {
  tts_file : str;
  tts_text : str;
  tts_voice : str;
  tts_rate : Z;
  pitch : Z;
  index_rate : Q;
  volume_envelope : Q;
  protect : Q;
  f0_method : str;
  output_tts_path : str;
  output_rvc_path : str;
  pth_path : str;
  index_path : str;
  split_audio : bool;
  f0_autotune : bool;
  f0_autotune_strength : Q;
  proposed_pitch : bool;
  proposed_pitch_threshold : Q;
  clean_audio : bool;
  clean_strength : Q;
  export_format : str;
  embedder_model : str;
  embedder_model_custom : option str;
  sid : Z
}.
End TTSArgs.

(** [rvc.configs.config.Config()], as far as the handlers read it. *)
Record Config_t := { device : str; gpu_name : option str }.

(** ** The world and the collaborators *)

Record World := {
  disk : gmap str node;              (* files and directories, by resolved name *)
  locked : gset str;                 (* names whose removal the system refuses *)
  _voices_data : option (list Voice);(* the module global *)
  clock : str;                       (* datetime.now() as %Y%m%d_%H%M%S *)
  stdout : list str;                 (* lines printed *)
  pipeline_calls : list TTSArgs.t    (* calls of run_tts_script, latest first *)
}.

Record Env := {
  now_dir : str;                     (* root directory of Applio *)
  realpath : str -> str;             (* how the system resolves a name *)
  case_tables : CaseTables;
  load_voices_data : gmap str node -> Exn + list Voice;
  match_index : str -> gmap str node -> Exn + option str;
  Config : Exn + Config_t;
  run_tts_script : TTSArgs.t -> gmap str node -> (Exn + str * str) * gmap str node;
  get_duration : str -> gmap str node -> option Q;  (* None: librosa failed *)
  stat_error : str -> option Exn;    (* why os.stat fails on a name it does not find,
                                        when not by ENOENT, ENOTDIR, EBADF or ELOOP *)
  isprintable : N -> bool            (* str.isprintable(), above U+007F *)
}.

Definition with_disk (w : World) (d : gmap str node) : World :=
  {| disk := d; locked := locked w; _voices_data := _voices_data w;
     clock := clock w; stdout := stdout w; pipeline_calls := pipeline_calls w |}.

Definition with_locked (w : World) (l : gset str) : World :=
  {| disk := disk w; locked := l; _voices_data := _voices_data w;
     clock := clock w; stdout := stdout w; pipeline_calls := pipeline_calls w |}.

(** ** Computations that may raise *)

Definition M (A : Type) : Type := World -> (Raised + A) * World.

#[global] Instance M_ret : MRet M := fun A (a : A) w => (inr a, w).
#[global] Instance M_bind : MBind M := fun A B (k : A -> M B) (m : M A) w =>
  match m w with
  | (inr a, w') => k a w'
  | (inl e, w') => (inl e, w')
  end.

Definition raise {A} (e : Raised) : M A := fun w => (inl e, w).

(** [raise HTTPException(status_code=..., detail=...)] *)
Definition raise_http {A} (code : N) (d : str) : M A :=
  raise (RaiseHTTP {| status_code := code; detail := d |}).

(** [try: m  except: pass] *)
Definition try_pass (m : M unit) : M unit := fun w =>
  match m w with
  | (inr _, w') => (inr tt, w')
  | (inl _, w') => (inr tt, w')
  end.

(** A collaborator that reads the disk and may raise. *)
Definition call {A} (f : gmap str node -> Exn + A) : M A := fun w =>
  match f (disk w) with
  | inl e => (inl (RaiseExc e), w)
  | inr a => (inr a, w)
  end.

(** [print(line)] *)
Definition print (line : str) : M unit := fun w =>
  (inr tt, {| disk := disk w; locked := locked w; _voices_data := _voices_data w;
              clock := clock w; stdout := stdout w ++ [line];
              pipeline_calls := pipeline_calls w |}).

(** [try: m  except Exception as e: h e]; an [HTTPException] raised by [m]
    is left to the [except HTTPException: raise] clause written before it. *)
Definition except_Exception {A} (m : M A) (h : Exn -> M A) : M A := fun w =>
  match m w with
  | (inl (RaiseExc e), w') => h e w'
  | r => r
  end.

(** [try: x = m  except: x = fallback] *)
Definition try_or {A} (m : M A) (fallback : A) : M A := fun w =>
  match m w with
  | (inr a, w') => (inr a, w')
  | (inl _, w') => (inr fallback, w')
  end.

(** [base64.b64encode(bs).decode('utf-8')] *)
Definition b64_char (n : N) : N :=
  if n <? 26 then 65 + n
  else if n <? 52 then 97 + (n - 26)
  else if n <? 62 then 48 + (n - 52)
  else if n =? 62 then 43 else 47.

Fixpoint b64encode (bs : list N) : str :=
  match bs with
  | [] => []
  | [a] => [b64_char (a / 4); b64_char ((a mod 4) * 16); 61; 61]
  | [a; b] =>
      [b64_char (a / 4); b64_char ((a mod 4) * 16 + b / 16);
       b64_char ((b mod 16) * 4); 61]
  | a :: b :: c :: r =>
      [b64_char (a / 4); b64_char ((a mod 4) * 16 + b / 16);
       b64_char ((b mod 16) * 4 + c / 64); b64_char (c mod 64)] ++ b64encode r
  end.

(** [repr(s)] of a [str]: in double quotes when [s] holds an apostrophe and
    no double quote, in single quotes otherwise; the quote and the backslash
    escaped, the other characters that are not printable written as
    [\t], [\n], [\r], [\xhh], [\uhhhh] or [\Uhhhhhhhh]. *)
Definition hex_digit (n : N) : N := if n <? 10 then 48 + n else 87 + n.

Fixpoint hex_digits (k : nat) (n : N) : str :=
  match k with
  | O => []
  | S k' => hex_digits k' (n / 16) ++ [hex_digit (n mod 16)]
  end.

Definition repr_char (printable : N -> bool) (quote c : N) : str :=
  if (c =? quote) || (c =? 92) then [92; c]
  else if c =? 9 then [92; 116]
  else if c =? 10 then [92; 110]
  else if c =? 13 then [92; 114]
  else if (c <? 32) || (c =? 127) then [92; 120] ++ hex_digits 2 c
  else if c <? 127 then [c]
  else if printable c then [c]
  else if c <=? 255 then [92; 120] ++ hex_digits 2 c
  else if c <=? 65535 then [92; 117] ++ hex_digits 4 c
  else [92; 85] ++ hex_digits 8 c.

Definition py_repr (printable : N -> bool) (s : str) : str :=
  let quote := if char_in 39 s && negb (char_in 34 s) then 34 else 39 in
  [quote] ++ flat_map (repr_char printable quote) s ++ [quote].

(** [str(e)] of the [OSError]s of the file operations:
    ["[Errno %S] %S: %R"] of the number, the message and the file name. *)
Definition os_error (E : Env) (what : str) (p : str) : Exn :=
  {| exn_str := what ++ u ": " ++ py_repr (isprintable E) p |}.
Definition ENOENT := u "[Errno 2] No such file or directory".
Definition EACCES := u "[Errno 13] Permission denied".
Definition EISDIR := u "[Errno 21] Is a directory".

Section Handlers.
Context (E : Env).

(** *** File operations

    The empty name denotes no file. *)
Definition lookup_node (d : gmap str node) (p : str) : option node :=
  if truthy p then d !! realpath E p else None.

Definition exists_on (d : gmap str node) (p : str) : bool :=
  bool_decide (is_Some (lookup_node d p)).

(** [os.path.exists(p)] *)
Definition os_path_exists (p : str) : M bool := fun w =>
  (inr (exists_on (disk w) p), w).

(** [p.exists()] of a [Path].  Where [os.path.exists] answers [False] to
    every [OSError] of [os.stat], [Path.exists] does so only for ENOENT,
    ENOTDIR, EBADF and ELOOP, and lets any other pass. *)
Definition path_exists (p : Path) : M bool := fun w =>
  match lookup_node (disk w) (path_str p) with
  | Some _ => (inr true, w)
  | None =>
      match stat_error E (path_str p) with
      | Some e => (inl (RaiseExc e), w)
      | None => (inr false, w)
      end
  end.

(** [os.path.getsize(p)] *)
Definition os_path_getsize (p : str) : M N := fun w =>
  match lookup_node (disk w) p with
  | Some (File d) => (inr (N.of_nat (length d)), w)
  | Some (Dir n) => (inr n, w)
  | None => (inl (RaiseExc (os_error E ENOENT p)), w)
  end.

(** [open(p, "rb").read()] *)
Definition read_bytes (p : str) : M (list N) := fun w =>
  match lookup_node (disk w) p with
  | Some (File d) => (inr d, w)
  | Some (Dir _) => (inl (RaiseExc (os_error E EISDIR p)), w)
  | None => (inl (RaiseExc (os_error E ENOENT p)), w)
  end.

(** [os.remove(p)] *)
Definition os_remove (p : str) : M unit := fun w =>
  match lookup_node (disk w) p with
  | Some (File _) =>
      if bool_decide (realpath E p ∈ locked w)
      then (inl (RaiseExc (os_error E EACCES p)), w)
      else (inr tt, with_disk w (delete (realpath E p) (disk w)))
  | Some (Dir _) => (inl (RaiseExc (os_error E EISDIR p)), w)
  | None => (inl (RaiseExc (os_error E ENOENT p)), w)
  end.

(** [datetime.now().strftime("%Y%m%d_%H%M%S")] *)
Definition now_strftime : M str := fun w => (inr (clock w), w).

(** *** Module level *)

Definition OUTPUT_DIR : Path :=
  truediv (truediv (mkPath (now_dir E)) (u "assets")) (u "audios").

Definition load_tts_voices : M (list Voice) := fun w =>
  match _voices_data w with
  | Some v => (inr v, w)
  | None =>
      match load_voices_data E (disk w) with
      | inl e => (inl (RaiseExc e), w)
      | inr v =>
          (inr v, {| disk := disk w; locked := locked w; _voices_data := Some v;
                     clock := clock w; stdout := stdout w;
                     pipeline_calls := pipeline_calls w |})
      end
  end.

(** The call of [run_tts_script]: it is recorded, and the pipeline does
    what it does to the disk. *)
Definition call_run_tts_script (a : TTSArgs.t) : M (str * str) := fun w =>
  let w1 := {| disk := disk w; locked := locked w; _voices_data := _voices_data w;
               clock := clock w; stdout := stdout w;
               pipeline_calls := a :: pipeline_calls w |} in
  match run_tts_script E a (disk w) with
  | (inl e, d) => (inl (RaiseExc e), with_disk w1 d)
  | (inr r, d) => (inr r, with_disk w1 d)
  end.

(** [Config()] *)
Definition call_Config : M Config_t := fun w =>
  match Config E with
  | inl e => (inl (RaiseExc e), w)
  | inr c => (inr c, w)
  end.

(** [librosa.get_duration(path=p)] inside [try: ... except: pass] *)
Definition try_get_duration (p : str) : M (option Q) := fun w =>
  (inr (get_duration E p (disk w)), w).

Definition lower' := lower (case_tables E).
Definition upper' := upper (case_tables E).

(** *** [POST /tts/inference] *)

(** Lines 516-547: the validations.  The request comes back with its
    [index_path] resolved. *)
Definition validate (request : TTSInferenceRequest.t) : M TTSInferenceRequest.t :=
  model_found ← os_path_exists (TTSInferenceRequest.model_path request);
  if negb model_found then
    raise_http 404 (u "Modelo não encontrado: " ++ TTSInferenceRequest.model_path request)
  else
  request ← (if negb (otruthy (TTSInferenceRequest.index_path request)) then
               i ← call (match_index E (TTSInferenceRequest.model_path request));
               mret (TTSInferenceRequest.set_index_path request i)
             else mret request);
  index_missing ←
    (if otruthy (TTSInferenceRequest.index_path request) then
       found ← os_path_exists (default [] (TTSInferenceRequest.index_path request));
       mret (negb found)
     else mret false);
  if (index_missing : bool) then
    raise_http 404 (u "Arquivo index não encontrado: "
                      ++ default [] (TTSInferenceRequest.index_path request))
  else
  voices_data ← load_tts_voices;
  let voice_names := map (fun v => dict_get v (u "ShortName")) voices_data in
  if negb (bool_decide (TTSInferenceRequest.tts_voice request ∈ voice_names)) then
    raise_http 404 (u "Voz TTS não encontrada: " ++ TTSInferenceRequest.tts_voice request
                      ++ u ". Use /voices para listar vozes disponíveis.")
  else
  if str_eqb (TTSInferenceRequest.embedder_model request) (u "custom")
     && negb (otruthy (TTSInferenceRequest.embedder_model_custom request)) then
    raise_http 400
      (u "embedder_model_custom é obrigatório quando embedder_model='custom'")
  else
  mret request.

Definition recognized_extensions : list str :=
  [u ".wav"; u ".mp3"; u ".flac"; u ".ogg"; u ".m4a"].

(** The local [rvc_output_filename]. *)
Definition rvc_output_filename (request : TTSInferenceRequest.t) (timestamp : str) : str :=
  if otruthy (TTSInferenceRequest.output_filename request) then
    let f := default [] (TTSInferenceRequest.output_filename request) in
    if existsb (endswith f) recognized_extensions then f
    else f ++ u "." ++ lower' (TTSInferenceRequest.export_format request)
  else
    u "tts_rvc_output_" ++ timestamp ++ u "."
      ++ lower' (TTSInferenceRequest.export_format request).

(** The locals [tts_output_path] and [rvc_output_path]. *)
Definition tts_output_path (timestamp : str) : str :=
  os_path_join (path_str OUTPUT_DIR) (u "tts_output_" ++ timestamp ++ u ".wav").

Definition rvc_output_path (request : TTSInferenceRequest.t) (timestamp : str) : str :=
  os_path_join (path_str OUTPUT_DIR) (rvc_output_filename request timestamp).

Definition pipeline_args (request : TTSInferenceRequest.t) (timestamp : str) : TTSArgs.t :=
  {| TTSArgs.tts_file := [];
     TTSArgs.tts_text := TTSInferenceRequest.text request;
     TTSArgs.tts_voice := TTSInferenceRequest.tts_voice request;
     TTSArgs.tts_rate := TTSInferenceRequest.tts_rate request;
     TTSArgs.pitch := TTSInferenceRequest.pitch request;
     TTSArgs.index_rate := TTSInferenceRequest.index_rate request;
     TTSArgs.volume_envelope := TTSInferenceRequest.volume_envelope request;
     TTSArgs.protect := TTSInferenceRequest.protect request;
     TTSArgs.f0_method := TTSInferenceRequest.f0_method request;
     TTSArgs.output_tts_path := tts_output_path timestamp;
     TTSArgs.output_rvc_path := rvc_output_path request timestamp;
     TTSArgs.pth_path := TTSInferenceRequest.model_path request;
     TTSArgs.index_path := default [] (TTSInferenceRequest.index_path request);
     TTSArgs.split_audio := TTSInferenceRequest.split_audio request;
     TTSArgs.f0_autotune := TTSInferenceRequest.f0_autotune request;
     TTSArgs.f0_autotune_strength := TTSInferenceRequest.f0_autotune_strength request;
     TTSArgs.proposed_pitch := TTSInferenceRequest.proposed_pitch request;
     TTSArgs.proposed_pitch_threshold :=
       TTSInferenceRequest.proposed_pitch_threshold request;
     TTSArgs.clean_audio := TTSInferenceRequest.clean_audio request;
     TTSArgs.clean_strength := TTSInferenceRequest.clean_strength request;
     TTSArgs.export_format := TTSInferenceRequest.export_format request;
     TTSArgs.embedder_model := TTSInferenceRequest.embedder_model request;
     TTSArgs.embedder_model_custom :=
       TTSInferenceRequest.embedder_model_custom request;
     TTSArgs.sid := TTSInferenceRequest.sid request |}.

(** What lines 549-640 leave in the locals [message], [output_file],
    [size_kb], [duration_seconds] and [base64_audio]. *)
Record Generated := {
  g_message : str;
  g_output_file : str;
  g_size_kb : Q;
  g_duration_seconds : option Q;
  g_base64_audio : option str
}.

(** Lines 549-640: the pipeline call, the check of its output, size,
    duration and the base64 encoding. *)
Definition generate (request : TTSInferenceRequest.t) (timestamp : str) : M Generated :=
  config ← call_Config;
  let device_info :=
    if otruthy (gpu_name config)
    then u " (" ++ default [] (gpu_name config) ++ u ")" else [] in
  _ ← print (u "
🎤 Gerando TTS Inference...");
  _ ← print (u "   Device: " ++ device config ++ device_info);
  _ ← print (u "   Texto: " ++ take 50 (TTSInferenceRequest.text request) ++ u "...");
  _ ← print (u "   Voz TTS: " ++ TTSInferenceRequest.tts_voice request);
  _ ← print (u "   Modelo RVC: " ++ TTSInferenceRequest.model_path request);
  _ ← print (u "   Index: "
               ++ match TTSInferenceRequest.index_path request with
                  | Some i => i
                  | None => u "None"
                  end);
  '(message, output_file) ←
    except_Exception
      (call_run_tts_script (pipeline_args request timestamp))
      (fun e => raise_http 500 (u "Erro ao gerar TTS: " ++ exn_str e));
  created ← os_path_exists output_file;
  if negb created then
    raise_http 500 (u "Erro ao gerar áudio: arquivo não foi criado")
  else
  file_size ← os_path_getsize output_file;
  duration_seconds ← try_get_duration output_file;
  base64_audio ←
    (if TTSInferenceRequest.return_base64 request then
       audio_bytes ← read_bytes output_file;
       mret (Some (b64encode audio_bytes))
     else mret None);
  mret {| g_message := message; g_output_file := output_file;
          g_size_kb := Z.of_N file_size # 1024;
          g_duration_seconds := duration_seconds;
          g_base64_audio := base64_audio |}.

(** Lines 656-669: the [TTSInferenceResponse] built from the request and the
    locals; [output_file] is the local of that name after the deletions. *)
Definition build_response (request : TTSInferenceRequest.t) (g : Generated)
  (output_file : option str) : TTSInferenceResponse.t :=
  {| TTSInferenceResponse.success := true;
     TTSInferenceResponse.message :=
       if truthy (g_message g) then g_message g
       else u "✅ Áudio gerado com sucesso";
     TTSInferenceResponse.text := TTSInferenceRequest.text request;
     TTSInferenceResponse.tts_voice := TTSInferenceRequest.tts_voice request;
     TTSInferenceResponse.model_path := TTSInferenceRequest.model_path request;
     TTSInferenceResponse.index_path := TTSInferenceRequest.index_path request;
     TTSInferenceResponse.output_file :=
       if otruthy output_file then os_path_basename <$> output_file else None;
     TTSInferenceResponse.output_path :=
       if otruthy output_file && negb (TTSInferenceRequest.return_base64 request)
       then output_file else None;
     TTSInferenceResponse.base64 := g_base64_audio g;
     TTSInferenceResponse.format :=
       if TTSInferenceRequest.return_base64 request
       then Some (upper' (TTSInferenceRequest.export_format request)) else None;
     TTSInferenceResponse.size_kb := Some (g_size_kb g);
     TTSInferenceResponse.duration_seconds := g_duration_seconds g |}.

(** Lines 642-669: the two deletions and the response. *)
Definition respond (request : TTSInferenceRequest.t) (timestamp : str) (g : Generated)
  : M TTSInferenceResponse.t :=
  output_file ←
    (if TTSInferenceRequest.return_base64 request then
       try_or (_ ← os_remove (g_output_file g); mret None) (Some (g_output_file g))
     else mret (Some (g_output_file g)));
  _ ← try_pass (present ← os_path_exists (tts_output_path timestamp);
                if (present : bool) then os_remove (tts_output_path timestamp)
                else mret tt);
  mret (build_response request g output_file).

(** The body of the outer [try]. *)
Definition tts_inference_try (request : TTSInferenceRequest.t) : M TTSInferenceResponse.t :=
  request ← validate request;
  timestamp ← now_strftime;
  g ← generate request timestamp;
  respond request timestamp g.

Definition tts_inference (request : TTSInferenceRequest.t) : M TTSInferenceResponse.t :=
  except_Exception (tts_inference_try request)
    (fun e =>
       _ ← print (u "❌ Erro ao gerar TTS Inference: " ++ exn_str e);
       raise_http 500 (u "Erro ao gerar áudio: " ++ exn_str e)).

(** *** [POST /tts/generate] *)

Definition valid_formats : list str :=
  [u "WAV"; u "MP3"; u "FLAC"; u "OGG"; u "M4A"].

(** The local [full_request], or the exception raised before it is built. *)
Definition full_request (request : SimpleTTSRequest.t)
  : HTTPException + TTSInferenceRequest.t :=
  let cleaned_text := clean_text (SimpleTTSRequest.text request) in
  if negb (truthy cleaned_text) then
    inl {| status_code := 400; detail := u "Texto inválido ou vazio após limpeza" |}
  else
  let output_format := upper' (SimpleTTSRequest.output_format request) in
  if negb (bool_decide (output_format ∈ valid_formats)) then
    inl {| status_code := 400;
           detail := u "Formato inválido: " ++ output_format
                       ++ u ". Formatos válidos: " ++ str_join (u ", ") valid_formats |}
  else
  inr {| TTSInferenceRequest.text := cleaned_text;
         TTSInferenceRequest.tts_voice := SimpleTTSRequest.tts_voice request;
         TTSInferenceRequest.model_path := SimpleTTSRequest.model_path request;
         TTSInferenceRequest.index_path := SimpleTTSRequest.index_path request;
         TTSInferenceRequest.tts_rate := SimpleTTSRequest.tts_rate request;
         TTSInferenceRequest.pitch := 0;
         TTSInferenceRequest.index_rate := 3 # 4;
         TTSInferenceRequest.volume_envelope := 1;
         TTSInferenceRequest.protect := 1 # 2;
         TTSInferenceRequest.f0_method := u "rmvpe";
         TTSInferenceRequest.split_audio := false;
         TTSInferenceRequest.f0_autotune := false;
         TTSInferenceRequest.f0_autotune_strength := 1;
         TTSInferenceRequest.proposed_pitch := false;
         TTSInferenceRequest.proposed_pitch_threshold := 155;
         TTSInferenceRequest.clean_audio := false;
         TTSInferenceRequest.clean_strength := 1 # 2;
         TTSInferenceRequest.export_format := output_format;
         TTSInferenceRequest.embedder_model := u "contentvec";
         TTSInferenceRequest.embedder_model_custom := None;
         TTSInferenceRequest.sid := 0;
         TTSInferenceRequest.return_base64 := true;
         TTSInferenceRequest.output_filename := None |}.

Definition tts_generate_simple (request : SimpleTTSRequest.t) : M TTSInferenceResponse.t :=
  match full_request request with
  | inl e => raise (RaiseHTTP e)
  | inr full => tts_inference full
  end.

(** *** [GET /voices] *)

Definition voice_info (voice : Voice) : VoiceInfo.t :=
  let loc := dict_get voice (u "Locale") in
  {| VoiceInfo.short_name := dict_get voice (u "ShortName");
     VoiceInfo.name := dict_get voice (u "Name");
     VoiceInfo.locale := loc;
     VoiceInfo.gender := dict_get voice (u "Gender");
     VoiceInfo.language := if char_in 45 loc then split_first 45 loc else loc |}.

Definition list_voices (language : option str) : M VoicesListResponse.t :=
  except_Exception
    (voices_data ← load_tts_voices;
     let filtered_voices :=
       if otruthy language then
         List.filter
           (fun voice => str_in (lower' (default [] language))
                                (lower' (dict_get voice (u "ShortName"))))
           voices_data
       else voices_data in
     let voices_list := map voice_info filtered_voices in
     mret {| VoicesListResponse.success := true;
             VoicesListResponse.voices := voices_list;
             VoicesListResponse.total := length voices_list;
             VoicesListResponse.language_filter := language |})
    (fun e => raise_http 500 (u "Erro ao listar vozes: " ++ exn_str e)).

(** *** [GET /tts/download/{filename}] *)

Definition download_audio (filename : str) : M FileResponse.t :=
  let file_path := truediv OUTPUT_DIR filename in
  present ← path_exists file_path;
  if negb present then
    raise_http 404 (u "Arquivo não encontrado: " ++ filename)
  else
  mret {| FileResponse.path := path_str file_path;
          FileResponse.filename := filename;
          FileResponse.media_type := u "audio/wav" |}.

End Handlers.

(** ** Notions used in the statements *)

(** Lexical resolution of [..] components (what [os.path.normpath] does to
    the components of an absolute path). *)
Definition resolve_step (stack : list str) (part : str) : list str :=
  if str_eqb part (u "..") then removelast stack else stack ++ [part].







(** Two responses that agree on every field but [output_file]. *)
Definition same_but_output_file (a b : TTSInferenceResponse.t) : Prop :=
  TTSInferenceResponse.success a = TTSInferenceResponse.success b ∧
  TTSInferenceResponse.message a = TTSInferenceResponse.message b ∧
  TTSInferenceResponse.text a = TTSInferenceResponse.text b ∧
  TTSInferenceResponse.tts_voice a = TTSInferenceResponse.tts_voice b ∧
  TTSInferenceResponse.model_path a = TTSInferenceResponse.model_path b ∧
  TTSInferenceResponse.index_path a = TTSInferenceResponse.index_path b ∧
  TTSInferenceResponse.output_path a = TTSInferenceResponse.output_path b ∧
  TTSInferenceResponse.base64 a = TTSInferenceResponse.base64 b ∧
  TTSInferenceResponse.format a = TTSInferenceResponse.format b ∧
  TTSInferenceResponse.size_kb a = TTSInferenceResponse.size_kb b ∧
  TTSInferenceResponse.duration_seconds a = TTSInferenceResponse.duration_seconds b.

(** Two requests that agree on every field but [index_path]. *)
Definition same_but_index_path (a b : TTSInferenceRequest.t) : Prop :=
  ∃ i, b = TTSInferenceRequest.set_index_path a i.

(** The catalog [load_tts_voices] would return in world [w]. *)
Definition catalog (E : Env) (w : World) : Exn + list Voice :=
  match _voices_data w with
  | Some v => inr v
  | None => load_voices_data E (disk w)
  end.

(** The model file, the index file and the voice of [request] are all found
    in world [w]. *)
Definition found_checks_pass (E : Env) (request : TTSInferenceRequest.t) (w : World) : Prop :=
  exists_on E (disk w) (TTSInferenceRequest.model_path request) = true ∧
  (∃ i, (if otruthy (TTSInferenceRequest.index_path request)
         then TTSInferenceRequest.index_path request = i
         else match_index E (TTSInferenceRequest.model_path request) (disk w) = inr i) ∧
        (otruthy i = false ∨ exists_on E (disk w) (default [] i) = true)) ∧
  (∃ vs, catalog E w = inr vs ∧
         TTSInferenceRequest.tts_voice request
           ∈ map (fun v => dict_get v (u "ShortName")) vs).

(** [w1] differs from [w] at most in what was printed. *)
Definition printed_only (w w1 : World) : Prop :=
  disk w1 = disk w ∧ locked w1 = locked w ∧ _voices_data w1 = _voices_data w ∧
  clock w1 = clock w ∧ pipeline_calls w1 = pipeline_calls w.

(** A computation that neither reads nor changes which names are locked. *)
Definition oblivious {A} (m : M A) : Prop :=
  ∀ w l, m (with_locked w l) = (fst (m w), with_locked (snd (m w)) l).

(** [tts_inference] up to the point where the deletions start. *)
Definition prelude (E : Env) (request : TTSInferenceRequest.t)
  : M (TTSInferenceRequest.t * str * Generated) :=
  request ← validate E request;
  timestamp ← now_strftime;
  g ← generate E request timestamp;
  mret (request, timestamp, g).

(** ** A concrete installation, for the examples *)

Definition plain_tables : CaseTables :=
  {| upper_full := fun c => [c]; lower_full := fun _ c _ => [c] |}.

Definition sample_voice (short_name loc gender : string) : Voice :=
  <[u "ShortName" := u short_name]>
    (<[u "Name" := u "Microsoft Server Speech Text to Speech Voice" ]>
       (<[u "Locale" := u loc]> (<[u "Gender" := u gender]> ∅))).

Definition sample_voices : list Voice :=
  [sample_voice "en-US-GuyNeural" "en-US" "Male";
   sample_voice "fr-FR-HenriNeural" "fr-FR" "Male";
   sample_voice "pt-BR-FranciscaNeural" "pt-BR" "Female"].

(** A pipeline that writes the intermediate file and the converted file and
    returns the path of the latter. *)
Definition writing_pipeline (a : TTSArgs.t) (d : gmap str node)
  : (Exn + str * str) * gmap str node :=
  (inr (u "Text synthesized successfully.", TTSArgs.output_rvc_path a),
   <[TTSArgs.output_rvc_path a := File [82; 73; 70; 70]]>
     (<[TTSArgs.output_tts_path a := File [1; 2; 3]]> d)).

(** A pipeline whose conversion step raises after the intermediate file was
    written. *)
Definition failing_pipeline (a : TTSArgs.t) (d : gmap str node)
  : (Exn + str * str) * gmap str node :=
  (inl {| exn_str := u "conversion failed" |},
   <[TTSArgs.output_tts_path a := File [1; 2; 3]]> d).

(** The sample installation takes the code points above U+00A0 for
    printable. *)
Definition sample_printable (c : N) : bool := 160 <? c.

(** Length in bytes of the UTF-8 encoding. *)
Definition utf8_length (s : str) : N :=
  fold_right (fun c n => (if c <? 128 then 1 else if c <? 2048 then 2
                          else if c <? 65536 then 3 else 4) + n) 0 s.

(** Linux refuses a name with a component of more than 255 bytes. *)
Definition ENAMETOOLONG := u "[Errno 36] File name too long".
Definition name_too_long (p : str) : option Exn :=
  if existsb (fun part => 255 <? utf8_length part) (split_on SEP p)
  then Some {| exn_str := ENAMETOOLONG ++ u ": " ++ py_repr sample_printable p |}
  else None.

Definition sample_env
  (pipeline : TTSArgs.t -> gmap str node -> (Exn + str * str) * gmap str node) : Env :=
  {| now_dir := u "/srv/applio";
     realpath := fun p => p;
     case_tables := plain_tables;
     load_voices_data := fun _ => inr sample_voices;
     match_index := fun _ _ => inr (Some []);
     Config := inr {| device := u "cpu"; gpu_name := None |};
     run_tts_script := pipeline;
     get_duration := fun _ _ => None;
     stat_error := name_too_long;
     isprintable := sample_printable |}.

Definition sample_world : World :=
  {| disk := {[ u "logs/Lula/Lula.pth" := File [0] ]};
     locked := ∅;
     _voices_data := None;
     clock := u "20240101_120000";
     stdout := [];
     pipeline_calls := [] |}.

(** A full request with the documented defaults in the fields not listed. *)
Definition make_request (text model_path embedder_model : str)
  (return_base64 : bool) (output_filename : option str) : TTSInferenceRequest.t :=
  {| TTSInferenceRequest.text := text;
     TTSInferenceRequest.tts_voice := u "en-US-GuyNeural";
     TTSInferenceRequest.model_path := model_path;
     TTSInferenceRequest.index_path := None;
     TTSInferenceRequest.tts_rate := 0;
     TTSInferenceRequest.pitch := 0;
     TTSInferenceRequest.index_rate := 3 # 4;
     TTSInferenceRequest.volume_envelope := 1;
     TTSInferenceRequest.protect := 1 # 2;
     TTSInferenceRequest.f0_method := u "rmvpe";
     TTSInferenceRequest.split_audio := false;
     TTSInferenceRequest.f0_autotune := false;
     TTSInferenceRequest.f0_autotune_strength := 1;
     TTSInferenceRequest.proposed_pitch := false;
     TTSInferenceRequest.proposed_pitch_threshold := 155;
     TTSInferenceRequest.clean_audio := false;
     TTSInferenceRequest.clean_strength := 1 # 2;
     TTSInferenceRequest.export_format := u "WAV";
     TTSInferenceRequest.embedder_model := embedder_model;
     TTSInferenceRequest.embedder_model_custom := None;
     TTSInferenceRequest.sid := 0;
     TTSInferenceRequest.return_base64 := return_base64;
     TTSInferenceRequest.output_filename := output_filename |}.

Definition sample_request : TTSInferenceRequest.t :=
  make_request (u "Hello") (u "logs/Lula/Lula.pth") (u "contentvec") false None.

(** The same, asking for the payload. *)
Definition base64_request : TTSInferenceRequest.t :=
  make_request (u "Hello") (u "logs/Lula/Lula.pth") (u "contentvec") true None.

(** A request that names its output like the intermediate file of the
    second it is served in. *)
Definition clashing_request : TTSInferenceRequest.t :=
  make_request (u "Hello") (u "logs/Lula/Lula.pth") (u "contentvec") false
    (Some (u "tts_output_20240101_120000.wav")).


(** Custom embedder without its path, for a model that exists and for one
    that does not. *)
Definition custom_request : TTSInferenceRequest.t :=
  make_request (u "Hello") (u "logs/Lula/Lula.pth") (u "custom") false None.
Definition custom_missing_request : TTSInferenceRequest.t :=
  make_request (u "Hello") (u "logs/missing.pth") (u "custom") false None.

(** A text with a BEL character (0x07) at its end. *)
Definition bell_text : str := u "Hi" ++ [7].
Definition bell_request : TTSInferenceRequest.t :=
  make_request bell_text (u "logs/Lula/Lula.pth") (u "contentvec") false None.

Definition make_simple (text output_format : str) : SimpleTTSRequest.t :=
  {| SimpleTTSRequest.text := text;
     SimpleTTSRequest.tts_voice := u "en-US-GuyNeural";
     SimpleTTSRequest.model_path := u "logs/Lula/Lula.pth";
     SimpleTTSRequest.index_path := None;
     SimpleTTSRequest.tts_rate := 0;
     SimpleTTSRequest.return_base64 := true;
     SimpleTTSRequest.output_format := output_format |}.

Definition bell_simple : SimpleTTSRequest.t := make_simple bell_text (u "OGG").
Definition blank_simple : SimpleTTSRequest.t := make_simple (u " ") (u "OGG").
Definition ogg_simple : SimpleTTSRequest.t := make_simple (u "Hello") (u "ogg").

(** The world in which the removal of the converted file is refused. *)
Definition locked_world : World :=
  with_locked sample_world
    {[ u "/srv/applio/assets/audios/tts_rvc_output_20240101_120000.wav" ]}.

Definition demo : Env := sample_env writing_pipeline.
Definition demo_failing : Env := sample_env failing_pipeline.

(** The names of the two files of a request served at the sample time. *)
Definition sample_tts_path : str :=
  u "/srv/applio/assets/audios/tts_output_20240101_120000.wav".
Definition sample_rvc_path : str :=
  u "/srv/applio/assets/audios/tts_rvc_output_20240101_120000.wav".


(** ** The other handlers of [api/app.py] *)

(** The functions of [tabs.inference.inference] that only these handlers
    call. *)
Record ModelStore := {
  get_files : str -> gmap str node -> Exn + list str;
  get_speakers_id : str -> gmap str node -> Exn + list Z
}.

Module ModelInfo.
Record t := { path : str; name : str; index_path : option str }.
End ModelInfo.

Module ModelsListResponse.
Record t := { success : bool; models : list ModelInfo.t; total : nat }.
End ModelsListResponse.

Module ModelIndexResponse.
Record t := {
  success : bool;
  model_path : str;
  index_path : option str;
  message : str
}.
End ModelIndexResponse.

Module SpeakerIDsResponse.
Record t := {
  success : bool;
  model_path : str;
  speaker_ids : list Z;
  total : nat
}.
End SpeakerIDsResponse.

Section MoreHandlers.
Context (E : Env) (S : ModelStore).


(** *** [GET /models] *)
Definition list_models : M ModelsListResponse.t :=
  except_Exception
    (models ← call (get_files S (u "model"));
     indexes ← call (get_files S (u "index"));
     models_list ←
       mapM (fun model_path =>
               index_path ← call (match_index E model_path);
               mret {| ModelInfo.path := model_path;
                       ModelInfo.name := os_path_basename model_path;
                       ModelInfo.index_path := index_path |})
            models;
     mret {| ModelsListResponse.success := true;
             ModelsListResponse.models := models_list;
             ModelsListResponse.total := length models_list |})
    (fun e => raise_http 500 (u "Erro ao listar modelos: " ++ exn_str e)).

(** *** [GET /models/{model_path}/index] *)
Definition get_model_index (model_path : str) : M ModelIndexResponse.t :=
  except_Exception
    (found ← os_path_exists E model_path;
     if negb found then
       raise_http 404 (u "Modelo não encontrado: " ++ model_path)
     else
     index_path ← call (match_index E model_path);
     mret {| ModelIndexResponse.success := true;
             ModelIndexResponse.model_path := model_path;
             ModelIndexResponse.index_path := index_path;
             ModelIndexResponse.message :=
               if otruthy index_path
               then u "Index file encontrado: " ++ default [] index_path
               else u "Nenhum index file encontrado para este modelo" |})
    (fun e => raise_http 500 (u "Erro ao obter index: " ++ exn_str e)).

(** *** [GET /models/{model_path}/speakers] *)
Definition get_model_speakers (model_path : str) : M SpeakerIDsResponse.t :=
  except_Exception
    (found ← os_path_exists E model_path;
     if negb found then
       raise_http 404 (u "Modelo não encontrado: " ++ model_path)
     else
     speaker_ids ← call (get_speakers_id S model_path);
     mret {| SpeakerIDsResponse.success := true;
             SpeakerIDsResponse.model_path := model_path;
             SpeakerIDsResponse.speaker_ids := speaker_ids;
             SpeakerIDsResponse.total := length speaker_ids |})
    (fun e => raise_http 500 (u "Erro ao obter speaker IDs: " ++ exn_str e)).

End MoreHandlers.

(** ** [api/config.py] *)

(** [p.parent] *)
Definition path_parent (p : Path) : Path :=
  {| root := root p; parts := removelast (parts p) |}.

(** [Settings], once its fields are read from the environment. *)
Module Settings.
Record t := {
  API_HOST : str;
  API_PORT : Z;
  API_TITLE : str;
  API_VERSION : str;
  API_KEY : option str;
  WHISPER_MODEL_SIZE : str;
  WHISPER_PRELOAD : bool;
  PYANNOTE_TOKEN : option str;
  PYANNOTE_PRELOAD : bool;
  PYANNOTE_MODEL : str;
  OUTPUT_DIR : option str;
  UPLOAD_DIR : option str;
  CUDA_VISIBLE_DEVICES : option str
}.

(** What [__init__] does after the fields are read: the two directories
    that are still [None] get their place under the root of Applio;
    [file] is [__file__]. *)
Definition init (file : str) (s : t) : t :=
  let root_dir := path_parent (path_parent (mkPath file)) in
  {| API_HOST := API_HOST s; API_PORT := API_PORT s; API_TITLE := API_TITLE s;
     API_VERSION := API_VERSION s; API_KEY := API_KEY s;
     WHISPER_MODEL_SIZE := WHISPER_MODEL_SIZE s;
     WHISPER_PRELOAD := WHISPER_PRELOAD s;
     PYANNOTE_TOKEN := PYANNOTE_TOKEN s;
     PYANNOTE_PRELOAD := PYANNOTE_PRELOAD s;
     PYANNOTE_MODEL := PYANNOTE_MODEL s;
     OUTPUT_DIR :=
       match OUTPUT_DIR s with
       | None => Some (path_str (truediv (truediv root_dir (u "assets")) (u "audios")))
       | Some d => Some d
       end;
     UPLOAD_DIR :=
       match UPLOAD_DIR s with
       | None => Some (path_str (truediv (truediv root_dir (u "assets")) (u "uploads")))
       | Some d => Some d
       end;
     CUDA_VISIBLE_DEVICES := CUDA_VISIBLE_DEVICES s |}.

(** [o is not None and o.strip() != ""] *)
Definition configured (o : option str) : bool :=
  match o with
  | Some s => negb (str_eqb (strip s) [])
  | None => false
  end.

Definition has_pyannote_token (s : t) : bool := configured (PYANNOTE_TOKEN s).

Definition should_preload_diarization (s : t) : bool :=
  PYANNOTE_PRELOAD s && has_pyannote_token s.

Definition has_api_key (s : t) : bool := configured (API_KEY s).
End Settings.

(** ** [api/fix_multipart.py] *)

Definition ENOTDIR := u "[Errno 20] Not a directory".
Definition EEXIST := u "[Errno 17] File exists".

Definition init_content : str :=
  u "# Alias para compatibilidade com python_multipart
# python-multipart instala como 'multipart' mas Gradio espera 'python_multipart'
import sys
from multipart import multipart as multipart_module
sys.modules['python_multipart'] = sys.modules['multipart']
sys.modules['python_multipart.multipart'] = multipart_module
".

Section FixMultipart.
Context (E : Env).
(** The size the system reports for a directory it has just made. *)
Context (fresh_dir_size : N).

(** A new entry needs a name that the system accepts and a parent that is
    a directory. *)
Definition check_parent (p : Path) : M unit := fun w =>
  match stat_error E (path_str p) with
  | Some e => (inl (RaiseExc e), w)
  | None =>
  match lookup_node E (disk w) (path_str (path_parent p)) with
  | Some (Dir _) => (inr tt, w)
  | Some (File _) => (inl (RaiseExc (os_error E ENOTDIR (path_str p))), w)
  | None => (inl (RaiseExc (os_error E ENOENT (path_str p))), w)
  end
  end.

(** [p.mkdir(exist_ok=True)] *)
Definition path_mkdir_exist_ok (p : Path) : M unit := fun w =>
  match lookup_node E (disk w) (path_str p) with
  | Some (Dir _) => (inr tt, w)
  | Some (File _) => (inl (RaiseExc (os_error E EEXIST (path_str p))), w)
  | None =>
      match check_parent p w with
      | (inr _, _) =>
          (inr tt, with_disk w (<[realpath E (path_str p) := Dir fresh_dir_size]> (disk w)))
      | (inl e, _) => (inl e, w)
      end
  end.

(** [with open(p, 'w') as f: f.write(content)], for a text of ASCII
    characters *)
Definition path_write_text (p : Path) (content : str) : M unit := fun w =>
  match lookup_node E (disk w) (path_str p) with
  | Some (Dir _) => (inl (RaiseExc (os_error E EISDIR (path_str p))), w)
  | Some (File _) =>
      (inr tt, with_disk w (<[realpath E (path_str p) := File content]> (disk w)))
  | None =>
      match check_parent p w with
      | (inr _, _) =>
          (inr tt, with_disk w (<[realpath E (path_str p) := File content]> (disk w)))
      | (inl e, _) => (inl e, w)
      end
  end.

(** The loop over [sys.path]: the first entry that mentions both
    [site-packages] and [.venv]. *)
Definition find_site_packages (sys_path : list str) : option Path :=
  mkPath <$> List.find (fun path => str_in (u "site-packages") path
                                   && str_in (u ".venv") path) sys_path.

Definition create_multipart_alias (sys_path : list str) : M bool :=
  match find_site_packages sys_path with
  | None =>
      _ ← print (u "❌ Não foi possível encontrar site-packages do venv");
      mret false
  | Some site_packages =>
      let multipart_path := truediv site_packages (u "multipart") in
      found ← path_exists E multipart_path;
      if negb found then
        _ ← print (u "❌ Módulo multipart não encontrado. Instale python-multipart primeiro.");
        mret false
      else
      let python_multipart_dir := truediv site_packages (u "python_multipart") in
      _ ← path_mkdir_exist_ok python_multipart_dir;
      let init_file := truediv python_multipart_dir (u "__init__.py") in
      _ ← path_write_text init_file init_content;
      _ ← print (u "✅ Alias python_multipart criado em " ++ path_str python_multipart_dir);
      mret true
  end.

End FixMultipart.

(** ** Notions used in the further statements *)

(** A computation that leaves a loaded catalog as it is. *)
Definition keeps_catalog {A} (m : M A) : Prop :=
  ∀ w r w' vs, m w = (r, w') → _voices_data w = Some vs → _voices_data w' = Some vs.

(** ** More of the sample installation *)

(** The sample world once the catalog is loaded. *)
Definition loaded_world : World :=
  {| disk := disk sample_world;
     locked := ∅;
     _voices_data := Some sample_voices;
     clock := clock sample_world;
     stdout := [];
     pipeline_calls := [] |}.

(** An installation whose voice loader raises. *)
Definition loader_error : Exn := {| exn_str := u "tts_voices.json not found" |}.

Definition offline : Env :=
  {| now_dir := now_dir demo;
     realpath := realpath demo;
     case_tables := case_tables demo;
     load_voices_data := fun _ => inl loader_error;
     match_index := match_index demo;
     Config := Config demo;
     run_tts_script := run_tts_script demo;
     get_duration := get_duration demo;
     stat_error := stat_error demo;
     isprintable := isprintable demo |}.

(** A request that names an index file that is not there. *)
Definition indexed_request : TTSInferenceRequest.t :=
  TTSInferenceRequest.set_index_path sample_request (Some (u "logs/Lula/Lula.index")).

(** A request for a voice that the catalog does not have. *)
Definition unknown_voice_request : TTSInferenceRequest.t :=
  {| TTSInferenceRequest.text := u "Hello";
     TTSInferenceRequest.tts_voice := u "xx-XX-NobodyNeural";
     TTSInferenceRequest.model_path := u "logs/Lula/Lula.pth";
     TTSInferenceRequest.index_path := None;
     TTSInferenceRequest.tts_rate := 0;
     TTSInferenceRequest.pitch := 0;
     TTSInferenceRequest.index_rate := 3 # 4;
     TTSInferenceRequest.volume_envelope := 1;
     TTSInferenceRequest.protect := 1 # 2;
     TTSInferenceRequest.f0_method := u "rmvpe";
     TTSInferenceRequest.split_audio := false;
     TTSInferenceRequest.f0_autotune := false;
     TTSInferenceRequest.f0_autotune_strength := 1;
     TTSInferenceRequest.proposed_pitch := false;
     TTSInferenceRequest.proposed_pitch_threshold := 155;
     TTSInferenceRequest.clean_audio := false;
     TTSInferenceRequest.clean_strength := 1 # 2;
     TTSInferenceRequest.export_format := u "WAV";
     TTSInferenceRequest.embedder_model := u "contentvec";
     TTSInferenceRequest.embedder_model_custom := None;
     TTSInferenceRequest.sid := 0;
     TTSInferenceRequest.return_base64 := false;
     TTSInferenceRequest.output_filename := None |}.

(** A model store with the one model of the sample disk. *)
Definition sample_store : ModelStore :=
  {| get_files := fun kind _ =>
       inr (if str_eqb kind (u "model") then [u "logs/Lula/Lula.pth"] else []);
     get_speakers_id := fun _ _ => inr [0%Z] |}.

Definition sample_model : ModelInfo.t :=
  {| ModelInfo.path := u "logs/Lula/Lula.pth";
     ModelInfo.name := u "Lula.pth";
     ModelInfo.index_path := Some [] |}.

(** A virtual environment with [python-multipart] installed, and the search
    path of its interpreter. *)
Definition sample_site_packages : str :=
  u "/srv/applio/.venv/lib/python3.10/site-packages".

Definition sample_sys_path : list str :=
  [u "/srv/applio/api"; u "/usr/lib/python3.10"; sample_site_packages;
   u "/srv/applio/.venv/lib/python3.10/site-packages/extra"].

Definition venv_world : World :=
  with_disk sample_world
    (<[sample_site_packages := Dir 4096]>
       (<[sample_site_packages ++ u "/multipart" := Dir 4096]> (disk sample_world))).

(** The same request for another voice. *)
Definition with_voice (r : TTSInferenceRequest.t) (voice : str) : TTSInferenceRequest.t :=
  {| TTSInferenceRequest.text := TTSInferenceRequest.text r;
     TTSInferenceRequest.tts_voice := voice;
     TTSInferenceRequest.model_path := TTSInferenceRequest.model_path r;
     TTSInferenceRequest.index_path := TTSInferenceRequest.index_path r;
     TTSInferenceRequest.tts_rate := TTSInferenceRequest.tts_rate r;
     TTSInferenceRequest.pitch := TTSInferenceRequest.pitch r;
     TTSInferenceRequest.index_rate := TTSInferenceRequest.index_rate r;
     TTSInferenceRequest.volume_envelope := TTSInferenceRequest.volume_envelope r;
     TTSInferenceRequest.protect := TTSInferenceRequest.protect r;
     TTSInferenceRequest.f0_method := TTSInferenceRequest.f0_method r;
     TTSInferenceRequest.split_audio := TTSInferenceRequest.split_audio r;
     TTSInferenceRequest.f0_autotune := TTSInferenceRequest.f0_autotune r;
     TTSInferenceRequest.f0_autotune_strength := TTSInferenceRequest.f0_autotune_strength r;
     TTSInferenceRequest.proposed_pitch := TTSInferenceRequest.proposed_pitch r;
     TTSInferenceRequest.proposed_pitch_threshold :=
       TTSInferenceRequest.proposed_pitch_threshold r;
     TTSInferenceRequest.clean_audio := TTSInferenceRequest.clean_audio r;
     TTSInferenceRequest.clean_strength := TTSInferenceRequest.clean_strength r;
     TTSInferenceRequest.export_format := TTSInferenceRequest.export_format r;
     TTSInferenceRequest.embedder_model := TTSInferenceRequest.embedder_model r;
     TTSInferenceRequest.embedder_model_custom :=
       TTSInferenceRequest.embedder_model_custom r;
     TTSInferenceRequest.sid := TTSInferenceRequest.sid r;
     TTSInferenceRequest.return_base64 := TTSInferenceRequest.return_base64 r;
     TTSInferenceRequest.output_filename := TTSInferenceRequest.output_filename r |}.

(** The custom embedder without its path, for a voice that the catalog does
    not have, and with an index file that is not there. *)
Definition custom_unknown_voice_request : TTSInferenceRequest.t :=
  with_voice custom_request (u "xx-XX-NobodyNeural").
Definition custom_indexed_request : TTSInferenceRequest.t :=
  TTSInferenceRequest.set_index_path custom_request (Some (u "logs/Lula/Lula.index")).


(** * Theorems *)

(** ** Strings *)

Lemma startswith_app (p s : str) : startswith (p ++ s) p = true.
Proof.
  induction p as [|c p IH]; simpl; [by destruct s|].
  by rewrite N.eqb_refl, IH.
Qed.

Lemma str_in_unfold (p s : str) :
  str_in p s = startswith s p || match s with [] => false | _ :: s' => str_in p s' end.
Proof. by destruct s. Qed.

Lemma str_in_app (a p b : str) : str_in p (a ++ p ++ b) = true.
Proof.
  induction a as [|c a IH].
  - rewrite str_in_unfold. simpl. by rewrite startswith_app.
  - rewrite str_in_unfold. simpl. rewrite IH. apply orb_true_r.
Qed.

Lemma elem_of_rev (c : N) (l : str) : c ∈ rev l ↔ c ∈ l.
Proof. rewrite !list_elem_of_In. symmetry. apply in_rev. Qed.

Lemma last_rev (l : str) : last (rev l) = head l.
Proof. destruct l as [|c r]; simpl; [done | apply last_snoc]. Qed.

Lemma str_in_suffix (a p : str) : str_in p (a ++ p) = true.
Proof. pose proof (str_in_app a p []) as H. by rewrite app_nil_r in H. Qed.

Lemma lstrip_suffix (s : str) : lstrip s `suffix_of` s.
Proof.
  induction s as [|c r IH]; simpl; [done|].
  destruct (isspace c); [by apply suffix_cons_r | done].
Qed.

Lemma lstrip_head (s : str) (c : N) : head (lstrip s) = Some c → isspace c = false.
Proof.
  induction s as [|d r IH]; simpl; [done|].
  destruct (isspace d) eqn:Hd; [done|].
  simpl. by intros [= <-].
Qed.

Lemma strip_sublist (s : str) : ∀ c, c ∈ strip s → c ∈ s.
Proof.
  intros c Hc. unfold strip, rstrip in Hc.
  rewrite elem_of_rev in Hc.
  destruct (lstrip_suffix (rev (lstrip s))) as [k1 Hk1].
  assert (c ∈ rev (lstrip s)) as Hc' by (rewrite Hk1; apply elem_of_app; by right).
  rewrite elem_of_rev in Hc'.
  destruct (lstrip_suffix s) as [k2 Hk2].
  rewrite Hk2. apply elem_of_app. by right.
Qed.

Lemma strip_last (s : str) (c : N) : last (strip s) = Some c → isspace c = false.
Proof.
  unfold strip, rstrip. rewrite last_rev. apply lstrip_head.
Qed.

Lemma strip_head (s : str) (c : N) : head (strip s) = Some c → isspace c = false.
Proof.
  unfold strip, rstrip. intros Hc.
  destruct (lstrip_suffix (rev (lstrip s))) as [k Hk].
  apply (f_equal (@rev N)) in Hk. rewrite rev_involutive, rev_app_distr in Hk.
  destruct (rev (lstrip (rev (lstrip s)))) as [|x t] eqn:Ht; [done|].
  simpl in Hc. injection Hc as ->.
  apply (lstrip_head s). rewrite Hk. done.
Qed.

Lemma re_sub_class_Forall (cls : N → bool) (text : str) :
  Forall (λ c, cls c = false) (re_sub_class cls text).
Proof.
  unfold re_sub_class. apply Forall_forall. intros c Hc.
  apply list_elem_of_In, filter_In in Hc. destruct Hc as [_ Hc].
  by apply negb_true_iff.
Qed.

Lemma replace2_cons_cons (a b : N) (new : str) (c d : N) (r : str) :
  replace2 a b new (c :: d :: r) =
  if (c =? a) && (d =? b) then new ++ replace2 a b new r
  else c :: replace2 a b new (d :: r).
Proof. done. Qed.

Lemma replace2_Forall (P : N → Prop) (a b : N) (new s : str) :
  Forall P new → Forall P s → Forall P (replace2 a b new s).
Proof.
  intros Hnew. remember (length s) as n eqn:Hn.
  revert s Hn. induction (lt_wf n) as [n _ IH]. intros s Hn Hs.
  destruct s as [|c [|d r]]; [done | done |].
  rewrite replace2_cons_cons.
  inversion Hs as [|? ? Hc Hr]; subst.
  inversion Hr as [|? ? Hd Hr']; subst.
  destruct ((c =? a) && (d =? b)).
  - apply Forall_app. split; [done|].
    eapply (IH (length r)); [simpl; lia | done | done].
  - constructor; [done|].
    eapply (IH (length (d :: r))); [simpl; lia | done | done].
Qed.

Lemma replace1_Forall (P : N → Prop) (a : N) (new s : str) :
  Forall P new → Forall (λ c, c ≠ a → P c) s → Forall P (replace1 a new s).
Proof.
  intros Hnew Hs. unfold replace1.
  induction Hs as [|c r Hc Hr IH]; simpl; [done|].
  apply Forall_app. split; [|done].
  destruct (N.eqb_spec c a); [done|]. constructor; [by apply Hc | done].
Qed.











(** ** The request monad *)

Ltac munfold :=
  unfold mbind, M_bind, mret, M_ret, raise_http, raise, os_path_exists, call,
    now_strftime, try_get_duration, call_Config, print, except_Exception,
    try_or, try_pass, load_tts_voices, call_run_tts_script, os_path_getsize,
    read_bytes, with_disk in *.

Section Validation.
Context (E : Env).

Lemma same_but_index_path_refl (a : TTSInferenceRequest.t) : same_but_index_path a a.
Proof. exists (TTSInferenceRequest.index_path a). by destruct a. Qed.

(** The validations touch neither the disk, the console nor the pipeline. *)
Lemma validate_frame request w r w' :
  validate E request w = (r, w') →
  disk w' = disk w ∧ locked w' = locked w ∧ clock w' = clock w ∧
  stdout w' = stdout w ∧ pipeline_calls w' = pipeline_calls w.
Proof.
  unfold validate. munfold. intros H.
  repeat case_match; simplify_eq; done.
Qed.

Lemma validate_ok request w request' w' :
  validate E request w = (inr request', w') →
  same_but_index_path request request' ∧
  (str_eqb (TTSInferenceRequest.embedder_model request') (u "custom")
   && negb (otruthy (TTSInferenceRequest.embedder_model_custom request'))) = false.
Proof.
  unfold validate. munfold. intros H.
  repeat case_match; simplify_eq; split;
    first [ done | apply same_but_index_path_refl | by eexists ].
Qed.

Lemma validate_raises request w e w' :
  validate E request w = (inl e, w') →
  match e with
  | RaiseHTTP h => status_code h = 404 ∨ status_code h = 400
  | RaiseExc _ => True
  end.
Proof.
  unfold validate. munfold. intros H.
  repeat case_match; simplify_eq; simpl; auto.
Qed.

End Validation.

(** ** Rejections before synthesis *)

Section Rejections.
Context (E : Env).

Lemma tts_inference_validate_fails request w h w' :
  validate E request w = (inl (RaiseHTTP h), w') →
  tts_inference E request w = (inl (RaiseHTTP h), w').
Proof.
  intros H. unfold tts_inference, tts_inference_try, except_Exception.
  unfold mbind at 1, M_bind at 1. rewrite H. reflexivity.
Qed.

Lemma tts_inference_validate_raises request w e w' :
  validate E request w = (inl (RaiseExc e), w') →
  ∃ h w'', tts_inference E request w = (inl (RaiseHTTP h), w'') ∧
           status_code h = 500 ∧ disk w'' = disk w' ∧
           pipeline_calls w'' = pipeline_calls w'.
Proof.
  intros H. unfold tts_inference, tts_inference_try, except_Exception.
  unfold mbind at 1, M_bind at 1. rewrite H.
  unfold mbind, M_bind, print, raise_http, raise.
  eexists _, _. split; [reflexivity|]. cbn. auto.
Qed.

Lemma validate_model_missing request w :
  exists_on E (disk w) (TTSInferenceRequest.model_path request) = false →
  validate E request w
  = (inl (RaiseHTTP {| status_code := 404;
                       detail := u "Modelo não encontrado: "
                                   ++ TTSInferenceRequest.model_path request |}), w).
Proof.
  intros H. unfold validate. unfold mbind at 1, M_bind at 1.
  unfold os_path_exists. rewrite H. reflexivity.
Qed.

(** C1. When [model_path] does not exist, [tts_inference] raises
    [HTTPException] 404 whose detail holds the path, and leaves the world as
    it found it: nothing written or deleted, no call of the pipeline, nothing
    printed, the catalog not even loaded. *)
Theorem tts_inference_model_not_found request w :
  exists_on E (disk w) (TTSInferenceRequest.model_path request) = false →
  ∃ d, tts_inference E request w
         = (inl (RaiseHTTP {| status_code := 404; detail := d |}), w) ∧
       str_in (TTSInferenceRequest.model_path request) d = true.
Proof.
  intros H. eexists. split.
  - apply tts_inference_validate_fails. by apply validate_model_missing.
  - apply str_in_suffix.
Qed.

Lemma validate_custom_embedder request w :
  found_checks_pass E request w →
  TTSInferenceRequest.embedder_model request = u "custom" →
  otruthy (TTSInferenceRequest.embedder_model_custom request) = false →
  ∃ w', validate E request w
        = (inl (RaiseHTTP
                  {| status_code := 400;
                     detail := u "embedder_model_custom é obrigatório quando embedder_model='custom'" |}),
           w').
Proof.
  intros (Hm & (i & Hi & Hex) & (vs & Hcat & Hin)) Hcustom Hnone.
  unfold catalog in Hcat. unfold validate. munfold. rewrite Hm. cbn [negb].
  destruct (otruthy (TTSInferenceRequest.index_path request)) eqn:Hidx; cbn [negb].
  - rewrite Hidx. subst i. destruct Hex as [Hex|Hex]; [congruence|].
    rewrite Hex. cbn [negb].
    destruct (_voices_data w) as [v|]; simplify_eq.
    + rewrite bool_decide_true by done. cbn [negb].
      rewrite Hcustom, Hnone. unfold str_eqb. rewrite bool_decide_true by done.
      cbn [negb andb]. by eexists.
    + rewrite Hcat. rewrite bool_decide_true by done. cbn [negb].
      rewrite Hcustom, Hnone. unfold str_eqb. rewrite bool_decide_true by done.
      cbn [negb andb]. by eexists.
  - rewrite Hi.
    assert (TTSInferenceRequest.index_path (TTSInferenceRequest.set_index_path request i) = i)
      as -> by done.
    assert (TTSInferenceRequest.tts_voice (TTSInferenceRequest.set_index_path request i)
            = TTSInferenceRequest.tts_voice request) as -> by done.
    assert (TTSInferenceRequest.embedder_model (TTSInferenceRequest.set_index_path request i)
            = TTSInferenceRequest.embedder_model request) as -> by done.
    assert (TTSInferenceRequest.embedder_model_custom
              (TTSInferenceRequest.set_index_path request i)
            = TTSInferenceRequest.embedder_model_custom request) as -> by done.
    assert (otruthy i = false ∨ otruthy i = true ∧ exists_on E (disk w) (default [] i) = true)
      as [Hoi | [Hoi Hex']] by (destruct (otruthy i), Hex; auto);
      rewrite Hoi; [|rewrite Hex'; cbn [negb]].
    all: destruct (_voices_data w) as [v|]; simplify_eq; rewrite ?Hcat;
      rewrite bool_decide_true by done; cbn [negb];
      rewrite Hcustom, Hnone; unfold str_eqb; rewrite bool_decide_true by done;
      cbn [negb andb]; by eexists.
Qed.

End Rejections.

(** ** Locked names play no part before the deletions *)

Lemma oblivious_ret {A} (a : A) : oblivious (mret a).
Proof. done. Qed.

Lemma oblivious_raise {A} (e : Raised) : oblivious (raise e : M A).
Proof. done. Qed.

Lemma oblivious_bind {A B} (m : M A) (k : A → M B) :
  oblivious m → (∀ a, oblivious (k a)) → oblivious (m ≫= k).
Proof.
  intros Hm Hk w l. unfold mbind, M_bind. rewrite Hm.
  destruct (m w) as [[e|a] w1]; cbn [fst snd]; [done|]. apply Hk.
Qed.

Lemma oblivious_except {A} (m : M A) (h : Exn → M A) :
  oblivious m → (∀ e, oblivious (h e)) → oblivious (except_Exception m h).
Proof.
  intros Hm Hh w l. unfold except_Exception. rewrite Hm.
  destruct (m w) as [[[e|e]|a] w1]; cbn [fst snd]; [done | apply Hh | done].
Qed.

Lemma oblivious_if {A} (b : bool) (m1 m2 : M A) :
  oblivious m1 → oblivious m2 → oblivious (if b then m1 else m2).
Proof. by destruct b. Qed.

Section Prelude.
Context (E : Env).

Lemma os_path_exists_oblivious p : oblivious (os_path_exists E p).
Proof. done. Qed.

Lemma call_oblivious {A} (f : gmap str node → Exn + A) : oblivious (call f).
Proof. intros w l. unfold call. cbn [disk with_locked]. by destruct (f (disk w)). Qed.

Lemma load_tts_voices_oblivious : oblivious (load_tts_voices E).
Proof.
  intros w l. unfold load_tts_voices. cbn [disk _voices_data with_locked].
  destruct (_voices_data w); [done|]. by destruct (load_voices_data E (disk w)).
Qed.

Lemma print_oblivious line : oblivious (print line).
Proof. done. Qed.

Lemma call_Config_oblivious : oblivious (call_Config E).
Proof. intros w l. unfold call_Config. by destruct (Config E). Qed.

Lemma call_run_tts_script_oblivious a : oblivious (call_run_tts_script E a).
Proof.
  intros w l. unfold call_run_tts_script. cbn [disk with_locked].
  by destruct (run_tts_script E a (disk w)) as [[e|r] d].
Qed.

Lemma os_path_getsize_oblivious p : oblivious (os_path_getsize E p).
Proof.
  intros w l. unfold os_path_getsize. cbn [disk with_locked].
  by destruct (lookup_node E (disk w) p) as [[?|?]|].
Qed.

Lemma read_bytes_oblivious p : oblivious (read_bytes E p).
Proof.
  intros w l. unfold read_bytes. cbn [disk with_locked].
  by destruct (lookup_node E (disk w) p) as [[?|?]|].
Qed.

Lemma try_get_duration_oblivious p : oblivious (try_get_duration E p).
Proof. done. Qed.

Lemma now_strftime_oblivious : oblivious now_strftime.
Proof. done. Qed.

Create HintDb oblivious discriminated.
#[local] Hint Resolve oblivious_ret oblivious_raise oblivious_except
  os_path_exists_oblivious call_oblivious load_tts_voices_oblivious
  print_oblivious call_Config_oblivious call_run_tts_script_oblivious
  os_path_getsize_oblivious read_bytes_oblivious try_get_duration_oblivious
  now_strftime_oblivious : oblivious.

Ltac oblivious_step :=
  match goal with
  | |- oblivious (_ ≫= _) => apply oblivious_bind; [|intros ?]
  | |- oblivious (if _ then _ else _) => apply oblivious_if
  | |- oblivious (except_Exception _ _) => apply oblivious_except; [|intros ?]
  | |- oblivious (let '(_, _) := ?p in _) => destruct p
  | |- oblivious (raise_http _ _) => apply oblivious_raise
  | |- _ => solve [auto with oblivious]
  end.

Lemma validate_oblivious request : oblivious (validate E request).
Proof. unfold validate. repeat oblivious_step. Qed.

Lemma generate_oblivious request timestamp : oblivious (generate E request timestamp).
Proof. unfold generate. repeat oblivious_step. Qed.

Lemma prelude_oblivious request : oblivious (prelude E request).
Proof.
  unfold prelude. repeat oblivious_step.
  - apply validate_oblivious.
  - apply generate_oblivious.
Qed.

End Prelude.

(** ** Synthesis and the deletions *)

#[local] Opaque u.
#[local] Arguments u : simpl never.

Lemma bind_inv {A B} (m : M A) (k : A → M B) w r w' :
  (m ≫= k) w = (r, w') →
  (∃ e, m w = (inl e, w') ∧ r = inl e) ∨
  (∃ a w1, m w = (inr a, w1) ∧ k a w1 = (r, w')).
Proof.
  unfold mbind, M_bind. destruct (m w) as [[e|a] w1]; intros H.
  - left. simplify_eq. eauto.
  - right. eauto.
Qed.

Lemma bind_inr {A B} (m : M A) (k : A → M B) w b w' :
  (m ≫= k) w = (inr b, w') →
  ∃ a w1, m w = (inr a, w1) ∧ k a w1 = (inr b, w').
Proof.
  intros H. apply bind_inv in H as [(e & _ & He) | H]; [done | exact H].
Qed.

Lemma bind_step {A B} (m : M A) (k : A → M B) w a w1 :
  m w = (inr a, w1) → (m ≫= k) w = k a w1.
Proof. intros H. unfold mbind, M_bind. by rewrite H. Qed.

Lemma bind_fail {A B} (m : M A) (k : A → M B) w e w1 :
  m w = (inl e, w1) → (m ≫= k) w = (inl e, w1).
Proof. intros H. unfold mbind, M_bind. by rewrite H. Qed.

Lemma printed_only_refl w : printed_only w w.
Proof. by repeat split. Qed.

Lemma printed_only_trans w1 w2 w3 :
  printed_only w1 w2 → printed_only w2 w3 → printed_only w1 w3.
Proof.
  intros (?&?&?&?&?) (?&?&?&?&?). repeat split; congruence.
Qed.

Lemma print_inv line w r w' : print line w = (r, w') → r = inr tt ∧ printed_only w w'.
Proof. unfold print. intros [= <- <-]. split; [done|]. by repeat split. Qed.

Section Synthesis.
Context (E : Env).

Lemma lookup_node_delete (d : gmap str node) (q p : str) :
  lookup_node E (delete (realpath E q) d) p
  = if decide (realpath E q = realpath E p) then None else lookup_node E d p.
Proof.
  unfold lookup_node. destruct (truthy p); [|by case_decide].
  by rewrite lookup_delete.
Qed.

Lemma exists_on_true (d : gmap str node) (p : str) :
  exists_on E d p = true ↔ is_Some (lookup_node E d p).
Proof. unfold exists_on. by rewrite bool_decide_eq_true. Qed.

Lemma exists_on_false (d : gmap str node) (p : str) :
  exists_on E d p = false ↔ lookup_node E d p = None.
Proof.
  unfold exists_on. rewrite bool_decide_eq_false. by rewrite eq_None_not_Some.
Qed.

Lemma call_Config_inv w r w' : call_Config E w = (r, w') → w' = w.
Proof. unfold call_Config. destruct (Config E); by intros [= _ <-]. Qed.

(** The six lines printed before the pipeline is called. *)
Lemma generate_prints_inv {A} (lines : list str) (k : M A) w r w' :
  (foldr (λ line rest, _ ← print line; rest) k lines) w = (r, w') →
  ∃ w1, printed_only w w1 ∧ k w1 = (r, w').
Proof.
  revert w. induction lines as [|line lines IH]; intros w H; simpl in H.
  - exists w. split; [apply printed_only_refl | done].
  - apply bind_inv in H as [(e & H & _) | (a & w1 & H & Hk)].
    + by apply print_inv in H as [? _].
    + apply print_inv in H as [_ Hw]. apply IH in Hk as (w2 & Hw2 & Hk).
      exists w2. split; [by eapply printed_only_trans | done].
Qed.

(** The pipeline call inside its [try]. *)
Lemma pipeline_call_inv a w r w' :
  except_Exception (call_run_tts_script E a)
    (λ e, raise_http 500 (u "Erro ao gerar TTS: " ++ exn_str e)) w = (r, w') →
  pipeline_calls w' = a :: pipeline_calls w ∧ locked w' = locked w ∧
  clock w' = clock w ∧
  match r with
  | inr (m, f) => run_tts_script E a (disk w) = (inr (m, f), disk w')
  | inl (RaiseHTTP h) => status_code h = 500
  | inl (RaiseExc _) => False
  end.
Proof.
  unfold except_Exception, call_run_tts_script, raise_http, raise.
  destruct (run_tts_script E a (disk w)) as [[e|[m f]] d]; intros [= <- <-]; done.
Qed.

(** After the pipeline has returned: the check of the output, its size and
    duration, and the encoding.  None of it changes the world. *)
Lemma generate_tail_inv request output_file message w r w' :
  (created ← os_path_exists E output_file;
   if negb created then
     raise_http 500 (u "Erro ao gerar áudio: arquivo não foi criado")
   else
   file_size ← os_path_getsize E output_file;
   duration_seconds ← try_get_duration E output_file;
   base64_audio ←
     (if TTSInferenceRequest.return_base64 request then
        audio_bytes ← read_bytes E output_file;
        mret (Some (b64encode audio_bytes))
      else mret None);
   mret {| g_message := message; g_output_file := output_file;
           g_size_kb := Z.of_N file_size # 1024;
           g_duration_seconds := duration_seconds;
           g_base64_audio := base64_audio |}) w = (r, w') →
  w' = w ∧
  ∀ g, r = inr g →
    g_message g = message ∧ g_output_file g = output_file ∧
    exists_on E (disk w) output_file = true ∧
    (if TTSInferenceRequest.return_base64 request
     then ∃ bs, lookup_node E (disk w) output_file = Some (File bs) ∧
                g_base64_audio g = Some (b64encode bs)
     else g_base64_audio g = None).
Proof.
  munfold.
  destruct (exists_on E (disk w) output_file) eqn:Hex; cbn [negb];
    [|by intros [= <- <-]].
  destruct (lookup_node E (disk w) output_file) as [[bs|n]|] eqn:Hnode;
    destruct (TTSInferenceRequest.return_base64 request);
    rewrite ?Hnode; intros [= <- <-]; (split; [done|]); intros g [= <-];
    cbn; eauto 10.
Qed.

(** What [generate] has done when it is over. *)
Lemma generate_inv request timestamp w r w' :
  generate E request timestamp w = (r, w') →
  locked w' = locked w ∧ clock w' = clock w ∧
  ((pipeline_calls w' = pipeline_calls w ∧ disk w' = disk w ∧ ∃ e, r = inl e) ∨
   (pipeline_calls w' = pipeline_args E request timestamp :: pipeline_calls w ∧
    ∀ g, r = inr g →
      run_tts_script E (pipeline_args E request timestamp) (disk w)
        = (inr (g_message g, g_output_file g), disk w') ∧
      exists_on E (disk w') (g_output_file g) = true ∧
      (if TTSInferenceRequest.return_base64 request
       then ∃ bs, lookup_node E (disk w') (g_output_file g) = Some (File bs) ∧
                  g_base64_audio g = Some (b64encode bs)
       else g_base64_audio g = None))).
Proof.
  unfold generate. intros H.
  apply bind_inv in H as [(e & H & ->) | (config & w1 & Hc & H)].
  { apply call_Config_inv in H as ->. repeat split; try done. left. eauto. }
  apply call_Config_inv in Hc as ->. cbv zeta in H.
  eapply (generate_prints_inv [_; _; _; _; _; _]) in H as (w1 & (Hd & Hl & _ & Hc & Hp) & H).
  apply bind_inv in H as [(e & H & ->) | ([m f] & w2 & Hrun & H)].
  { apply pipeline_call_inv in H as (Hp' & Hl' & Hc' & _).
    split; [congruence|]. split; [congruence|]. right.
    split; [congruence|]. done. }
  apply pipeline_call_inv in Hrun as (Hp' & Hl' & Hc' & Hrun).
  apply generate_tail_inv in H as [-> Hg].
  split; [congruence|]. split; [congruence|]. right.
  split; [congruence|]. intros g ->.
  destruct (Hg g eq_refl) as (-> & -> & Hex & Hb).
  rewrite <- Hd. done.
Qed.

(** The deletions never raise; what they leave behind. *)
Lemma respond_spec request timestamp g w :
  ∃ output_file w',
    respond E request timestamp g w
      = (inr (build_response E request g output_file), w') ∧
    locked w' = locked w ∧ pipeline_calls w' = pipeline_calls w ∧
    (TTSInferenceRequest.return_base64 request = false →
       output_file = Some (g_output_file g) ∧
       ∀ p, realpath E p ≠ realpath E (tts_output_path E timestamp) →
            lookup_node E (disk w') p = lookup_node E (disk w) p) ∧
    (TTSInferenceRequest.return_base64 request = true →
       ∀ bs, lookup_node E (disk w) (g_output_file g) = Some (File bs) →
             realpath E (g_output_file g) ∉ locked w →
             output_file = None ∧ lookup_node E (disk w') (g_output_file g) = None) ∧
    (exists_on E (disk w') (tts_output_path E timestamp) = false ∨
     realpath E (tts_output_path E timestamp) ∈ locked w ∨
     ∃ n, lookup_node E (disk w') (tts_output_path E timestamp) = Some (Dir n)).
Proof.
  set (t := tts_output_path E timestamp). set (f := g_output_file g).
  (* the second deletion, from any world *)
  assert (∀ w1 : World, ∃ w2,
    try_pass (present ← os_path_exists E t;
              if (present : bool) then os_remove E t else mret tt) w1 = (inr tt, w2) ∧
    locked w2 = locked w1 ∧ pipeline_calls w2 = pipeline_calls w1 ∧
    (∀ p, realpath E p ≠ realpath E t →
          lookup_node E (disk w2) p = lookup_node E (disk w1) p) ∧
    (∀ p, lookup_node E (disk w1) p = None → lookup_node E (disk w2) p = None) ∧
    (exists_on E (disk w2) t = false ∨ realpath E t ∈ locked w1 ∨
     ∃ n, lookup_node E (disk w2) t = Some (Dir n))) as Hsecond.
  { intros w1. munfold. unfold os_remove.
    destruct (exists_on E (disk w1) t) eqn:Hex.
    - apply exists_on_true in Hex as [nd Hnd]. rewrite Hnd.
      destruct nd as [bs|n].
      + case_bool_decide as Hl.
        * eexists. split; [done|]. repeat split; auto.
        * eexists. split; [done|]. cbn [disk locked pipeline_calls with_disk].
          repeat split.
          -- intros p Hp. rewrite lookup_node_delete. by case_decide.
          -- intros p Hp. rewrite lookup_node_delete. by case_decide.
          -- left. apply exists_on_false. rewrite lookup_node_delete.
             by case_decide.
      + eexists. split; [done|]. repeat split; eauto.
    - eexists. split; [done|]. repeat split; auto. }
  (* the first deletion *)
  assert (∃ output_file w1,
    (if TTSInferenceRequest.return_base64 request then
       try_or (_ ← os_remove E f; mret None) (Some f)
     else mret (Some f)) w = (inr output_file, w1) ∧
    locked w1 = locked w ∧ pipeline_calls w1 = pipeline_calls w ∧
    (TTSInferenceRequest.return_base64 request = false →
       output_file = Some f ∧ w1 = w) ∧
    (TTSInferenceRequest.return_base64 request = true →
       ∀ bs, lookup_node E (disk w) f = Some (File bs) →
             realpath E f ∉ locked w →
             output_file = None ∧ lookup_node E (disk w1) f = None))
    as (output_file & w1 & Hfirst & Hl1 & Hp1 & Hkeep & Hdel).
  { destruct (TTSInferenceRequest.return_base64 request) eqn:Hb64.
    - unfold try_or, mbind, M_bind, mret, M_ret, os_remove.
      destruct (lookup_node E (disk w) f) as [[bs|n]|] eqn:Hnode.
      + case_bool_decide as Hl.
        * eexists _, _. split; [done|]. repeat split; try done.
        * eexists _, _. split; [done|]. repeat split; try done.
          cbn [disk with_disk]. rewrite lookup_node_delete. by case_decide.
      + eexists _, _. split; [done|]. repeat split; done.
      + eexists _, _. split; [done|]. repeat split; done.
    - eexists _, _. split; [done|]. repeat split; done. }
  destruct (Hsecond w1) as (w2 & Hrun & Hl2 & Hp2 & Hsame & Hnone & Hgone).
  exists output_file, w2. split.
  { unfold respond. fold t f.
    rewrite (bind_step _ _ _ _ _ Hfirst), (bind_step _ _ _ _ _ Hrun). done. }
  split; [congruence|]. split; [congruence|]. split; [|split].
  - intros Hb. destruct (Hkeep Hb) as [-> ->]. done.
  - intros Hb bs Hbs Hnl. destruct (Hdel Hb bs Hbs Hnl) as [-> Hgone1]. auto.
  - rewrite <- Hl1. done.
Qed.

End Synthesis.

(** ** The handler as a whole *)

Section Handler.
Context (E : Env).

Lemma tts_inference_prelude request w :
  tts_inference E request w =
  match prelude E request w with
  | (inl (RaiseHTTP h), w1) => (inl (RaiseHTTP h), w1)
  | (inl (RaiseExc e), w1) =>
      (_ ← print (u "❌ Erro ao gerar TTS Inference: " ++ exn_str e);
       raise_http 500 (u "Erro ao gerar áudio: " ++ exn_str e)) w1
  | (inr (request', timestamp, g), w1) => respond E request' timestamp g w1
  end.
Proof.
  unfold tts_inference, tts_inference_try, prelude, except_Exception.
  destruct (validate E request w) as [[e|request'] w1] eqn:Hv.
  { rewrite (bind_fail (validate E request) _ _ _ _ Hv).
    rewrite (bind_fail (validate E request) _ _ _ _ Hv). by destruct e. }
  rewrite (bind_step (validate E request) _ _ _ _ Hv).
  rewrite (bind_step (validate E request) _ _ _ _ Hv).
  assert (now_strftime w1 = (inr (clock w1), w1)) as Hn by done.
  rewrite (bind_step now_strftime _ _ _ _ Hn).
  rewrite (bind_step now_strftime _ _ _ _ Hn).
  destruct (generate E request' (clock w1) w1) as [[e|g] w2] eqn:Hg.
  { rewrite (bind_fail (generate E request' (clock w1)) _ _ _ _ Hg).
    rewrite (bind_fail (generate E request' (clock w1)) _ _ _ _ Hg). by destruct e. }
  rewrite (bind_step (generate E request' (clock w1)) _ _ _ _ Hg).
  rewrite (bind_step (generate E request' (clock w1)) _ _ _ _ Hg).
  unfold mret, M_ret.
  destruct (respond_spec E request' (clock w1) g w2) as (o & w3 & -> & _). done.
Qed.

Lemma prelude_inv request w r w1 :
  prelude E request w = (r, w1) →
  locked w1 = locked w ∧
  ((pipeline_calls w1 = pipeline_calls w ∧ disk w1 = disk w ∧ ∃ e, r = inl e) ∨
   (∃ request', same_but_index_path request request' ∧
      pipeline_calls w1 = pipeline_args E request' (clock w) :: pipeline_calls w ∧
      ∀ request'' timestamp g, r = inr (request'', timestamp, g) →
        request'' = request' ∧ timestamp = clock w ∧
        run_tts_script E (pipeline_args E request' (clock w)) (disk w)
          = (inr (g_message g, g_output_file g), disk w1) ∧
        exists_on E (disk w1) (g_output_file g) = true ∧
        (if TTSInferenceRequest.return_base64 request
         then ∃ bs, lookup_node E (disk w1) (g_output_file g) = Some (File bs) ∧
                    g_base64_audio g = Some (b64encode bs)
         else g_base64_audio g = None))).
Proof.
  unfold prelude. intros H.
  apply bind_inv in H as [(e & H & ->) | (request' & w2 & Hv & H)].
  { apply validate_frame in H as (Hd & Hl & _ & _ & Hp). split; [done|]. left. eauto. }
  pose proof (validate_frame _ _ _ _ _ Hv) as (Hd & Hl & Hc & _ & Hp).
  apply validate_ok in Hv as [Hsame _].
  apply bind_inv in H as [(e & H & ->) | (timestamp & w3 & Hn & H)]; [done|].
  unfold now_strftime in Hn. injection Hn as <- <-.
  apply bind_inv in H as [(e & H & ->) | (g & w3 & Hg & H)].
  - apply generate_inv in H as (Hl' & _ & [(Hp' & Hd' & _) | (Hp' & _)]).
    + split; [congruence|]. left. repeat split; [congruence | congruence | eauto].
    + split; [congruence|]. right. exists request'. split; [done|].
      rewrite Hc, Hp in Hp'. done.
  - unfold mret, M_ret in H. injection H as <- <-.
    apply generate_inv in Hg as (Hl' & _ & [(_ & _ & e & He) | (Hp' & Hg)]); [done|].
    split; [congruence|]. right. exists request'. split; [done|].
    rewrite Hc, Hp in Hp'. split; [done|].
    intros request'' timestamp g' [= <- <- <-].
    destruct (Hg g eq_refl) as (Hrun & Hex & Hb).
    rewrite Hc, Hd in Hrun. repeat split; try done.
    destruct Hsame as [i ->]. done.
Qed.

(** The calls of the pipeline that one request makes: at most one, with the
    arguments built from the request. *)
Lemma tts_inference_calls request w r w' :
  tts_inference E request w = (r, w') →
  pipeline_calls w' = pipeline_calls w ∨
  ∃ request', same_but_index_path request request' ∧
    pipeline_calls w' = pipeline_args E request' (clock w) :: pipeline_calls w.
Proof.
  rewrite tts_inference_prelude.
  destruct (prelude E request w) as [[[h|e]|[[request' timestamp] g]] w1] eqn:Hpre;
    apply prelude_inv in Hpre as (_ & Hpre); intros H.
  - injection H as <- <-.
    destruct Hpre as [(Hp & _) | (request' & Hs & Hp & _)]; eauto.
  - apply bind_inv in H as [(e' & H & _) | (a & w2 & H & Hk)].
    + by apply print_inv in H as [? _].
    + apply print_inv in H as (_ & _ & _ & _ & _ & Hp').
      unfold raise_http, raise in Hk. injection Hk as <- <-.
      destruct Hpre as [(Hp & _) | (request' & Hs & Hp & _)]; [left | right; eexists];
        (split || idtac); try congruence; eauto; congruence.
  - destruct (respond_spec E request' timestamp g w1) as (o & w2 & Hr & _ & Hp' & _).
    rewrite Hr in H. injection H as <- <-.
    destruct Hpre as [(_ & _ & e & He) | (request'' & Hs & Hp & _)]; [done|].
    right. exists request''. split; [done | congruence].
Qed.

End Handler.

Section Results.
Context (E : Env).

Lemma exists_on_truthy (d : gmap str node) (p : str) :
  exists_on E d p = true → truthy p = true.
Proof.
  rewrite exists_on_true. unfold lookup_node.
  destruct (truthy p); [done|]. by intros [? ?].
Qed.

Lemma tts_inference_ok request w resp w' :
  tts_inference E request w = (inr resp, w') →
  ∃ request' g w1,
    prelude E request w = (inr (request', clock w, g), w1) ∧
    same_but_index_path request request' ∧
    respond E request' (clock w) g w1 = (inr resp, w').
Proof.
  rewrite tts_inference_prelude.
  destruct (prelude E request w) as [[[h|e]|[[request' timestamp] g]] w1] eqn:Hpre;
    intros H; [done | |].
  - apply bind_inv in H as [(e' & H & ?) | (a & w2 & H & Hk)]; done.
  - pose proof (prelude_inv _ _ _ _ _ Hpre) as (_ & [(_ & _ & e & ?) | (r' & Hs & _ & Hg)]);
      [done|].
    destruct (Hg _ _ _ eq_refl) as (-> & -> & _). eauto 10.
Qed.

(** C2 (as the code has it). A successful call made one call of the
    pipeline, which returned the path [f] of the converted file.  With
    [return_base64] the response carries the payload and no [output_path];
    when the removal of [f] is not refused it carries no [output_file]
    either, and [f] is gone from the disk.  Without [return_base64] the
    response carries no payload, [output_path] is [f] and [output_file] its
    base name, and [f] is on the disk after the call unless it is the
    intermediate file itself. *)
Theorem result_populated request w resp w' :
  tts_inference E request w = (inr resp, w') →
  ∃ a msg f d,
    pipeline_calls w' = a :: pipeline_calls w ∧
    run_tts_script E a (disk w) = (inr (msg, f), d) ∧
    if TTSInferenceRequest.return_base64 request then
      is_Some (TTSInferenceResponse.base64 resp) ∧
      TTSInferenceResponse.output_path resp = None ∧
      (realpath E f ∉ locked w →
       TTSInferenceResponse.output_file resp = None ∧
       exists_on E (disk w') f = false)
    else
      TTSInferenceResponse.base64 resp = None ∧
      TTSInferenceResponse.output_path resp = Some f ∧
      TTSInferenceResponse.output_file resp = Some (os_path_basename f) ∧
      (realpath E f ≠ realpath E (TTSArgs.output_tts_path a) →
       exists_on E (disk w') f = true).
Proof.
  intros H. apply tts_inference_ok in H as (request' & g & w1 & Hpre & Hs & Hr).
  pose proof (prelude_inv _ _ _ _ _ Hpre) as (Hl & [(_ & _ & e & ?) | (r' & _ & Hp & Hg)]);
    [done|].
  destruct (Hg _ _ _ eq_refl) as (<- & _ & Hrun & Hex & Hb).
  destruct (respond_spec E request' (clock w) g w1)
    as (o & w2 & Hr' & Hl' & Hp' & Hkeep & Hdel & _).
  rewrite Hr' in Hr. injection Hr as <- <-.
  assert (TTSInferenceRequest.return_base64 request'
          = TTSInferenceRequest.return_base64 request) as Hb64
    by (by destruct Hs as [i ->]).
  exists (pipeline_args E request' (clock w)), (g_message g), (g_output_file g), (disk w1).
  split; [congruence|]. split; [done|].
  destruct (TTSInferenceRequest.return_base64 request) eqn:Hret.
  - destruct Hb as (bs & Hbs & Hpay).
    unfold build_response; cbn [TTSInferenceResponse.base64
      TTSInferenceResponse.output_path TTSInferenceResponse.output_file].
    rewrite Hb64, Hpay. split; [done|]. split; [by rewrite andb_false_r|].
    intros Hnl. rewrite <- Hl in Hnl.
    destruct (Hdel Hb64 bs Hbs Hnl) as [-> Hgone].
    split; [done|]. by apply exists_on_false.
  - destruct (Hkeep Hb64) as [-> Hsame].
    apply exists_on_truthy in Hex as Htr.
    unfold build_response; cbn [TTSInferenceResponse.base64
      TTSInferenceResponse.output_path TTSInferenceResponse.output_file otruthy].
    rewrite Hb64, Hb, Htr. cbn [andb negb fmap option_fmap option_map].
    repeat split; try done.
    intros Hne. apply exists_on_true. rewrite Hsame by done. by apply exists_on_true.
Qed.

Lemma build_response_same request g o1 o2 :
  (TTSInferenceRequest.return_base64 request = false → o1 = o2) →
  same_but_output_file (build_response E request g o1) (build_response E request g o2) ∧
  (TTSInferenceRequest.return_base64 request = false →
   build_response E request g o1 = build_response E request g o2).
Proof.
  intros Ho. split; [|by intros ->%Ho].
  unfold same_but_output_file, build_response; cbn.
  destruct (TTSInferenceRequest.return_base64 request).
  - rewrite !andb_false_r. by repeat split.
  - rewrite Ho by done. by repeat split.
Qed.

(** C7 (as the code has it). When a call succeeds, the intermediate file is
    gone afterwards unless its removal was refused or it is a directory; and
    which removals are refused surfaces nowhere: under any other set of
    locked names the call succeeds too, with the same response apart from
    [output_file], and with the very same response when [return_base64] is
    off. *)
Theorem cleanup_swallowed request w resp w' :
  tts_inference E request w = (inr resp, w') →
  (exists_on E (disk w') (tts_output_path E (clock w)) = false ∨
   realpath E (tts_output_path E (clock w)) ∈ locked w ∨
   ∃ n, lookup_node E (disk w') (tts_output_path E (clock w)) = Some (Dir n)) ∧
  ∀ l, ∃ resp2 w2,
    tts_inference E request (with_locked w l) = (inr resp2, w2) ∧
    same_but_output_file resp resp2 ∧
    (TTSInferenceRequest.return_base64 request = false → resp2 = resp).
Proof.
  intros H. apply tts_inference_ok in H as (request' & g & w1 & Hpre & Hs & Hr).
  pose proof (prelude_inv _ _ _ _ _ Hpre) as (Hl & _).
  destruct (respond_spec E request' (clock w) g w1)
    as (o' & w2 & Hr' & _ & _ & Hkeep & _ & Hgone).
  rewrite Hr' in Hr. injection Hr as <- <-.
  assert (TTSInferenceRequest.return_base64 request'
          = TTSInferenceRequest.return_base64 request) as Hb64
    by (by destruct Hs as [i ->]).
  split; [by rewrite <- Hl|].
  intros l. rewrite tts_inference_prelude, prelude_oblivious, Hpre. cbn [fst snd].
  destruct (respond_spec E request' (clock w) g (with_locked w1 l))
    as (o2 & w3 & Hr2 & _ & _ & Hkeep2 & _).
  rewrite Hr2. eexists _, _. split; [done|].
  destruct (build_response_same request' g o' o2) as [Hsame Heq].
  { intros Hb. destruct (Hkeep Hb) as [-> _], (Hkeep2 Hb) as [-> _]. done. }
  split; [done|]. rewrite <- Hb64. intros Hb. by rewrite Heq.
Qed.


End Results.

(** ** The simplified request *)

Section Simple.
Context (E : Env).

Lemma lstrip_length (s : str) : (length (lstrip s) <= length s)%nat.
Proof.
  destruct (lstrip_suffix s) as [k Hk]. rewrite Hk at 2. rewrite length_app. lia.
Qed.

Lemma strip_length (s : str) : (length (strip s) <= length s)%nat.
Proof.
  unfold strip, rstrip. rewrite length_rev.
  pose proof (lstrip_length (rev (lstrip s))) as H1. rewrite length_rev in H1.
  pose proof (lstrip_length s). lia.
Qed.

Lemma replace1_length (a b : N) (s : str) : length (replace1 a [b] s) = length s.
Proof.
  unfold replace1. induction s as [|c r IH]; simpl; [done|].
  rewrite length_app, IH. by destruct (c =? a).
Qed.

Lemma replace2_length (a b c : N) (s : str) :
  (length (replace2 a b [c] s) <= length s)%nat.
Proof.
  remember (length s) as n eqn:Hn. revert s Hn.
  induction (lt_wf n) as [n _ IH]. intros s ->.
  destruct s as [|x [|y r]]; [done | done |].
  rewrite replace2_cons_cons.
  destruct ((x =? a) && (y =? b)).
  - cbn [app length]. pose proof (IH (length r) ltac:(simpl; lia) r eq_refl). lia.
  - cbn [length]. pose proof (IH (length (y :: r)) ltac:(simpl; lia) (y :: r) eq_refl).
    simpl in *. lia.
Qed.

Lemma clean_text_length (text : str) : (length (clean_text text) <= length text)%nat.
Proof.
  unfold clean_text. etrans; [apply strip_length|].
  unfold CR, LF. rewrite replace1_length. etrans; [apply replace2_length|].
  unfold re_sub_class. apply filter_length_le.
Qed.

Lemma upper_ascii (T : CaseTables) (s : str) :
  Forall (λ c, c < 128) s → upper T s = map ascii_upper s.
Proof.
  unfold upper. induction 1 as [|c r Hc Hr IH]; simpl; [done|].
  rewrite IH. by apply N.ltb_lt in Hc as ->.
Qed.


End Simple.

(** ** Downloads *)

Section Download.
Context (E : Env).

Lemma split_on_no_sep (sep : N) (s : str) : sep ∉ s → split_on sep s = [s].
Proof.
  induction s as [|c r IH]; intros Hs; simpl; [done|].
  apply not_elem_of_cons in Hs as [Hc Hr].
  destruct (N.eqb_spec c sep); [congruence|]. by rewrite IH.
Qed.



Lemma fold_left_resolve_length (qs : list str) (stack : list str) :
  (length (fold_left resolve_step qs stack) <= length stack + length qs)%nat.
Proof.
  revert stack. induction qs as [|q qs IH]; intros stack; simpl; [lia|].
  etrans; [apply IH|]. unfold resolve_step. destruct (str_eqb q (u "..")).
  - destruct stack as [|x stack] using rev_ind; [simpl; lia|].
    rewrite removelast_last, length_app. simpl. lia.
  - rewrite length_app. simpl. lia.
Qed.

Lemma truediv_relative (p : Path) (key : str) (ps : list str) :
  mkPath key = {| root := []; parts := ps |} →
  truediv p key = {| root := root p; parts := parts p ++ ps |}.
Proof. intros H. unfold truediv. by rewrite H. Qed.

Lemma OUTPUT_DIR_parts :
  OUTPUT_DIR E
  = {| root := root (mkPath (now_dir E));
       parts := (parts (mkPath (now_dir E)) ++ [u "assets"]) ++ [u "audios"] |}.
Proof.
  unfold OUTPUT_DIR.
  rewrite (truediv_relative _ (u "assets") [u "assets"]) by (vm_compute; reflexivity).
  by rewrite (truediv_relative _ (u "audios") [u "audios"]) by (vm_compute; reflexivity).
Qed.


End Download.

#[local] Transparent u.

(** ** The handlers at work on the sample installation *)

Lemma tts_inference_model_not_found_witness :
  exists_on demo (disk sample_world)
    (TTSInferenceRequest.model_path custom_missing_request) = false ∧
  ∃ d, tts_inference demo custom_missing_request sample_world
       = (inl (RaiseHTTP {| status_code := 404; detail := d |}), sample_world) ∧
       str_in (TTSInferenceRequest.model_path custom_missing_request) d = true.
Proof.
  split; [vm_compute; reflexivity|].
  apply (tts_inference_model_not_found demo custom_missing_request sample_world).
  vm_compute; reflexivity.
Defined.

(** C2, as stated, does not hold.  With [return_base64] and the removal of
    the converted file refused, the response carries the payload and the
    file name, and the file is still there; without [return_base64], a
    request that names its output like the intermediate file gets a path to
    a file that the cleanup has removed. *)
Lemma file_reference_not_exclusive :
  (∃ resp,
     fst (tts_inference demo base64_request locked_world) = inr resp ∧
     TTSInferenceRequest.return_base64 base64_request = true ∧
     TTSInferenceResponse.base64 resp = Some (u "UklGRg==") ∧
     TTSInferenceResponse.output_file resp
       = Some (u "tts_rvc_output_20240101_120000.wav") ∧
     exists_on demo (disk (snd (tts_inference demo base64_request locked_world)))
       sample_rvc_path = true) ∧
  (∃ resp,
     fst (tts_inference demo clashing_request sample_world) = inr resp ∧
     TTSInferenceRequest.return_base64 clashing_request = false ∧
     TTSInferenceResponse.output_path resp = Some sample_tts_path ∧
     exists_on demo (disk (snd (tts_inference demo clashing_request sample_world)))
       sample_tts_path = false).
Proof.
  split; eexists; (split; [vm_compute; reflexivity|]);
    repeat split; vm_compute; reflexivity.
Qed.

Lemma result_populated_witness :
  ∃ resp,
    tts_inference demo sample_request sample_world
    = (inr resp, snd (tts_inference demo sample_request sample_world)) ∧
    ∃ a msg f d,
      pipeline_calls (snd (tts_inference demo sample_request sample_world))
      = a :: pipeline_calls sample_world ∧
      run_tts_script demo a (disk sample_world) = (inr (msg, f), d) ∧
      if TTSInferenceRequest.return_base64 sample_request then
        is_Some (TTSInferenceResponse.base64 resp) ∧
        TTSInferenceResponse.output_path resp = None ∧
        (realpath demo f ∉ locked sample_world →
         TTSInferenceResponse.output_file resp = None ∧
         exists_on demo (disk (snd (tts_inference demo sample_request sample_world))) f
         = false)
      else
        TTSInferenceResponse.base64 resp = None ∧
        TTSInferenceResponse.output_path resp = Some f ∧
        TTSInferenceResponse.output_file resp = Some (os_path_basename f) ∧
        (realpath demo f ≠ realpath demo (TTSArgs.output_tts_path a) →
         exists_on demo (disk (snd (tts_inference demo sample_request sample_world))) f
         = true).
Proof.
  eexists. split; [vm_compute; reflexivity|].
  apply (result_populated demo sample_request sample_world).
  vm_compute; reflexivity.
Defined.

(** C3, as stated, does not hold.  The custom embedder without its path is
    answered with 404, not 400, when the model file is missing. *)
Lemma custom_embedder_after_model_check :
  TTSInferenceRequest.embedder_model custom_missing_request = u "custom" ∧
  TTSInferenceRequest.embedder_model_custom custom_missing_request = None ∧
  ∃ h, fst (tts_inference demo custom_missing_request sample_world)
       = inl (RaiseHTTP h) ∧
       status_code h = 404 ∧ status_code h ≠ 400.
Proof.
  split; [vm_compute; reflexivity|]. split; [reflexivity|].
  eexists. split; [vm_compute; reflexivity|]. split; [reflexivity | discriminate].
Qed.

(** C4: what the code does.  The full endpoint hands the text to the
    pipeline as it came, control character included, where the simplified
    endpoint hands over the sanitized text. *)
Theorem full_endpoint_text_unsanitized :
  map TTSArgs.tts_text
    (pipeline_calls (snd (tts_inference demo bell_request sample_world)))
  = [bell_text] ∧
  clean_text bell_text = u "Hi" ∧
  bell_text ≠ clean_text bell_text ∧
  map TTSArgs.tts_text
    (pipeline_calls (snd (tts_generate_simple demo bell_simple sample_world)))
  = [u "Hi"].
Proof.
  repeat split; try (vm_compute; reflexivity). vm_compute. discriminate.
Qed.


(** C7, as stated, does not hold.  When the pipeline raises after it wrote
    the intermediate file, the call ends with status 500 and the file stays,
    though nothing refuses its removal; and with [return_base64], a refused
    removal of the converted file shows in the response, which then names
    the file. *)
Lemma cleanup_skipped_or_visible :
  (∃ h, fst (tts_inference demo_failing sample_request sample_world)
        = inl (RaiseHTTP h) ∧
        status_code h = 500 ∧
        locked sample_world = ∅ ∧
        exists_on demo_failing
          (disk (snd (tts_inference demo_failing sample_request sample_world)))
          (tts_output_path demo_failing (clock sample_world)) = true) ∧
  (∃ r1 r2,
     fst (tts_inference demo base64_request sample_world) = inr r1 ∧
     fst (tts_inference demo base64_request locked_world) = inr r2 ∧
     TTSInferenceResponse.output_file r1 = None ∧
     TTSInferenceResponse.output_file r2
       = Some (u "tts_rvc_output_20240101_120000.wav") ∧
     r1 ≠ r2).
Proof.
  split.
  - eexists. split; [vm_compute; reflexivity|]. repeat split; vm_compute; reflexivity.
  - eexists _, _. split; [vm_compute; reflexivity|]. split; [vm_compute; reflexivity|].
    split; [reflexivity|]. split; [reflexivity | discriminate].
Qed.

Lemma cleanup_swallowed_witness :
  ∃ resp,
    tts_inference demo base64_request sample_world
    = (inr resp, snd (tts_inference demo base64_request sample_world)) ∧
    (exists_on demo (disk (snd (tts_inference demo base64_request sample_world)))
       (tts_output_path demo (clock sample_world)) = false ∨
     realpath demo (tts_output_path demo (clock sample_world)) ∈ locked sample_world ∨
     ∃ n, lookup_node demo (disk (snd (tts_inference demo base64_request sample_world)))
            (tts_output_path demo (clock sample_world)) = Some (Dir n)) ∧
    ∀ l, ∃ resp2 w2,
      tts_inference demo base64_request (with_locked sample_world l) = (inr resp2, w2) ∧
      same_but_output_file resp resp2 ∧
      (TTSInferenceRequest.return_base64 base64_request = false → resp2 = resp).
Proof.
  eexists. split; [vm_compute; reflexivity|].
  apply (cleanup_swallowed demo base64_request sample_world).
  vm_compute; reflexivity.
Defined.


(** C9: what the code does.  The filter is looked for in [ShortName], not
    in the locale: among the sample voices, [language = "en"] also returns the
    French voice Henri, whose locale [fr-FR] does not contain it. *)
Theorem list_voices_filters_on_short_name :
  ∃ resp,
    fst (list_voices demo (Some (u "en")) sample_world) = inr resp ∧
    map (λ v, (VoiceInfo.short_name v, VoiceInfo.locale v))
      (VoicesListResponse.voices resp)
    = [(u "en-US-GuyNeural", u "en-US"); (u "fr-FR-HenriNeural", u "fr-FR")] ∧
    str_in (lower' demo (u "en")) (lower' demo (u "fr-FR")) = false.
Proof.
  eexists. split; [vm_compute; reflexivity|]. split; vm_compute; reflexivity.
Qed.


(** * Further properties *)

#[local] Opaque u.
#[local] Arguments u : simpl never.

(** ** The text sanitizer *)

Lemma re_sub_class_id (cls : N → bool) (s : str) :
  Forall (λ c, cls c = false) s → re_sub_class cls s = s.
Proof.
  unfold re_sub_class. induction 1 as [|c r Hc Hr IH]; simpl; [done|].
  by rewrite Hc, IH.
Qed.

Lemma replace2_id (a b : N) (new s : str) : a ∉ s → replace2 a b new s = s.
Proof.
  induction s as [|c r IH]; intros Hs; [done|].
  apply not_elem_of_cons in Hs as [Hc Hr].
  destruct r as [|d r']; [done|].
  rewrite replace2_cons_cons.
  destruct (N.eqb_spec c a); [congruence|]. cbn [andb]. by rewrite IH.
Qed.

Lemma replace1_id (a : N) (new s : str) : a ∉ s → replace1 a new s = s.
Proof.
  unfold replace1. induction s as [|c r IH]; intros Hs; simpl; [done|].
  apply not_elem_of_cons in Hs as [Hc Hr].
  destruct (N.eqb_spec c a); [congruence|]. by rewrite IH.
Qed.

Lemma lstrip_id (s : str) :
  (∀ c, head s = Some c → isspace c = false) → lstrip s = s.
Proof.
  destruct s as [|c r]; [done|]. intros H. simpl. by rewrite (H c).
Qed.

Lemma head_rev (s : str) : head (rev s) = last s.
Proof. rewrite <- (rev_involutive s) at 2. by rewrite last_rev. Qed.

Lemma strip_id (s : str) :
  (∀ c, head s = Some c → isspace c = false) →
  (∀ c, last s = Some c → isspace c = false) →
  strip s = s.
Proof.
  intros Hh Hl. unfold strip, rstrip. rewrite (lstrip_id s Hh).
  rewrite lstrip_id; [apply rev_involutive|].
  intros c. rewrite head_rev. apply Hl.
Qed.

(** Code points that [clean_text] lets through as they are. *)
Lemma clean_text_kept (text : str) :
  Forall (λ c, control_class c = false ∧ c ≠ CR) (clean_text text).
Proof.
  unfold clean_text. apply Forall_forall. intros c Hc.
  apply strip_sublist in Hc. revert c Hc. apply Forall_forall.
  apply replace1_Forall.
  { constructor; [|done]. split; [vm_compute; reflexivity | by vm_compute]. }
  apply replace2_Forall.
  { constructor; [|done]. intros _. split; [vm_compute; reflexivity | by vm_compute]. }
  eapply Forall_impl; [apply re_sub_class_Forall|].
  intros c Hc Hne. split; [done|]. done.
Qed.

(** X1. A text without control characters and carriage returns that neither
    starts nor ends with whitespace comes out of [clean_text] unchanged. *)
Theorem clean_text_fixed_point (text : str) :
  (∀ c, c ∈ text → control_class c = false ∧ c ≠ CR) →
  (∀ c, head text = Some c → isspace c = false) →
  (∀ c, last text = Some c → isspace c = false) →
  clean_text text = text.
Proof.
  intros Hc Hh Hl. unfold clean_text.
  rewrite re_sub_class_id by (apply Forall_forall; intros c ?; by apply Hc).
  assert (CR ∉ text) as Hcr by (intros H; by destruct (Hc CR H)).
  rewrite replace2_id by done. rewrite replace1_id by done.
  by apply strip_id.
Qed.

(** X2. Sanitizing twice is sanitizing once. *)
Theorem clean_text_idempotent (text : str) :
  clean_text (clean_text text) = clean_text text.
Proof.
  pose proof (clean_text_kept text) as Hk. rewrite Forall_forall in Hk.
  set (t := clean_text text) in *. unfold clean_text at 1.
  rewrite re_sub_class_id by (apply Forall_forall; intros c ?; by apply Hk).
  assert (CR ∉ t) as Hcr by (intros H; by destruct (Hk CR H)).
  rewrite replace2_id by done. rewrite replace1_id by done.
  apply strip_id; intros c; [apply strip_head | apply strip_last].
Qed.

Lemma replace2_elem (a b n : N) (s : str) (c : N) :
  c ∈ replace2 a b [n] s → c ∈ s ∨ (c = n ∧ a ∈ s).
Proof.
  remember (length s) as k eqn:Hk. revert s Hk.
  induction (lt_wf k) as [k _ IH]. intros s -> Hc.
  destruct s as [|x [|y r]]; [by apply elem_of_nil in Hc | by left |].
  rewrite replace2_cons_cons in Hc.
  destruct ((x =? a) && (y =? b)) eqn:Hxy.
  - apply andb_prop in Hxy as [Hx Hy]. cbn [app] in Hc.
    apply N.eqb_eq in Hx as ->.
    apply elem_of_cons in Hc as [-> | Hc].
    + right. split; [done | apply list_elem_of_here].
    + destruct (IH (length r) ltac:(simpl; lia) r eq_refl Hc) as [? | [? ?]].
      * left. by do 2 apply list_elem_of_further.
      * right. split; [done|]. by do 2 apply list_elem_of_further.
  - apply elem_of_cons in Hc as [-> | Hc].
    + left. apply list_elem_of_here.
    + destruct (IH (length (y :: r)) ltac:(simpl; lia) (y :: r) eq_refl Hc)
        as [? | [? ?]].
      * left. by apply list_elem_of_further.
      * right. split; [done|]. by apply list_elem_of_further.
Qed.

Lemma replace1_elem (a n : N) (s : str) (c : N) :
  c ∈ replace1 a [n] s → (c ∈ s ∧ c ≠ a) ∨ (c = n ∧ a ∈ s).
Proof.
  unfold replace1. induction s as [|x r IH]; simpl; intros Hc;
    [by apply elem_of_nil in Hc|].
  apply elem_of_app in Hc as [Hc | Hc].
  - destruct (N.eqb_spec x a) as [-> | Hne].
    + apply list_elem_of_singleton in Hc as ->. right.
      split; [done | apply list_elem_of_here].
    + apply list_elem_of_singleton in Hc as ->. left.
      split; [apply list_elem_of_here | done].
  - destruct (IH Hc) as [[? ?] | [? ?]].
    + left. split; [by apply list_elem_of_further | done].
    + right. split; [done | by apply list_elem_of_further].
Qed.

(** X3. [clean_text] makes a text no longer and invents no character:
    every code point of the result occurs in the text, but for the line
    feed that stands for a carriage return of the text. *)
Theorem clean_text_no_new_characters (text : str) :
  (length (clean_text text) <= length text)%nat ∧
  ∀ c, c ∈ clean_text text → c ∈ text ∨ (c = LF ∧ CR ∈ text).
Proof.
  split; [apply clean_text_length|].
  intros c Hc. unfold clean_text in Hc. apply strip_sublist in Hc.
  assert (∀ x, x ∈ re_sub_class control_class text → x ∈ text) as Hsub.
  { intros x Hx. unfold re_sub_class in Hx.
    apply list_elem_of_In, filter_In in Hx as [Hx _]. by apply list_elem_of_In. }
  apply replace1_elem in Hc as [[Hc _] | [-> Hcr]].
  - apply replace2_elem in Hc as [Hc | [-> Hcr]]; [left; by apply Hsub|].
    right. split; [done | by apply Hsub].
  - right. split; [done|].
    apply replace2_elem in Hcr as [Hcr | [Heq _]]; [by apply Hsub|].
    by vm_compute in Heq.
Qed.

(** ** The voice catalog *)

Lemma keeps_catalog_ret {A} (a : A) : keeps_catalog (mret a).
Proof. intros w r w' vs [= _ <-]. done. Qed.

Lemma keeps_catalog_raise {A} (e : Raised) : keeps_catalog (raise e : M A).
Proof. intros w r w' vs [= _ <-]. done. Qed.

Lemma keeps_catalog_bind {A B} (m : M A) (k : A → M B) :
  keeps_catalog m → (∀ a, keeps_catalog (k a)) → keeps_catalog (m ≫= k).
Proof.
  intros Hm Hk w r w' vs H Hvs.
  apply bind_inv in H as [(e & H & _) | (a & w1 & H & Hk')].
  - by eapply Hm.
  - eapply Hk; [done|]. by eapply Hm.
Qed.

Lemma keeps_catalog_except {A} (m : M A) (h : Exn → M A) :
  keeps_catalog m → (∀ e, keeps_catalog (h e)) → keeps_catalog (except_Exception m h).
Proof.
  intros Hm Hh w r w' vs H Hvs. unfold except_Exception in H.
  destruct (m w) as [[[e|e]|a] w1] eqn:Hmw.
  - injection H as <- <-. by eapply Hm.
  - eapply Hh; [done|]. by eapply Hm.
  - injection H as <- <-. by eapply Hm.
Qed.

Lemma keeps_catalog_try_or {A} (m : M A) (a : A) :
  keeps_catalog m → keeps_catalog (try_or m a).
Proof.
  intros Hm w r w' vs H Hvs. unfold try_or in H.
  destruct (m w) as [[e|x] w1] eqn:Hmw; injection H as <- <-; by eapply Hm.
Qed.

Lemma keeps_catalog_try_pass (m : M unit) :
  keeps_catalog m → keeps_catalog (try_pass m).
Proof.
  intros Hm w r w' vs H Hvs. unfold try_pass in H.
  destruct (m w) as [[e|x] w1] eqn:Hmw; injection H as <- <-; by eapply Hm.
Qed.

Lemma keeps_catalog_if {A} (b : bool) (m1 m2 : M A) :
  keeps_catalog m1 → keeps_catalog m2 → keeps_catalog (if b then m1 else m2).
Proof. by destruct b. Qed.

Section Catalog.
Context (E : Env).

Lemma os_path_exists_keeps p : keeps_catalog (os_path_exists E p).
Proof. intros w r w' vs [= _ <-]. done. Qed.

Lemma call_keeps {A} (f : gmap str node → Exn + A) : keeps_catalog (call f).
Proof. intros w r w' vs. unfold call. by destruct (f (disk w)); intros [= _ <-]. Qed.

Lemma load_tts_voices_keeps : keeps_catalog (load_tts_voices E).
Proof.
  intros w r w' vs H Hvs. unfold load_tts_voices in H. rewrite Hvs in H.
  by injection H as _ <-.
Qed.

Lemma print_keeps line : keeps_catalog (print line).
Proof. intros w r w' vs [= _ <-]. done. Qed.

Lemma call_Config_keeps : keeps_catalog (call_Config E).
Proof. intros w r w' vs. unfold call_Config. by destruct (Config E); intros [= _ <-]. Qed.

Lemma call_run_tts_script_keeps a : keeps_catalog (call_run_tts_script E a).
Proof.
  intros w r w' vs. unfold call_run_tts_script.
  by destruct (run_tts_script E a (disk w)) as [[e|x] d]; intros [= _ <-].
Qed.

Lemma os_path_getsize_keeps p : keeps_catalog (os_path_getsize E p).
Proof.
  intros w r w' vs. unfold os_path_getsize.
  by destruct (lookup_node E (disk w) p) as [[?|?]|]; intros [= _ <-].
Qed.

Lemma read_bytes_keeps p : keeps_catalog (read_bytes E p).
Proof.
  intros w r w' vs. unfold read_bytes.
  by destruct (lookup_node E (disk w) p) as [[?|?]|]; intros [= _ <-].
Qed.

Lemma os_remove_keeps p : keeps_catalog (os_remove E p).
Proof.
  intros w r w' vs. unfold os_remove.
  destruct (lookup_node E (disk w) p) as [[?|?]|]; try case_bool_decide;
    by intros [= _ <-].
Qed.

Lemma try_get_duration_keeps p : keeps_catalog (try_get_duration E p).
Proof. intros w r w' vs [= _ <-]. done. Qed.

Lemma now_strftime_keeps : keeps_catalog now_strftime.
Proof. intros w r w' vs [= _ <-]. done. Qed.

Create HintDb keeps discriminated.
#[local] Hint Resolve keeps_catalog_ret keeps_catalog_raise
  os_path_exists_keeps call_keeps load_tts_voices_keeps print_keeps
  call_Config_keeps call_run_tts_script_keeps os_path_getsize_keeps
  read_bytes_keeps os_remove_keeps try_get_duration_keeps
  now_strftime_keeps : keeps.

Ltac keeps_step :=
  match goal with
  | |- keeps_catalog (_ ≫= _) => apply keeps_catalog_bind; [|intros ?]
  | |- keeps_catalog (if _ then _ else _) => apply keeps_catalog_if
  | |- keeps_catalog (except_Exception _ _) => apply keeps_catalog_except; [|intros ?]
  | |- keeps_catalog (try_or _ _) => apply keeps_catalog_try_or
  | |- keeps_catalog (try_pass _) => apply keeps_catalog_try_pass
  | |- keeps_catalog (let '(_, _) := ?p in _) => destruct p
  | |- keeps_catalog (raise_http _ _) => apply keeps_catalog_raise
  | |- _ => solve [auto with keeps]
  end.

Lemma tts_inference_keeps request : keeps_catalog (tts_inference E request).
Proof.
  unfold tts_inference, tts_inference_try, validate, generate, respond.
  repeat keeps_step.
Qed.

Lemma list_voices_keeps language : keeps_catalog (list_voices E language).
Proof. unfold list_voices. repeat keeps_step. Qed.

Lemma tts_generate_simple_keeps request : keeps_catalog (tts_generate_simple E request).
Proof.
  unfold tts_generate_simple. destruct (full_request E request).
  - apply keeps_catalog_raise.
  - apply tts_inference_keeps.
Qed.

(** X4. Once the catalog is loaded it stays: [load_tts_voices] returns it
    without asking the loader, and no request to [/tts/inference],
    [/tts/generate] or [/voices] replaces or drops it. *)
Theorem catalog_loaded_once (w : World) (vs : list Voice) :
  _voices_data w = Some vs →
  load_tts_voices E w = (inr vs, w) ∧
  (∀ request r w', tts_inference E request w = (r, w') → _voices_data w' = Some vs) ∧
  (∀ request r w', tts_generate_simple E request w = (r, w') →
     _voices_data w' = Some vs) ∧
  (∀ language r w', list_voices E language w = (r, w') → _voices_data w' = Some vs).
Proof.
  intros Hvs. split; [|split; [|split]].
  - unfold load_tts_voices. by rewrite Hvs.
  - intros request r w' H. by eapply tts_inference_keeps.
  - intros request r w' H. by eapply tts_generate_simple_keeps.
  - intros language r w' H. by eapply list_voices_keeps.
Qed.

Lemma load_tts_voices_inv w r w' :
  load_tts_voices E w = (r, w') →
  disk w' = disk w ∧ locked w' = locked w ∧ clock w' = clock w ∧
  stdout w' = stdout w ∧ pipeline_calls w' = pipeline_calls w ∧
  match catalog E w with
  | inl e => r = inl (RaiseExc e) ∧ w' = w
  | inr vs => r = inr vs ∧ _voices_data w' = Some vs
  end.
Proof.
  unfold load_tts_voices, catalog.
  destruct (_voices_data w) as [vs|] eqn:Hvs; [by intros [= <- <-]|].
  destruct (load_voices_data E (disk w)); by intros [= <- <-].
Qed.


End Catalog.

(** ** [GET /voices] *)

Lemma filter_sublist {A} (f : A → bool) (l : list A) : List.filter f l `sublist_of` l.
Proof.
  induction l as [|x l IH]; simpl; [done|].
  destruct (f x); [by apply sublist_skip | by apply sublist_cons].
Qed.

Lemma split_first_prefix (sep : N) (s : str) : split_first sep s `prefix_of` s.
Proof.
  induction s as [|c r IH]; simpl; [done|].
  destruct (c =? sep); [apply prefix_nil | by apply prefix_cons].
Qed.

Lemma split_first_no_sep (sep : N) (s : str) : sep ∉ split_first sep s.
Proof.
  induction s as [|c r IH]; simpl; [apply not_elem_of_nil|].
  destruct (N.eqb_spec c sep); [apply not_elem_of_nil|].
  apply not_elem_of_cons. split; [congruence | done].
Qed.

Lemma split_first_id (sep : N) (s : str) : sep ∉ s → split_first sep s = s.
Proof.
  induction s as [|c r IH]; intros Hs; simpl; [done|].
  apply not_elem_of_cons in Hs as [Hc Hr].
  destruct (N.eqb_spec c sep); [congruence|]. by rewrite IH.
Qed.

Lemma split_first_cut (sep : N) (s : str) :
  sep ∈ s → ∃ rest, s = split_first sep s ++ sep :: rest.
Proof.
  induction s as [|c r IH]; intros Hs; [by apply elem_of_nil in Hs|]. simpl.
  destruct (N.eqb_spec c sep) as [-> | Hne]; [by exists r|].
  apply elem_of_cons in Hs as [? | Hs]; [congruence|].
  destruct (IH Hs) as [rest Hrest]. exists rest. simpl. by rewrite <- Hrest.
Qed.

Lemma char_in_spec (c : N) (s : str) : char_in c s = true ↔ c ∈ s.
Proof.
  unfold char_in. rewrite existsb_exists. split.
  - intros (x & Hx & ->%N.eqb_eq). by apply list_elem_of_In.
  - intros H. exists c. split; [by apply list_elem_of_In | apply N.eqb_refl].
Qed.

Section Voices.
Context (E : Env).

(** X6. The [language] of a listed voice is its locale up to the first
    hyphen: a prefix of the locale without a hyphen, the whole locale when
    that has none, and followed by a hyphen otherwise. *)
Theorem voice_info_language (voice : Voice) :
  VoiceInfo.locale (voice_info voice) = dict_get voice (u "Locale") ∧
  VoiceInfo.language (voice_info voice) `prefix_of` VoiceInfo.locale (voice_info voice) ∧
  (45 ∉ VoiceInfo.language (voice_info voice)) ∧
  (45 ∉ VoiceInfo.locale (voice_info voice) →
   VoiceInfo.language (voice_info voice) = VoiceInfo.locale (voice_info voice)) ∧
  (45 ∈ VoiceInfo.locale (voice_info voice) →
   ∃ rest, VoiceInfo.locale (voice_info voice)
           = VoiceInfo.language (voice_info voice) ++ 45 :: rest).
Proof.
  unfold voice_info. cbn [VoiceInfo.locale VoiceInfo.language].
  set (loc := dict_get voice (u "Locale")).
  destruct (char_in 45 loc) eqn:Hin.
  - apply char_in_spec in Hin. split; [done|].
    split; [apply split_first_prefix|]. split; [apply split_first_no_sep|].
    split; [done|]. intros _. by apply split_first_cut.
  - assert (45 ∉ loc) as Hno by (rewrite <- char_in_spec; congruence).
    split; [done|]. split; [done|]. split; [done|]. split; [done|]. done.
Qed.

Lemma list_voices_inv language w r w' :
  list_voices E language w = (r, w') →
  disk w' = disk w ∧ pipeline_calls w' = pipeline_calls w ∧
  match catalog E w with
  | inl e =>
      r = inl (RaiseHTTP {| status_code := 500;
                            detail := u "Erro ao listar vozes: " ++ exn_str e |}) ∧
      w' = w
  | inr vs =>
      _voices_data w' = Some vs ∧
      ∃ sel, r = inr {| VoicesListResponse.success := true;
                        VoicesListResponse.voices := map (voice_info) sel;
                        VoicesListResponse.total := length (map (voice_info) sel);
                        VoicesListResponse.language_filter := language |} ∧
        sel = (if otruthy language
               then List.filter
                      (λ voice, str_in (lower' E (default [] language))
                                  (lower' E (dict_get voice (u "ShortName")))) vs
               else vs)
  end.
Proof.
  unfold list_voices, except_Exception. intros H.
  destruct (load_tts_voices E w) as [r1 w1] eqn:Hl.
  pose proof (load_tts_voices_inv _ _ _ _ Hl) as (Hd & _ & _ & _ & Hp & Hr).
  destruct (catalog E w) as [e|vs].
  - destruct Hr as [-> ->]. rewrite (bind_fail _ _ _ _ _ Hl) in H.
    unfold raise_http, raise in H. injection H as <- <-. done.
  - destruct Hr as [-> Hv]. rewrite (bind_step _ _ _ _ _ Hl) in H.
    unfold mret, M_ret in H. injection H as <- <-.
    repeat split; try done. eexists. split; reflexivity.
Qed.

(** X7. Without a filter ([language] absent or empty) [/voices] lists the
    whole catalog, in catalog order, and [total] counts it. *)
Theorem list_voices_unfiltered (language : option str) (w : World) (vs : list Voice) :
  otruthy language = false →
  catalog E w = inr vs →
  ∃ resp w',
    list_voices E language w = (inr resp, w') ∧
    VoicesListResponse.voices resp = map voice_info vs ∧
    VoicesListResponse.total resp = length vs ∧
    disk w' = disk w.
Proof.
  intros Hlang Hcat.
  destruct (list_voices E language w) as [r w'] eqn:H.
  apply list_voices_inv in H as (Hd & _ & Hr). rewrite Hcat in Hr.
  destruct Hr as (_ & sel & -> & ->). rewrite Hlang.
  eexists _, _. split; [done|]. cbn. by rewrite length_map.
Qed.

(** X8. With a filter, [/voices] returns a selection of the catalog in
    catalog order: every entry returned has the lower-cased filter in its
    lower-cased short name, every catalog entry that has it is returned,
    and [total] counts the entries returned. *)
Theorem list_voices_filtered (language : option str) (w : World)
    (resp : VoicesListResponse.t) (w' : World) :
  otruthy language = true →
  list_voices E language w = (inr resp, w') →
  (∀ info, info ∈ VoicesListResponse.voices resp →
     str_in (lower' E (default [] language)) (lower' E (VoiceInfo.short_name info))
     = true) ∧
  VoicesListResponse.total resp = length (VoicesListResponse.voices resp) ∧
  ∃ vs sel,
    catalog E w = inr vs ∧ sel `sublist_of` vs ∧
    VoicesListResponse.voices resp = map voice_info sel ∧
    ∀ voice, voice ∈ vs →
      str_in (lower' E (default [] language))
        (lower' E (dict_get voice (u "ShortName"))) = true →
      voice ∈ sel.
Proof.
  intros Hlang H. apply list_voices_inv in H as (_ & _ & Hr).
  destruct (catalog E w) as [e|vs]; [by destruct Hr|].
  destruct Hr as (_ & sel & [= ->] & ->). rewrite Hlang.
  cbn [VoicesListResponse.voices VoicesListResponse.total].
  split; [|split; [done|]].
  - intros info (voice & -> & Hin)%list_elem_of_fmap.
    apply list_elem_of_In, filter_In in Hin as [_ Hin]. done.
  - exists vs, (List.filter
                  (λ voice, str_in (lower' E (default [] language))
                              (lower' E (dict_get voice (u "ShortName")))) vs).
    split; [done|]. split; [apply filter_sublist|]. split; [done|].
    intros voice Hin Hmatch. apply list_elem_of_In, filter_In.
    split; [by apply list_elem_of_In | done].
Qed.

(** X9. When the loader raises, [/voices] answers with status 500 and the
    loader's message, and leaves the world as it was: nothing is cached, so
    the next request asks the loader again. *)
Theorem list_voices_loader_failure (language : option str) (w : World) (e : Exn) :
  catalog E w = inl e →
  list_voices E language w
  = (inl (RaiseHTTP {| status_code := 500;
                       detail := u "Erro ao listar vozes: " ++ exn_str e |}), w) ∧
  _voices_data w = None.
Proof.
  intros Hcat. split.
  - destruct (list_voices E language w) as [r w'] eqn:H.
    apply list_voices_inv in H as (_ & _ & Hr). rewrite Hcat in Hr.
    by destruct Hr as [-> ->].
  - unfold catalog in Hcat. by destruct (_voices_data w).
Qed.

End Voices.

(** ** [POST /tts/inference]: outcomes *)

Section Outcomes.
Context (E : Env).

Ltac validate_tail H :=
  revert H;
  match goal with
  | |- context [bool_decide ?P] =>
      let Hv := fresh "Hvoice" in
      destruct (bool_decide P) eqn:Hv; cbn [negb]; [|done];
      apply bool_decide_eq_true in Hv
  end;
  match goal with
  | |- context [andb ?a ?b] => destruct (andb a b); [done|]
  end;
  intros H; injection H as <- <-.

(** What a request that passed the validations has been checked for. *)
Lemma validate_passed request w request' w' :
  validate E request w = (inr request', w') →
  exists_on E (disk w) (TTSInferenceRequest.model_path request) = true ∧
  (if otruthy (TTSInferenceRequest.index_path request)
   then request' = request
   else ∃ i, match_index E (TTSInferenceRequest.model_path request) (disk w) = inr i ∧
             request' = TTSInferenceRequest.set_index_path request i) ∧
  (otruthy (TTSInferenceRequest.index_path request') = true →
   exists_on E (disk w) (default [] (TTSInferenceRequest.index_path request')) = true) ∧
  ∃ vs, catalog E w = inr vs ∧
        TTSInferenceRequest.tts_voice request
          ∈ map (λ v, dict_get v (u "ShortName")) vs.
Proof.
  unfold validate, catalog. munfold. intros H.
  destruct (exists_on E (disk w) (TTSInferenceRequest.model_path request)) eqn:Hm;
    cbn [negb] in H; [|done].
  split; [done|].
  destruct (otruthy (TTSInferenceRequest.index_path request)) eqn:Hidx; cbn [negb] in H.
  - rewrite Hidx in H.
    destruct (exists_on E (disk w) (default [] (TTSInferenceRequest.index_path request)))
      eqn:Hex; cbn [negb] in H; [|done].
    destruct (_voices_data w) as [vs|] eqn:Hvs.
    + validate_tail H. repeat split; try done. eauto.
    + destruct (load_voices_data E (disk w)) as [e|vs] eqn:Hload; [done|].
      validate_tail H. repeat split; try done. eauto.
  - destruct (match_index E (TTSInferenceRequest.model_path request) (disk w))
      as [e|i] eqn:Hmi; [done|].
    change (TTSInferenceRequest.index_path (TTSInferenceRequest.set_index_path request i))
      with i in H.
    change (TTSInferenceRequest.tts_voice (TTSInferenceRequest.set_index_path request i))
      with (TTSInferenceRequest.tts_voice request) in H.
    destruct (otruthy i) eqn:Hi.
    + destruct (exists_on E (disk w) (default [] i)) eqn:Hex; cbn [negb] in H; [|done].
      destruct (_voices_data w) as [vs|] eqn:Hvs.
      * validate_tail H. split; [eauto|]. split; [done|]. eauto.
      * destruct (load_voices_data E (disk w)) as [e|vs] eqn:Hload; [done|].
        validate_tail H. split; [eauto|]. split; [done|]. eauto.
    + destruct (_voices_data w) as [vs|] eqn:Hvs.
      * validate_tail H. split; [eauto|].
        split; [cbn; congruence|]. eauto.
      * destruct (load_voices_data E (disk w)) as [e|vs] eqn:Hload; [done|].
        validate_tail H. split; [eauto|].
        split; [cbn; congruence|]. eauto.
Qed.

Lemma generate_tail_status request output_file message w h w' :
  (created ← os_path_exists E output_file;
   if negb created then
     raise_http 500 (u "Erro ao gerar áudio: arquivo não foi criado")
   else
   file_size ← os_path_getsize E output_file;
   duration_seconds ← try_get_duration E output_file;
   base64_audio ←
     (if TTSInferenceRequest.return_base64 request then
        audio_bytes ← read_bytes E output_file;
        mret (Some (b64encode audio_bytes))
      else mret None);
   mret {| g_message := message; g_output_file := output_file;
           g_size_kb := Z.of_N file_size # 1024;
           g_duration_seconds := duration_seconds;
           g_base64_audio := base64_audio |}) w = (inl (RaiseHTTP h), w') →
  status_code h = 500.
Proof.
  munfold.
  destruct (exists_on E (disk w) output_file) eqn:Hex; cbn [negb];
    [|by intros [= <- <-]].
  destruct (lookup_node E (disk w) output_file) as [[bs|n]|] eqn:Hnode;
    destruct (TTSInferenceRequest.return_base64 request);
    rewrite ?Hnode; by intros [= <- <-].
Qed.

(** A failure of [generate] that is an [HTTPException] has status 500. *)
Lemma generate_http_status request timestamp w h w' :
  generate E request timestamp w = (inl (RaiseHTTP h), w') → status_code h = 500.
Proof.
  unfold generate. intros H.
  apply bind_inv in H as [(e & H & He) | (config & w1 & Hc & H)].
  { unfold call_Config in H. destruct (Config E); by simplify_eq. }
  cbv zeta in H.
  eapply (generate_prints_inv [_; _; _; _; _; _]) in H as (w2 & _ & H).
  apply bind_inv in H as [(e & H & He) | ([m f] & w3 & Hrun & H)].
  { apply pipeline_call_inv in H as (_ & _ & _ & H). by simplify_eq. }
  by eapply generate_tail_status.
Qed.

(** Where an [HTTPException] of the prelude comes from. *)
Lemma prelude_http request w h w1 :
  prelude E request w = (inl (RaiseHTTP h), w1) →
  validate E request w = (inl (RaiseHTTP h), w1) ∨ status_code h = 500.
Proof.
  unfold prelude. intros H.
  apply bind_inv in H as [(e & H & He) | (request' & w2 & Hv & H)].
  { left. by simplify_eq. }
  apply bind_inv in H as [(e & H & He) | (timestamp & w3 & Hn & H)]; [done|].
  unfold now_strftime in Hn. injection Hn as <- <-.
  apply bind_inv in H as [(e & H & He) | (g & w3 & Hg & H)]; [|done].
  right. simplify_eq. by eapply generate_http_status.
Qed.



(** X11. A 400 or 404 from [/tts/inference] means that nothing was
    synthesized: the pipeline was not called, the disk is as it was and
    nothing was printed. *)
Theorem tts_inference_client_error_is_clean request w h w' :
  tts_inference E request w = (inl (RaiseHTTP h), w') →
  status_code h = 400 ∨ status_code h = 404 →
  pipeline_calls w' = pipeline_calls w ∧ disk w' = disk w ∧ stdout w' = stdout w.
Proof.
  rewrite tts_inference_prelude.
  destruct (prelude E request w) as [[[h'|e]|[[request' timestamp] g]] w1] eqn:Hpre;
    intros H Hstatus.
  - injection H as <- <-. apply prelude_http in Hpre as [Hv | H500].
    + apply validate_frame in Hv as (? & _ & _ & ? & ?). done.
    + rewrite H500 in Hstatus. by destruct Hstatus.
  - apply bind_inv in H as [(e' & H & _) | (a & w2 & H & Hk)].
    + by apply print_inv in H as [? _].
    + unfold raise_http, raise in Hk. injection Hk as <- <-.
      cbn in Hstatus. by destruct Hstatus.
  - destruct (respond_spec E request' timestamp g w1) as (o & w2 & Hr & _).
    by rewrite Hr in H.
Qed.

End Outcomes.

(** ** [POST /tts/inference]: the not-found answers and the pass-through *)

Section Inference.
Context (E : Env).

(** The index path the validations look at: the one of the request, or the
    one [match_index] finds. *)
Lemma validate_index_stage request w i :
  exists_on E (disk w) (TTSInferenceRequest.model_path request) = true →
  (if otruthy (TTSInferenceRequest.index_path request)
   then TTSInferenceRequest.index_path request = i
   else match_index E (TTSInferenceRequest.model_path request) (disk w) = inr i) →
  validate E request w
  = ((index_missing ←
        (if otruthy i then
           found ← os_path_exists E (default [] i);
           mret (negb found)
         else mret false);
      if (index_missing : bool) then
        raise_http 404 (u "Arquivo index não encontrado: " ++ default [] i)
      else
      voices_data ← load_tts_voices E;
      let voice_names := map (fun v => dict_get v (u "ShortName")) voices_data in
      if negb (bool_decide (TTSInferenceRequest.tts_voice request ∈ voice_names)) then
        raise_http 404 (u "Voz TTS não encontrada: "
                          ++ TTSInferenceRequest.tts_voice request
                          ++ u ". Use /voices para listar vozes disponíveis.")
      else
      if str_eqb (TTSInferenceRequest.embedder_model request) (u "custom")
         && negb (otruthy (TTSInferenceRequest.embedder_model_custom request)) then
        raise_http 400
          (u "embedder_model_custom é obrigatório quando embedder_model='custom'")
      else
      mret (TTSInferenceRequest.set_index_path request i)) w).
Proof.
  intros Hm Hi. unfold validate.
  assert (os_path_exists E (TTSInferenceRequest.model_path request) w = (inr true, w))
    as Hstep by (unfold os_path_exists; by rewrite Hm).
  rewrite (bind_step _ _ _ _ _ Hstep). cbn [negb].
  destruct (otruthy (TTSInferenceRequest.index_path request)) eqn:Hidx; cbn [negb].
  - subst i.
    assert (TTSInferenceRequest.set_index_path request
              (TTSInferenceRequest.index_path request) = request) as -> by (by destruct request).
    unfold mbind at 1, M_bind at 1, mret at 1, M_ret at 1. done.
  - assert (call (match_index E (TTSInferenceRequest.model_path request)) w = (inr i, w))
      as Hcall by (unfold call; by rewrite Hi).
    unfold mbind at 1, M_bind at 1.
    rewrite (bind_step _ _ _ _ _ Hcall). unfold mret at 1, M_ret at 1. done.
Qed.

(** X12. When the model is there but the index file is not (the one the
    request names, or the one [match_index] proposes), the answer is 404
    with the index path in its detail, and the world is as it was. *)
Theorem tts_inference_index_not_found request w i :
  exists_on E (disk w) (TTSInferenceRequest.model_path request) = true →
  (if otruthy (TTSInferenceRequest.index_path request)
   then TTSInferenceRequest.index_path request = Some i
   else match_index E (TTSInferenceRequest.model_path request) (disk w) = inr (Some i)) →
  i ≠ [] →
  exists_on E (disk w) i = false →
  tts_inference E request w
  = (inl (RaiseHTTP {| status_code := 404;
                       detail := u "Arquivo index não encontrado: " ++ i |}), w).
Proof.
  intros Hm Hi Hne Hex. apply tts_inference_validate_fails.
  rewrite (validate_index_stage request w (Some i) Hm Hi).
  cbn [otruthy default from_option id].
  assert (truthy i = true) as -> by (unfold truthy, str_eqb; by rewrite bool_decide_false).
  unfold mbind, M_bind, os_path_exists, mret, M_ret. by rewrite Hex.
Qed.

Lemma voices_hint_in_detail (voice : str) :
  str_in (u "/voices")
    (u "Voz TTS não encontrada: " ++ voice
       ++ u ". Use /voices para listar vozes disponíveis.") = true.
Proof.
  replace (u ". Use /voices para listar vozes disponíveis.")
    with (u ". Use " ++ u "/voices" ++ u " para listar vozes disponíveis.")
    by (vm_compute; reflexivity).
  rewrite !app_assoc. rewrite <- (app_assoc _ (u "/voices")).
  apply str_in_app.
Qed.

(** X13. When the model and the index are found but the voice is not in
    the catalog, the answer is 404; its detail names the voice and points to
    [/voices]; the pipeline is not called and the disk is as it was. *)
Theorem tts_inference_voice_not_found request w i vs :
  exists_on E (disk w) (TTSInferenceRequest.model_path request) = true →
  (if otruthy (TTSInferenceRequest.index_path request)
   then TTSInferenceRequest.index_path request = i
   else match_index E (TTSInferenceRequest.model_path request) (disk w) = inr i) →
  (otruthy i = false ∨ exists_on E (disk w) (default [] i) = true) →
  catalog E w = inr vs →
  TTSInferenceRequest.tts_voice request ∉ map (λ v, dict_get v (u "ShortName")) vs →
  ∃ d w',
    tts_inference E request w
    = (inl (RaiseHTTP {| status_code := 404; detail := d |}), w') ∧
    str_in (TTSInferenceRequest.tts_voice request) d = true ∧
    str_in (u "/voices") d = true ∧
    pipeline_calls w' = pipeline_calls w ∧ disk w' = disk w.
Proof.
  intros Hm Hi Hex Hcat Hvoice.
  assert (∃ w', validate E request w
    = (inl (RaiseHTTP {| status_code := 404;
                         detail := u "Voz TTS não encontrada: "
                                     ++ TTSInferenceRequest.tts_voice request
                                     ++ u ". Use /voices para listar vozes disponíveis." |}),
       w')) as [w' Hv].
  { rewrite (validate_index_stage request w i Hm Hi).
    assert ((if otruthy i
             then found ← os_path_exists E (default [] i); mret (negb found)
             else mret false) w = (inr false, w)) as Hstage.
    { destruct (otruthy i); [|done]. destruct Hex as [? | Hex]; [done|].
      unfold mbind, M_bind, os_path_exists, mret, M_ret. by rewrite Hex. }
    rewrite (bind_step _ _ _ _ _ Hstage).
    destruct (load_tts_voices E w) as [r1 w1] eqn:Hl.
    pose proof (load_tts_voices_inv _ _ _ _ Hl) as (_ & _ & _ & _ & _ & Hr).
    rewrite Hcat in Hr. destruct Hr as [-> _].
    rewrite (bind_step _ _ _ _ _ Hl). cbv zeta.
    rewrite bool_decide_false by done. cbn [negb]. by eexists. }
  pose proof (validate_frame _ _ _ _ _ Hv) as (Hd & _ & _ & _ & Hp).
  eexists _, w'. split; [by apply tts_inference_validate_fails|].
  split; [apply str_in_app|]. split; [apply voices_hint_in_detail | done].
Qed.

(** X14. A successful call echoes the request: text, voice and model path
    as they came, and the index path as given or as [match_index] resolved
    it.  It has made exactly one call of the pipeline, whose arguments are
    the fields of the request with that index path, together with the two
    paths named after the time stamp. *)
Theorem tts_inference_passes_request_through request w resp w' :
  tts_inference E request w = (inr resp, w') →
  TTSInferenceResponse.text resp = TTSInferenceRequest.text request ∧
  TTSInferenceResponse.tts_voice resp = TTSInferenceRequest.tts_voice request ∧
  TTSInferenceResponse.model_path resp = TTSInferenceRequest.model_path request ∧
  (if otruthy (TTSInferenceRequest.index_path request)
   then TTSInferenceResponse.index_path resp = TTSInferenceRequest.index_path request
   else match_index E (TTSInferenceRequest.model_path request) (disk w)
        = inr (TTSInferenceResponse.index_path resp)) ∧
  pipeline_calls w'
  = pipeline_args E
      (TTSInferenceRequest.set_index_path request (TTSInferenceResponse.index_path resp))
      (clock w)
    :: pipeline_calls w.
Proof.
  intros H. apply tts_inference_ok in H as (request' & g & w1 & Hpre & _ & Hr).
  pose proof (prelude_inv _ _ _ _ _ Hpre) as (_ & [(_ & _ & e & ?) | (r' & _ & Hp & Hg)]);
    [done|].
  destruct (Hg _ _ _ eq_refl) as (<- & _).
  destruct (respond_spec E request' (clock w) g w1) as (o & w2 & Hr' & _ & Hp' & _).
  rewrite Hr' in Hr. injection Hr as <- <-.
  unfold prelude in Hpre.
  apply bind_inr in Hpre as (request'' & w3 & Hv & Hrest).
  apply bind_inr in Hrest as (ts & w4 & Hn & Hrest).
  apply bind_inr in Hrest as (g' & w5 & _ & Hret).
  unfold mret, M_ret in Hret. injection Hret as -> _ _ _.
  apply validate_passed in Hv as (_ & Hidx & _).
  unfold build_response. cbn [TTSInferenceResponse.text TTSInferenceResponse.tts_voice
    TTSInferenceResponse.model_path TTSInferenceResponse.index_path].
  rewrite Hp', Hp.
  destruct (otruthy (TTSInferenceRequest.index_path request)).
  - subst request'. repeat split; try done; by destruct request.
  - destruct Hidx as (i & Hmi & ->). repeat split; done.
Qed.

(** *** The custom embedder without its path *)

Lemma validate_index_missing request w i :
  exists_on E (disk w) (TTSInferenceRequest.model_path request) = true →
  (if otruthy (TTSInferenceRequest.index_path request)
   then TTSInferenceRequest.index_path request = Some i
   else match_index E (TTSInferenceRequest.model_path request) (disk w) = inr (Some i)) →
  i ≠ [] →
  exists_on E (disk w) i = false →
  validate E request w
  = (inl (RaiseHTTP {| status_code := 404;
                       detail := u "Arquivo index não encontrado: " ++ i |}), w).
Proof.
  intros Hm Hi Hne Hex.
  rewrite (validate_index_stage request w (Some i) Hm Hi).
  cbn [otruthy default from_option id].
  assert (truthy i = true) as -> by (unfold truthy, str_eqb; by rewrite bool_decide_false).
  unfold mbind, M_bind, os_path_exists, mret, M_ret. by rewrite Hex.
Qed.

Lemma validate_unknown_voice request w i vs :
  exists_on E (disk w) (TTSInferenceRequest.model_path request) = true →
  (if otruthy (TTSInferenceRequest.index_path request)
   then TTSInferenceRequest.index_path request = i
   else match_index E (TTSInferenceRequest.model_path request) (disk w) = inr i) →
  (otruthy i = false ∨ exists_on E (disk w) (default [] i) = true) →
  catalog E w = inr vs →
  TTSInferenceRequest.tts_voice request ∉ map (λ v, dict_get v (u "ShortName")) vs →
  ∃ w', validate E request w
    = (inl (RaiseHTTP {| status_code := 404;
                         detail := u "Voz TTS não encontrada: "
                                     ++ TTSInferenceRequest.tts_voice request
                                     ++ u ". Use /voices para listar vozes disponíveis." |}),
       w').
Proof.
  intros Hm Hi Hex Hcat Hvoice.
  rewrite (validate_index_stage request w i Hm Hi).
  assert ((if otruthy i
           then found ← os_path_exists E (default [] i); mret (negb found)
           else mret false) w = (inr false, w)) as Hstage.
  { destruct (otruthy i); [|done]. destruct Hex as [? | Hex]; [done|].
    unfold mbind, M_bind, os_path_exists, mret, M_ret. by rewrite Hex. }
  rewrite (bind_step _ _ _ _ _ Hstage).
  destruct (load_tts_voices E w) as [r1 w1] eqn:Hl.
  pose proof (load_tts_voices_inv _ _ _ _ Hl) as (_ & _ & _ & _ & _ & Hr).
  rewrite Hcat in Hr. destruct Hr as [-> _].
  rewrite (bind_step _ _ _ _ _ Hl). cbv zeta.
  rewrite bool_decide_false by done. cbn [negb]. by eexists.
Qed.

Ltac validate_400_tail H H400 :=
  revert H;
  match goal with
  | |- context [bool_decide ?P] =>
      let Hv := fresh "Hvoice" in
      destruct (bool_decide P) eqn:Hv; cbn [negb];
      [apply bool_decide_eq_true in Hv; intros _
      |intros H; injection H as <- <-; discriminate H400]
  end.

(** Status 400 comes from the last of the checks only. *)
Lemma validate_400 request w h w' :
  validate E request w = (inl (RaiseHTTP h), w') →
  status_code h = 400 →
  found_checks_pass E request w.
Proof.
  unfold validate, found_checks_pass, catalog. munfold. intros H H400.
  destruct (exists_on E (disk w) (TTSInferenceRequest.model_path request)) eqn:Hm;
    cbn [negb] in H; [|injection H as <- <-; discriminate H400].
  split; [done|].
  destruct (otruthy (TTSInferenceRequest.index_path request)) eqn:Hidx; cbn [negb] in H.
  - rewrite Hidx in H.
    destruct (exists_on E (disk w) (default [] (TTSInferenceRequest.index_path request)))
      eqn:Hex; cbn [negb] in H; [|injection H as <- <-; discriminate H400].
    split; [eauto|].
    destruct (_voices_data w) as [vs|] eqn:Hvs.
    + validate_400_tail H H400. eauto.
    + destruct (load_voices_data E (disk w)) as [e|vs] eqn:Hload; [done|].
      validate_400_tail H H400. eauto.
  - destruct (match_index E (TTSInferenceRequest.model_path request) (disk w))
      as [e|i] eqn:Hmi; [done|].
    change (TTSInferenceRequest.index_path (TTSInferenceRequest.set_index_path request i))
      with i in H.
    change (TTSInferenceRequest.tts_voice (TTSInferenceRequest.set_index_path request i))
      with (TTSInferenceRequest.tts_voice request) in H.
    destruct (otruthy i) eqn:Hi.
    + destruct (exists_on E (disk w) (default [] i)) eqn:Hex; cbn [negb] in H;
        [|injection H as <- <-; discriminate H400].
      split; [exists i; rewrite Hi; eauto|].
      destruct (_voices_data w) as [vs|] eqn:Hvs.
      * validate_400_tail H H400. eauto.
      * destruct (load_voices_data E (disk w)) as [e|vs] eqn:Hload; [done|].
        validate_400_tail H H400. eauto.
    + split; [exists i; rewrite Hi; eauto|].
      destruct (_voices_data w) as [vs|] eqn:Hvs.
      * validate_400_tail H H400. eauto.
      * destruct (load_voices_data E (disk w)) as [e|vs] eqn:Hload; [done|].
        validate_400_tail H H400. eauto.
Qed.

(** C3 (as the code has it). A request with [embedder_model = "custom"] and
    no [embedder_model_custom] is always rejected before synthesis: the
    pipeline is not called and the disk is left alone.  The embedder check
    is the last of the four: a missing model is answered with 404, then a
    missing index file with 404 and its path, then an unknown voice with 404
    and its name, and the status is 400 exactly when the model, the index
    and the voice are all found. *)
Theorem custom_embedder_rejected request w :
  TTSInferenceRequest.embedder_model request = u "custom" →
  otruthy (TTSInferenceRequest.embedder_model_custom request) = false →
  ∃ h w', tts_inference E request w = (inl (RaiseHTTP h), w') ∧
    disk w' = disk w ∧ pipeline_calls w' = pipeline_calls w ∧
    (status_code h = 400 ∨ status_code h = 404 ∨ status_code h = 500) ∧
    (exists_on E (disk w) (TTSInferenceRequest.model_path request) = false →
     status_code h = 404) ∧
    (∀ i,
       exists_on E (disk w) (TTSInferenceRequest.model_path request) = true →
       (if otruthy (TTSInferenceRequest.index_path request)
        then TTSInferenceRequest.index_path request = Some i
        else match_index E (TTSInferenceRequest.model_path request) (disk w)
             = inr (Some i)) →
       i ≠ [] →
       exists_on E (disk w) i = false →
       h = {| status_code := 404;
              detail := u "Arquivo index não encontrado: " ++ i |}) ∧
    (∀ i vs,
       exists_on E (disk w) (TTSInferenceRequest.model_path request) = true →
       (if otruthy (TTSInferenceRequest.index_path request)
        then TTSInferenceRequest.index_path request = i
        else match_index E (TTSInferenceRequest.model_path request) (disk w) = inr i) →
       (otruthy i = false ∨ exists_on E (disk w) (default [] i) = true) →
       catalog E w = inr vs →
       TTSInferenceRequest.tts_voice request ∉ map (λ v, dict_get v (u "ShortName")) vs →
       h = {| status_code := 404;
              detail := u "Voz TTS não encontrada: "
                          ++ TTSInferenceRequest.tts_voice request
                          ++ u ". Use /voices para listar vozes disponíveis." |}) ∧
    (status_code h = 400 ↔ found_checks_pass E request w).
Proof.
  intros Hcustom Hnone.
  destruct (validate E request w) as [[[h|e]|request'] w'] eqn:Hv.
  - exists h, w'. pose proof (validate_frame _ _ _ _ _ Hv) as (Hd & _ & _ & _ & Hp).
    pose proof (validate_raises _ _ _ _ _ Hv) as Hs. simpl in Hs.
    split; [by apply tts_inference_validate_fails|].
    split; [done|]. split; [done|]. split; [tauto|].
    split; [|split; [|split; [|split]]].
    + intros Hm. rewrite (validate_model_missing _ _ _ Hm) in Hv. by simplify_eq.
    + intros i Hm Hi Hne Hex.
      rewrite (validate_index_missing _ _ _ Hm Hi Hne Hex) in Hv. by simplify_eq.
    + intros i vs Hm Hi Hex Hcat Hvoice.
      destruct (validate_unknown_voice _ _ _ _ Hm Hi Hex Hcat Hvoice) as [w'' Hv'].
      rewrite Hv' in Hv. by simplify_eq.
    + intros H400. by apply (validate_400 _ _ _ _ Hv).
    + intros Hf. destruct (validate_custom_embedder _ _ _ Hf Hcustom Hnone) as [w'' Hv'].
      rewrite Hv' in Hv. by simplify_eq.
  - pose proof (validate_frame _ _ _ _ _ Hv) as (Hd & _ & _ & _ & Hp).
    destruct (tts_inference_validate_raises _ _ _ _ _ Hv) as (h & w'' & Ht & Hs & Hd' & Hp').
    exists h, w''. split; [done|].
    split; [congruence|]. split; [congruence|]. split; [tauto|].
    split; [|split; [|split; [|split]]].
    + intros Hm. rewrite (validate_model_missing _ _ _ Hm) in Hv. by simplify_eq.
    + intros i Hm Hi Hne Hex.
      rewrite (validate_index_missing _ _ _ Hm Hi Hne Hex) in Hv. by simplify_eq.
    + intros i vs Hm Hi Hex Hcat Hvoice.
      destruct (validate_unknown_voice _ _ _ _ Hm Hi Hex Hcat Hvoice) as [w3 Hv'].
      rewrite Hv' in Hv. by simplify_eq.
    + intros H400. rewrite Hs in H400. discriminate H400.
    + intros Hf. destruct (validate_custom_embedder _ _ _ Hf Hcustom Hnone) as [w3 Hv'].
      rewrite Hv' in Hv. by simplify_eq.
  - exfalso. apply validate_ok in Hv as [[i ->] Hemb].
    assert (TTSInferenceRequest.embedder_model (TTSInferenceRequest.set_index_path request i)
            = TTSInferenceRequest.embedder_model request) as Heq1 by done.
    assert (TTSInferenceRequest.embedder_model_custom
              (TTSInferenceRequest.set_index_path request i)
            = TTSInferenceRequest.embedder_model_custom request) as Heq2 by done.
    rewrite Heq1, Heq2, Hcustom, Hnone in Hemb.
    unfold str_eqb in Hemb. by rewrite bool_decide_true in Hemb.
Qed.

End Inference.

(** ** [POST /tts/generate] *)

Section Generate.
Context (E : Env).

Lemma valid_format_upper (f : str) : f ∈ valid_formats → upper' E f = f.
Proof.
  unfold valid_formats, upper'. intros Hf.
  repeat (apply elem_of_cons in Hf as [-> | Hf]);
    [..| by apply elem_of_nil in Hf];
    (rewrite upper_ascii;
     [vm_compute; reflexivity | apply (bool_decide_unpack _); vm_compute; exact I]).
Qed.

Lemma full_request_inv request full :
  full_request E request = inr full →
  truthy (clean_text (SimpleTTSRequest.text request)) = true ∧
  upper' E (SimpleTTSRequest.output_format request) ∈ valid_formats ∧
  full
  = {| TTSInferenceRequest.text := clean_text (SimpleTTSRequest.text request);
       TTSInferenceRequest.tts_voice := SimpleTTSRequest.tts_voice request;
       TTSInferenceRequest.model_path := SimpleTTSRequest.model_path request;
       TTSInferenceRequest.index_path := SimpleTTSRequest.index_path request;
       TTSInferenceRequest.tts_rate := SimpleTTSRequest.tts_rate request;
       TTSInferenceRequest.pitch := 0;
       TTSInferenceRequest.index_rate := 3 # 4;
       TTSInferenceRequest.volume_envelope := 1;
       TTSInferenceRequest.protect := 1 # 2;
       TTSInferenceRequest.f0_method := u "rmvpe";
       TTSInferenceRequest.split_audio := false;
       TTSInferenceRequest.f0_autotune := false;
       TTSInferenceRequest.f0_autotune_strength := 1;
       TTSInferenceRequest.proposed_pitch := false;
       TTSInferenceRequest.proposed_pitch_threshold := 155;
       TTSInferenceRequest.clean_audio := false;
       TTSInferenceRequest.clean_strength := 1 # 2;
       TTSInferenceRequest.export_format :=
         upper' E (SimpleTTSRequest.output_format request);
       TTSInferenceRequest.embedder_model := u "contentvec";
       TTSInferenceRequest.embedder_model_custom := None;
       TTSInferenceRequest.sid := 0;
       TTSInferenceRequest.return_base64 := true;
       TTSInferenceRequest.output_filename := None |}.
Proof.
  unfold full_request.
  destruct (truthy (clean_text (SimpleTTSRequest.text request))); cbn [negb]; [|done].
  case_bool_decide as Hfmt; cbn [negb]; [|done].
  by intros [= <-].
Qed.

(** X15. [/tts/generate] always answers with the payload: a successful
    response carries the base64 audio and no [output_path], whatever the
    [return_base64] of the request says; its [format] is the requested
    format in upper case, one of WAV, MP3, FLAC, OGG, M4A; and its [text] is
    the sanitized text. *)
Theorem tts_generate_simple_returns_payload request w resp w' :
  tts_generate_simple E request w = (inr resp, w') →
  is_Some (TTSInferenceResponse.base64 resp) ∧
  TTSInferenceResponse.output_path resp = None ∧
  TTSInferenceResponse.format resp
  = Some (upper' E (SimpleTTSRequest.output_format request)) ∧
  upper' E (SimpleTTSRequest.output_format request) ∈ valid_formats ∧
  TTSInferenceResponse.text resp = clean_text (SimpleTTSRequest.text request).
Proof.
  unfold tts_generate_simple.
  destruct (full_request E request) as [e|full] eqn:Hfull; [done|].
  apply full_request_inv in Hfull as (_ & Hfmt & Hfull). intros H.
  apply tts_inference_ok in H as (request' & g & w1 & Hpre & [i ->] & Hr).
  pose proof (prelude_inv _ _ _ _ _ Hpre) as (_ & [(_ & _ & e & ?) | (r' & _ & _ & Hg)]);
    [done|].
  destruct (Hg _ _ _ eq_refl) as (_ & _ & _ & _ & Hb).
  destruct (respond_spec E (TTSInferenceRequest.set_index_path full i) (clock w) g w1)
    as (o & w2 & Hr' & _).
  rewrite Hr' in Hr. injection Hr as <- <-.
  rewrite Hfull in Hb. cbn [TTSInferenceRequest.return_base64] in Hb.
  destruct Hb as (bs & _ & Hpay).
  unfold build_response. rewrite Hfull.
  cbn [TTSInferenceResponse.base64 TTSInferenceResponse.output_path
       TTSInferenceResponse.format TTSInferenceResponse.text
       TTSInferenceRequest.set_index_path TTSInferenceRequest.return_base64
       TTSInferenceRequest.export_format TTSInferenceRequest.text negb].
  rewrite Hpay, andb_false_r.
  split; [by eexists|]. split; [done|]. split; [|done].
  f_equal. by apply valid_format_upper.
Qed.

(** X16. Whatever [/tts/generate] hands to the pipeline is sanitized and
    carries the fixed defaults: the text is the non-empty sanitized text, the
    export format is one of the five valid formats, and pitch, index rate,
    envelope, protection, pitch method, toggles, embedder and speaker are the
    documented constants. *)
Theorem tts_generate_simple_pipeline_arguments request w r w' :
  tts_generate_simple E request w = (r, w') →
  pipeline_calls w' = pipeline_calls w ∨
  ∃ a, pipeline_calls w' = a :: pipeline_calls w ∧
    TTSArgs.tts_text a = clean_text (SimpleTTSRequest.text request) ∧
    TTSArgs.tts_text a ≠ [] ∧
    TTSArgs.export_format a ∈ valid_formats ∧
    TTSArgs.tts_voice a = SimpleTTSRequest.tts_voice request ∧
    TTSArgs.pth_path a = SimpleTTSRequest.model_path request ∧
    TTSArgs.tts_rate a = SimpleTTSRequest.tts_rate request ∧
    TTSArgs.pitch a = 0%Z ∧ TTSArgs.index_rate a = 3 # 4 ∧
    TTSArgs.volume_envelope a = 1%Q ∧ TTSArgs.protect a = 1 # 2 ∧
    TTSArgs.f0_method a = u "rmvpe" ∧
    TTSArgs.split_audio a = false ∧ TTSArgs.f0_autotune a = false ∧
    TTSArgs.proposed_pitch a = false ∧ TTSArgs.clean_audio a = false ∧
    TTSArgs.embedder_model a = u "contentvec" ∧
    TTSArgs.embedder_model_custom a = None ∧ TTSArgs.sid a = 0%Z.
Proof.
  unfold tts_generate_simple.
  destruct (full_request E request) as [e|full] eqn:Hfull.
  { intros [= _ <-]. by left. }
  apply full_request_inv in Hfull as (Htext & Hfmt & Hfull). intros H.
  apply tts_inference_calls in H as [H | (request' & [i ->] & H)]; [by left|].
  right. eexists. split; [exact H|]. rewrite Hfull.
  cbn. repeat split; try done.
  intros Hnil. rewrite Hnil in Htext. by vm_compute in Htext.
Qed.

(** X17. A text that is empty once sanitized, or a format outside the five
    valid ones, is answered with status 400 before anything else is looked
    at: the world is as it was, whether the model exists or not. *)
Theorem tts_generate_simple_rejects_first request w :
  truthy (clean_text (SimpleTTSRequest.text request)) = false ∨
  upper' E (SimpleTTSRequest.output_format request) ∉ valid_formats →
  ∃ d, tts_generate_simple E request w
       = (inl (RaiseHTTP {| status_code := 400; detail := d |}), w).
Proof.
  intros Hbad. unfold tts_generate_simple, full_request.
  destruct (truthy (clean_text (SimpleTTSRequest.text request))) eqn:Htext;
    cbn [negb]; [|by eexists].
  destruct Hbad as [? | Hfmt]; [done|].
  rewrite bool_decide_false by done. cbn [negb]. by eexists.
Qed.

End Generate.

(** ** From [/tts/inference] to [/tts/download] *)

Lemma str_join_snoc (sep : str) (l : list str) (x : str) :
  l ≠ [] → str_join sep (l ++ [x]) = str_join sep l ++ sep ++ x.
Proof.
  induction l as [|y l IH]; [done|]. intros _.
  destruct l as [|z l]; [done|].
  change (str_join sep ((y :: z :: l) ++ [x]))
    with (y ++ sep ++ str_join sep ((z :: l) ++ [x])).
  rewrite IH by done.
  change (str_join sep (y :: z :: l)) with (y ++ sep ++ str_join sep (z :: l)).
  by rewrite <- !app_assoc.
Qed.

Lemma startswith_sep_elem (s : str) : startswith s [SEP] = true → SEP ∈ s.
Proof.
  destruct s as [|c r]; [done|]. cbn [startswith].
  destruct (N.eqb_spec SEP c) as [<- | ?]; [intros _; apply list_elem_of_here|].
  cbn [andb]. done.
Qed.

Lemma split_on_cons (sep c : N) (r : str) :
  split_on sep (c :: r)
  = if c =? sep then [] :: split_on sep r
    else match split_on sep r with
         | x :: xs => (c :: x) :: xs
         | [] => [[c]]
         end.
Proof. done. Qed.

Lemma basename_join (a name : str) :
  SEP ∉ name → os_path_basename (a ++ [SEP] ++ name) = name.
Proof.
  intros Hname. unfold os_path_basename.
  assert (∀ b : str, ∃ x pre, split_on SEP (b ++ [SEP] ++ name) = x :: pre ++ [name])
    as Hsplit.
  { induction b as [|c b (x & pre & IH)]; cbn [app] in *; rewrite split_on_cons.
    - rewrite N.eqb_refl, split_on_no_sep by done. by exists [], [].
    - rewrite IH. destruct (c =? SEP).
      + by exists [], (x :: pre).
      + by exists (c :: x), pre. }
  destruct (Hsplit a) as (x & pre & ->).
  change (x :: pre ++ [name]) with ((x :: pre) ++ [name]). by rewrite rev_app_distr.
Qed.

Section Download2.
Context (E : Env).

Lemma path_exists_found (p : Path) (w : World) :
  exists_on E (disk w) (path_str p) = true → path_exists E p w = (inr true, w).
Proof. rewrite exists_on_true. unfold path_exists. by intros [n ->]. Qed.


Lemma mkPath_plain (name : str) :
  SEP ∉ name → name ≠ [] → name ≠ u "." →
  mkPath name = {| root := []; parts := [name] |}.
Proof.
  intros Hsep Hne Hdot. unfold mkPath, path_root, path_parts.
  assert (startswith name [SEP] = false) as Hs.
  { apply not_true_is_false. by intros ?%startswith_sep_elem. }
  assert (startswith name [SEP; SEP] = false) as Hss.
  { destruct name as [|c r]; [done|]. cbn [startswith] in *.
    destruct (SEP =? c); cbn [andb] in *; [by destruct r | done]. }
  rewrite Hs, Hss. cbn [andb]. f_equal.
  rewrite split_on_no_sep by done. cbn [List.filter].
  assert (truthy name && negb (str_eqb name (u ".")) = true) as ->; [|done].
  unfold truthy, str_eqb. by rewrite !bool_decide_false.
Qed.

(** The output directory as text: something followed by [/audios]. *)
Lemma OUTPUT_DIR_str :
  ∃ x, path_str (OUTPUT_DIR E) = x ++ [SEP] ++ u "audios".
Proof.
  rewrite OUTPUT_DIR_parts. unfold path_str. cbn [root parts].
  rewrite str_join_snoc by (by destruct (parts (mkPath (now_dir E)))).
  set (r := root (mkPath (now_dir E))).
  set (q := str_join [SEP] (parts (mkPath (now_dir E)) ++ [u "assets"])).
  exists (r ++ q). cbv zeta.
  replace (r ++ q ++ [SEP] ++ u "audios") with ((r ++ q) ++ [SEP] ++ u "audios")
    by (by rewrite <- app_assoc).
  assert (truthy ((r ++ q) ++ [SEP] ++ u "audios") = true) as ->; [|done].
  unfold truthy, str_eqb. rewrite bool_decide_false; [done|]. by destruct (r ++ q).
Qed.

Lemma os_path_join_plain (name : str) :
  SEP ∉ name →
  os_path_join (path_str (OUTPUT_DIR E)) name = path_str (OUTPUT_DIR E) ++ [SEP] ++ name.
Proof.
  intros Hsep. unfold os_path_join.
  assert (startswith name [SEP] = false) as ->.
  { apply not_true_is_false. by intros ?%startswith_sep_elem. }
  destruct OUTPUT_DIR_str as [x ->].
  assert (truthy (x ++ [SEP] ++ u "audios") = true) as ->.
  { unfold truthy, str_eqb. rewrite bool_decide_false; [done|]. by destruct x. }
  assert (endswith (x ++ [SEP] ++ u "audios") [SEP] = false) as ->; [|done].
  unfold endswith. rewrite !rev_app_distr.
  replace (rev (u "audios")) with (115 :: rev (u "audio")) by (vm_compute; reflexivity).
  done.
Qed.

Lemma truediv_plain (name : str) :
  SEP ∉ name → name ≠ [] → name ≠ u "." →
  path_str (truediv (OUTPUT_DIR E) name) = path_str (OUTPUT_DIR E) ++ [SEP] ++ name.
Proof.
  intros Hsep Hne Hdot.
  rewrite (truediv_relative _ _ _ (mkPath_plain name Hsep Hne Hdot)).
  rewrite OUTPUT_DIR_parts. unfold path_str. cbn [root parts].
  set (ps := (parts (mkPath (now_dir E)) ++ [u "assets"]) ++ [u "audios"]).
  assert (ps ≠ []) as Hps by (unfold ps; by destruct (parts (mkPath (now_dir E)) ++ _)).
  rewrite str_join_snoc by done.
  set (r := root (mkPath (now_dir E))).
  assert (truthy (r ++ str_join [SEP] ps) = true) as Ht1.
  { pose proof OUTPUT_DIR_str as [x Hx]. rewrite OUTPUT_DIR_parts in Hx.
    unfold path_str in Hx. cbn [root parts] in Hx. fold ps r in Hx.
    destruct (truthy (r ++ str_join [SEP] ps)) eqn:Ht; [done|].
    exfalso. apply (f_equal length) in Hx. rewrite !length_app in Hx.
    revert Hx. vm_compute (length (u ".")). vm_compute (length (u "audios")).
    simpl. lia. }
  rewrite Ht1.
  assert (truthy (r ++ str_join [SEP] ps ++ [SEP] ++ name) = true) as ->.
  { unfold truthy, str_eqb in *. rewrite bool_decide_false; [done|].
    intros Hnil. apply negb_true_iff, bool_decide_eq_false in Ht1. apply Ht1.
    apply app_eq_nil in Hnil as [-> Hnil]. apply app_eq_nil in Hnil as [-> _]. done. }
  by rewrite <- !app_assoc.
Qed.

(** A successful call without [return_base64]: the file it points to. *)
Lemma tts_inference_file_kept request w resp w' :
  tts_inference E request w = (inr resp, w') →
  TTSInferenceRequest.return_base64 request = false →
  ∃ f, TTSInferenceResponse.output_path resp = Some f ∧
       TTSInferenceResponse.output_file resp = Some (os_path_basename f) ∧
       (realpath E f ≠ realpath E (tts_output_path E (clock w)) →
        exists_on E (disk w') f = true).
Proof.
  intros H Hret. apply tts_inference_ok in H as (request' & g & w1 & Hpre & Hs & Hr).
  pose proof (prelude_inv _ _ _ _ _ Hpre) as (Hl & [(_ & _ & e & ?) | (r' & _ & Hp & Hg)]);
    [done|].
  destruct (Hg _ _ _ eq_refl) as (<- & _ & Hrun & Hex & Hb).
  destruct (respond_spec E request' (clock w) g w1)
    as (o & w2 & Hr' & Hl' & Hp' & Hkeep & Hdel & _).
  rewrite Hr' in Hr. injection Hr as <- <-.
  assert (TTSInferenceRequest.return_base64 request' = false) as Hb64
    by (destruct Hs as [i ->]; done).
  destruct (Hkeep Hb64) as [-> Hsame].
  apply exists_on_truthy in Hex as Htr.
  exists (g_output_file g).
  unfold build_response; cbn [TTSInferenceResponse.output_path
    TTSInferenceResponse.output_file otruthy].
  rewrite Hb64, Htr. cbn [andb negb fmap option_fmap option_map].
  repeat split; try done.
  intros Hne. apply exists_on_true. rewrite Hsame by done. by apply exists_on_true.
Qed.

(** X18. What [/tts/inference] returns as a file can be fetched from
    [/tts/download]: when the converted file lies where the handler asked
    for it, under a plain file name, and is not the intermediate file, then
    [output_file] is that name and downloading it serves [output_path]. *)
Theorem inference_then_download request w resp w' :
  tts_inference E request w = (inr resp, w') →
  TTSInferenceRequest.return_base64 request = false →
  TTSInferenceResponse.output_path resp = Some (rvc_output_path E request (clock w)) →
  SEP ∉ rvc_output_filename E request (clock w) →
  rvc_output_filename E request (clock w) ≠ u "." →
  realpath E (rvc_output_path E request (clock w))
    ≠ realpath E (tts_output_path E (clock w)) →
  TTSInferenceResponse.output_file resp = Some (rvc_output_filename E request (clock w)) ∧
  download_audio E (rvc_output_filename E request (clock w)) w'
  = (inr {| FileResponse.path := rvc_output_path E request (clock w);
            FileResponse.filename := rvc_output_filename E request (clock w);
            FileResponse.media_type := u "audio/wav" |}, w').
Proof.
  intros H Hret Hpath Hsep Hdot Hne.
  set (name := rvc_output_filename E request (clock w)) in *.
  assert (name ≠ []) as Hnil.
  { unfold name, rvc_output_filename.
    destruct (otruthy (TTSInferenceRequest.output_filename request)) eqn:Ho.
    - destruct (TTSInferenceRequest.output_filename request) as [f|]; [|done].
      cbn in Ho. cbn [from_option id].
      assert (f ≠ []) by (intros ->; by vm_compute in Ho).
      destruct (existsb _ _); [done|]. by destruct f.
    - replace (u "tts_rvc_output_") with (116 :: List.tl (u "tts_rvc_output_"))
        by (vm_compute; reflexivity). done. }
  assert (rvc_output_path E request (clock w) = path_str (OUTPUT_DIR E) ++ [SEP] ++ name)
    as Hjoin by (unfold rvc_output_path; by apply os_path_join_plain).
  destruct (tts_inference_file_kept _ _ _ _ H Hret) as (f & Hf & Hfile & Hkept).
  rewrite Hpath in Hf. injection Hf as <-.
  split.
  - rewrite Hfile, Hjoin. by rewrite basename_join.
  - unfold download_audio.
    assert (path_exists E (truediv (OUTPUT_DIR E) name) w' = (inr true, w')) as Hstep.
    { apply path_exists_found. rewrite truediv_plain by done. rewrite <- Hjoin.
      by apply Hkept. }
    rewrite (bind_step _ _ _ _ _ Hstep). cbn [negb]. unfold mret, M_ret.
    rewrite truediv_plain by done. by rewrite <- Hjoin.
Qed.

(** *** [GET /tts/download/{filename}] on its own *)




End Download2.

(** ** The model endpoints *)

Section Models.
Context (E : Env) (S : ModelStore).

Lemma get_model_index_eq (model_path : str) (w : World) :
  get_model_index E model_path w
  = if exists_on E (disk w) model_path then
      match match_index E model_path (disk w) with
      | inl e =>
          (inl (RaiseHTTP {| status_code := 500;
                             detail := u "Erro ao obter index: " ++ exn_str e |}), w)
      | inr i =>
          (inr {| ModelIndexResponse.success := true;
                  ModelIndexResponse.model_path := model_path;
                  ModelIndexResponse.index_path := i;
                  ModelIndexResponse.message :=
                    if otruthy i
                    then u "Index file encontrado: " ++ default [] i
                    else u "Nenhum index file encontrado para este modelo" |}, w)
      end
    else
      (inl (RaiseHTTP {| status_code := 404;
                         detail := u "Modelo não encontrado: " ++ model_path |}), w).
Proof.
  unfold get_model_index, except_Exception, mbind, M_bind, os_path_exists, call,
    raise_http, raise, mret, M_ret.
  destruct (exists_on E (disk w) model_path); cbn [negb]; [|done].
  by destruct (match_index E model_path (disk w)).
Qed.

(** X19. [/models/{path}/index] never changes the world.  It answers 404,
    with the path in the detail, exactly when the model file does not exist;
    500 exactly when the file exists and [match_index] raises; and otherwise
    it reports what [match_index] found, with a message that names the index
    when there is one. *)
Theorem get_model_index_outcomes (model_path : str) (w : World) r w' :
  get_model_index E model_path w = (r, w') →
  w' = w ∧
  match r with
  | inr resp =>
      exists_on E (disk w) model_path = true ∧
      match_index E model_path (disk w) = inr (ModelIndexResponse.index_path resp) ∧
      ModelIndexResponse.model_path resp = model_path ∧
      ModelIndexResponse.success resp = true ∧
      (∀ i, ModelIndexResponse.index_path resp = Some i → i ≠ [] →
         ModelIndexResponse.message resp = u "Index file encontrado: " ++ i) ∧
      (otruthy (ModelIndexResponse.index_path resp) = false →
         ModelIndexResponse.message resp
         = u "Nenhum index file encontrado para este modelo")
  | inl (RaiseHTTP h) =>
      (status_code h = 404 ∧ exists_on E (disk w) model_path = false ∧
       str_in model_path (detail h) = true) ∨
      (status_code h = 500 ∧ exists_on E (disk w) model_path = true ∧
       ∃ e, match_index E model_path (disk w) = inl e)
  | inl (RaiseExc _) => False
  end.
Proof.
  rewrite get_model_index_eq.
  destruct (exists_on E (disk w) model_path) eqn:Hex.
  - destruct (match_index E model_path (disk w)) as [e|i] eqn:Hmi;
      intros [= <- <-]; (split; [done|]).
    + right. eauto.
    + cbn. repeat split; try done.
      * intros j -> Hj. cbn.
        assert (truthy j = true) as -> by (unfold truthy, str_eqb; by rewrite bool_decide_false).
        done.
      * by intros ->.
  - intros [= <- <-]. split; [done|]. left. repeat split; try done.
    apply str_in_suffix.
Qed.

Lemma get_model_speakers_eq (model_path : str) (w : World) :
  get_model_speakers E S model_path w
  = if exists_on E (disk w) model_path then
      match get_speakers_id S model_path (disk w) with
      | inl e =>
          (inl (RaiseHTTP {| status_code := 500;
                             detail := u "Erro ao obter speaker IDs: " ++ exn_str e |}), w)
      | inr ids =>
          (inr {| SpeakerIDsResponse.success := true;
                  SpeakerIDsResponse.model_path := model_path;
                  SpeakerIDsResponse.speaker_ids := ids;
                  SpeakerIDsResponse.total := length ids |}, w)
      end
    else
      (inl (RaiseHTTP {| status_code := 404;
                         detail := u "Modelo não encontrado: " ++ model_path |}), w).
Proof.
  unfold get_model_speakers, except_Exception, mbind, M_bind, os_path_exists, call,
    raise_http, raise, mret, M_ret.
  destruct (exists_on E (disk w) model_path); cbn [negb]; [|done].
  by destruct (get_speakers_id S model_path (disk w)).
Qed.

(** X20. [/models/{path}/speakers] never changes the world.  For a model
    file that does not exist it answers 404 with the path in the detail,
    without asking for the speakers; otherwise it reports the identifiers
    the collaborator returns, [total] being their number, or 500 when the
    collaborator raises. *)
Theorem get_model_speakers_outcomes (model_path : str) (w : World) r w' :
  get_model_speakers E S model_path w = (r, w') →
  w' = w ∧
  match r with
  | inr resp =>
      exists_on E (disk w) model_path = true ∧
      get_speakers_id S model_path (disk w) = inr (SpeakerIDsResponse.speaker_ids resp) ∧
      SpeakerIDsResponse.total resp = length (SpeakerIDsResponse.speaker_ids resp) ∧
      SpeakerIDsResponse.model_path resp = model_path
  | inl (RaiseHTTP h) =>
      (status_code h = 404 ∧ exists_on E (disk w) model_path = false ∧
       str_in model_path (detail h) = true) ∨
      (status_code h = 500 ∧ exists_on E (disk w) model_path = true ∧
       ∃ e, get_speakers_id S model_path (disk w) = inl e)
  | inl (RaiseExc _) => False
  end.
Proof.
  rewrite get_model_speakers_eq.
  destruct (exists_on E (disk w) model_path) eqn:Hex.
  - destruct (get_speakers_id S model_path (disk w)) as [e|ids] eqn:Hids;
      intros [= <- <-]; (split; [done|]).
    + right. eauto.
    + done.
  - intros [= <- <-]. split; [done|]. left. repeat split; try done.
    apply str_in_suffix.
Qed.

(** The loop of [list_models]. *)
Lemma list_models_loop (models : list str) (w : World) r w' :
  mapM (fun model_path =>
          index_path ← call (match_index E model_path);
          mret {| ModelInfo.path := model_path;
                  ModelInfo.name := os_path_basename model_path;
                  ModelInfo.index_path := index_path |}) models w = (r, w') →
  w' = w ∧
  match r with
  | inr infos =>
      map ModelInfo.path infos = models ∧
      Forall (λ m, ModelInfo.name m = os_path_basename (ModelInfo.path m) ∧
                   match_index E (ModelInfo.path m) (disk w)
                   = inr (ModelInfo.index_path m)) infos
  | inl (RaiseExc e) => ∃ m, m ∈ models ∧ match_index E m (disk w) = inl e
  | inl (RaiseHTTP _) => False
  end.
Proof.
  revert r w'. induction models as [|m models IH]; intros r w' H.
  - cbn in H. injection H as <- <-. by repeat split.
  - cbn [mapM] in H.
    apply bind_inv in H as [(e & H & ->) | (info & w1 & Hinfo & H)].
    + unfold mbind, M_bind, call in H.
      destruct (match_index E m (disk w)) as [e'|i] eqn:Hmi; [|done].
      injection H as <- <-. split; [done|]. exists m. split; [apply list_elem_of_here | done].
    + unfold mbind, M_bind, call, mret, M_ret in Hinfo.
      destruct (match_index E m (disk w)) as [e'|i] eqn:Hmi; [done|].
      injection Hinfo as <- <-.
      apply bind_inv in H as [(e & H & ->) | (infos & w2 & Hrest & H)].
      * apply IH in H as [-> H]. split; [done|].
        destruct e as [h|e]; [done|]. destruct H as (m' & Hin & Hm').
        exists m'. split; [by apply list_elem_of_further | done].
      * apply IH in Hrest as [-> (Hpaths & Hall)].
        unfold mret, M_ret in H. injection H as <- <-. split; [done|].
        split; [cbn; by rewrite Hpaths|]. constructor; [done | done].
Qed.

Lemma list_models_inv (w : World) r w' :
  list_models E S w = (r, w') →
  w' = w ∧
  match r with
  | inr resp =>
      ∃ files,
        get_files S (u "model") (disk w) = inr files ∧
        map ModelInfo.path (ModelsListResponse.models resp) = files ∧
        ModelsListResponse.total resp = length files ∧
        Forall (λ m, ModelInfo.name m = os_path_basename (ModelInfo.path m) ∧
                     match_index E (ModelInfo.path m) (disk w)
                     = inr (ModelInfo.index_path m))
          (ModelsListResponse.models resp)
  | inl (RaiseHTTP h) => status_code h = 500
  | inl (RaiseExc _) => False
  end.
Proof.
  unfold list_models, except_Exception. intros H.
  destruct (call (get_files S (u "model")) w) as [r1 w1] eqn:H1.
  assert (w1 = w ∧ r1 = match get_files S (u "model") (disk w) with
                        | inl e => inl (RaiseExc e) | inr l => inr l end) as [-> ->].
  { unfold call in H1. by destruct (get_files S (u "model") (disk w)); simplify_eq. }
  destruct (get_files S (u "model") (disk w)) as [e|files] eqn:Hfiles.
  { rewrite (bind_fail _ _ _ _ _ H1) in H. unfold raise_http, raise in H.
    by injection H as <- <-. }
  rewrite (bind_step _ _ _ _ _ H1) in H.
  destruct (call (get_files S (u "index")) w) as [r2 w2] eqn:H2.
  assert (w2 = w ∧ r2 = match get_files S (u "index") (disk w) with
                        | inl e => inl (RaiseExc e) | inr l => inr l end) as [-> ->].
  { unfold call in H2. by destruct (get_files S (u "index") (disk w)); simplify_eq. }
  destruct (get_files S (u "index") (disk w)) as [e|indexes] eqn:Hindexes.
  { rewrite (bind_fail _ _ _ _ _ H2) in H. unfold raise_http, raise in H.
    by injection H as <- <-. }
  rewrite (bind_step _ _ _ _ _ H2) in H.
  match type of H with
  | context [mapM ?f files] => destruct (mapM f files w) as [r3 w3] eqn:H3
  end.
  pose proof (list_models_loop _ _ _ _ H3) as [-> Hloop].
  destruct r3 as [[h|e]|infos].
  - done.
  - rewrite (bind_fail _ _ _ _ _ H3) in H. unfold raise_http, raise in H.
    by injection H as <- <-.
  - rewrite (bind_step _ _ _ _ _ H3) in H. unfold mret, M_ret in H.
    injection H as <- <-. split; [done|]. destruct Hloop as [Hpaths Hall].
    exists files. cbn. repeat split; try done.
    by rewrite <- Hpaths, length_map.
Qed.

(** X21. [/models] never changes the world.  A successful answer lists one
    entry per model file that [get_files] reports, in that order; the name
    of an entry is the base name of its path, its index is what
    [match_index] finds for it, and [total] counts the entries.  Any
    exception of a collaborator becomes status 500. *)
Theorem list_models_outcomes (w : World) r w' :
  list_models E S w = (r, w') →
  w' = w ∧
  match r with
  | inr resp =>
      ∃ files,
        get_files S (u "model") (disk w) = inr files ∧
        map ModelInfo.path (ModelsListResponse.models resp) = files ∧
        ModelsListResponse.total resp = length files ∧
        Forall (λ m, ModelInfo.name m = os_path_basename (ModelInfo.path m) ∧
                     match_index E (ModelInfo.path m) (disk w)
                     = inr (ModelInfo.index_path m))
          (ModelsListResponse.models resp)
  | inl (RaiseHTTP h) => status_code h = 500
  | inl (RaiseExc _) => False
  end.
Proof. apply list_models_inv. Qed.

(** X22. The list and the single lookup agree: for every model that
    [/models] lists and whose file exists, [/models/{path}/index] succeeds
    and reports the index path of the list entry. *)
Theorem list_models_agrees_with_index_lookup (w : World) resp w' (m : ModelInfo.t) :
  list_models E S w = (inr resp, w') →
  m ∈ ModelsListResponse.models resp →
  exists_on E (disk w) (ModelInfo.path m) = true →
  ∃ r, get_model_index E (ModelInfo.path m) w = (inr r, w) ∧
       ModelIndexResponse.index_path r = ModelInfo.index_path m.
Proof.
  intros H Hin Hex. apply list_models_inv in H as [_ (files & _ & _ & _ & Hall)].
  rewrite Forall_forall in Hall. destruct (Hall m Hin) as [_ Hmi].
  rewrite get_model_index_eq, Hex, Hmi. by eexists.
Qed.

Lemma tts_inference_resolved request w resp w' :
  tts_inference E request w = (inr resp, w') →
  exists_on E (disk w) (TTSInferenceRequest.model_path request) = true ∧
  (otruthy (TTSInferenceRequest.index_path request) = false →
   match_index E (TTSInferenceRequest.model_path request) (disk w)
   = inr (TTSInferenceResponse.index_path resp)).
Proof.
  intros H. apply tts_inference_ok in H as (request' & g & w1 & Hpre & _ & Hr).
  destruct (respond_spec E request' (clock w) g w1) as (o & w2 & Hr' & _).
  rewrite Hr' in Hr. injection Hr as <- <-.
  unfold prelude in Hpre.
  apply bind_inr in Hpre as (request'' & w3 & Hv & Hrest).
  apply bind_inr in Hrest as (ts & w4 & Hn & Hrest).
  apply bind_inr in Hrest as (g' & w5 & _ & Hret).
  unfold mret, M_ret in Hret. injection Hret as -> _ _ _.
  apply validate_passed in Hv as (Hm & Hidx & _).
  split; [done|]. intros Hno. rewrite Hno in Hidx.
  destruct Hidx as (i & Hmi & ->). done.
Qed.

(** X23. Auto-detection and the lookup agree: when a request without
    [index_path] succeeds, the index path its response reports is the one
    [/models/{path}/index] reports for its model on the same disk. *)
Theorem inference_index_agrees_with_index_lookup request w resp w' :
  tts_inference E request w = (inr resp, w') →
  otruthy (TTSInferenceRequest.index_path request) = false →
  ∃ r, get_model_index E (TTSInferenceRequest.model_path request) w = (inr r, w) ∧
       ModelIndexResponse.index_path r = TTSInferenceResponse.index_path resp.
Proof.
  intros H Hno. apply tts_inference_resolved in H as [Hex Hmi].
  rewrite get_model_index_eq, Hex, (Hmi Hno). by eexists.
Qed.

End Models.

(** ** [api/config.py] *)

Lemma lstrip_nil (s : str) : lstrip s = [] ↔ Forall (λ c, isspace c = true) s.
Proof.
  induction s as [|c r IH]; simpl; [done|].
  destruct (isspace c) eqn:Hc.
  - rewrite IH. split; [by constructor | by inversion 1].
  - split; [done|]. inversion 1; congruence.
Qed.

Lemma strip_nil (s : str) : strip s = [] ↔ Forall (λ c, isspace c = true) s.
Proof.
  unfold strip, rstrip. split.
  - intros H. apply (f_equal (@rev N)) in H. rewrite rev_involutive in H. simpl in H.
    apply lstrip_nil in H. apply Forall_forall. intros c Hc.
    destruct (lstrip s) as [|x t] eqn:Hl.
    + apply lstrip_nil in Hl. rewrite Forall_forall in Hl. by apply Hl.
    + exfalso. rewrite Forall_forall in H.
      assert (isspace x = true) as Hx.
      { apply H. rewrite elem_of_rev. apply list_elem_of_here. }
      pose proof (lstrip_head s x) as Hhead. rewrite Hl in Hhead.
      rewrite Hhead in Hx; done.
  - intros H. apply lstrip_nil in H. by rewrite H.
Qed.

Lemma not_all_space (s : str) :
  ¬ Forall (λ c, isspace c = true) s → ∃ c, c ∈ s ∧ isspace c = false.
Proof.
  induction s as [|x r IH]; intros Hnot; [by destruct Hnot|].
  destruct (isspace x) eqn:Hx.
  - destruct IH as (c & Hin & Hc).
    + intros Hall. apply Hnot. by constructor.
    + exists c. split; [by apply list_elem_of_further | done].
  - exists x. split; [apply list_elem_of_here | done].
Qed.

Lemma configured_spec (o : option str) :
  Settings.configured o = true ↔ ∃ s c, o = Some s ∧ c ∈ s ∧ isspace c = false.
Proof.
  unfold Settings.configured. destruct o as [s|].
  - unfold str_eqb. rewrite negb_true_iff, bool_decide_eq_false, strip_nil.
    split.
    + intros Hnot. destruct (not_all_space s Hnot) as (c & Hin & Hc).
      by exists s, c.
    + intros (s' & c & [= <-] & Hin & Hc) Hall.
      rewrite Forall_forall in Hall. rewrite (Hall c Hin) in Hc. done.
  - split; [done|]. by intros (s & c & ? & _).
Qed.

(** X24. A key or token counts as configured exactly when it is set and
    holds at least one character that is not whitespace; and diarization is
    preloaded exactly when preloading is on and the token is configured. *)
Theorem settings_configured (s : Settings.t) :
  (Settings.has_api_key s = true ↔
   ∃ k c, Settings.API_KEY s = Some k ∧ c ∈ k ∧ isspace c = false) ∧
  (Settings.has_pyannote_token s = true ↔
   ∃ k c, Settings.PYANNOTE_TOKEN s = Some k ∧ c ∈ k ∧ isspace c = false) ∧
  (Settings.should_preload_diarization s = true ↔
   Settings.PYANNOTE_PRELOAD s = true ∧
   ∃ k c, Settings.PYANNOTE_TOKEN s = Some k ∧ c ∈ k ∧ isspace c = false).
Proof.
  split; [apply configured_spec|]. split; [apply configured_spec|].
  unfold Settings.should_preload_diarization, Settings.has_pyannote_token.
  rewrite andb_true_iff. by rewrite configured_spec.
Qed.

Lemma removelast_snoc2 {A} (l : list A) (a b : A) :
  removelast (removelast (l ++ [a; b])) = l.
Proof.
  change (l ++ [a; b]) with (l ++ [a] ++ [b]). rewrite app_assoc.
  by rewrite !removelast_last.
Qed.

(** X25. [Settings.__init__] leaves both directories set: a configured
    directory is kept, a missing one is filled in, and doing it again
    changes nothing.  When [config.py] lies two levels below the root from
    which the API computes its own output directory, the default
    [OUTPUT_DIR] is that very directory. *)
Theorem settings_init_directories (E : Env) (file : str) (s : Settings.t) :
  is_Some (Settings.OUTPUT_DIR (Settings.init file s)) ∧
  is_Some (Settings.UPLOAD_DIR (Settings.init file s)) ∧
  (∀ d, Settings.OUTPUT_DIR s = Some d →
        Settings.OUTPUT_DIR (Settings.init file s) = Some d) ∧
  (∀ d, Settings.UPLOAD_DIR s = Some d →
        Settings.UPLOAD_DIR (Settings.init file s) = Some d) ∧
  (∀ file', Settings.init file' (Settings.init file s) = Settings.init file s) ∧
  (∀ dir name,
     root (mkPath file) = root (mkPath (now_dir E)) →
     parts (mkPath file) = parts (mkPath (now_dir E)) ++ [dir; name] →
     Settings.OUTPUT_DIR s = None →
     Settings.OUTPUT_DIR (Settings.init file s) = Some (path_str (OUTPUT_DIR E))).
Proof.
  split; [|split; [|split; [|split; [|split]]]].
  - unfold Settings.init; cbn. by destruct (Settings.OUTPUT_DIR s).
  - unfold Settings.init; cbn. by destruct (Settings.UPLOAD_DIR s).
  - intros d Hd. unfold Settings.init; cbn. by rewrite Hd.
  - intros d Hd. unfold Settings.init; cbn. by rewrite Hd.
  - intros file'. unfold Settings.init; cbn.
    by destruct (Settings.OUTPUT_DIR s), (Settings.UPLOAD_DIR s).
  - intros dir name Hroot Hparts Hnone. unfold Settings.init; cbn.
    rewrite Hnone. do 2 f_equal. unfold OUTPUT_DIR. do 2 f_equal.
    unfold path_parent. cbn [root parts]. rewrite Hroot, Hparts, removelast_snoc2.
    done.
Qed.

(** ** [api/fix_multipart.py] *)

Lemma path_str_truthy (p : Path) : truthy (path_str p) = true.
Proof.
  unfold path_str. destruct (truthy (root p ++ str_join [SEP] (parts p))) eqn:H; [done|].
  vm_compute. reflexivity.
Qed.

Section Alias.
Context (E : Env) (fresh_dir_size : N).

Lemma lookup_node_insert (d : gmap str node) (q p : str) (v : node) :
  truthy p = true →
  lookup_node E (<[realpath E q := v]> d) p
  = if decide (realpath E q = realpath E p) then Some v else lookup_node E d p.
Proof.
  intros Hp. unfold lookup_node. rewrite Hp. by rewrite lookup_insert.
Qed.

Lemma lookup_node_path (d : gmap str node) (p : Path) :
  lookup_node E d (path_str p) = d !! realpath E (path_str p).
Proof. unfold lookup_node. by rewrite path_str_truthy. Qed.

Lemma path_exists_inv (p : Path) (w : World) (found : bool) (w' : World) :
  path_exists E p w = (inr found, w') →
  w' = w ∧ found = exists_on E (disk w) (path_str p).
Proof.
  unfold path_exists, exists_on.
  destruct (lookup_node E (disk w) (path_str p)) as [n|] eqn:Hp.
  - intros [= <- <-]. split; [done|]. symmetry. by apply bool_decide_eq_true.
  - destruct (stat_error E (path_str p)); [done|]. intros [= <- <-].
    split; [done|]. symmetry. apply bool_decide_eq_false. by intros [? ?].
Qed.

(** What a successful [mkdir(exist_ok=True)] leaves. *)
Lemma path_mkdir_exist_ok_inv (p : Path) w w' :
  path_mkdir_exist_ok E fresh_dir_size p w = (inr tt, w') →
  stdout w' = stdout w ∧
  (∃ n, lookup_node E (disk w') (path_str p) = Some (Dir n)) ∧
  ((∃ n, lookup_node E (disk w) (path_str p) = Some (Dir n)) → disk w' = disk w) ∧
  ∀ q, realpath E q ≠ realpath E (path_str p) →
       lookup_node E (disk w') q = lookup_node E (disk w) q.
Proof.
  unfold path_mkdir_exist_ok, check_parent.
  destruct (lookup_node E (disk w) (path_str p)) as [[bs|n]|] eqn:Hp; [done | |].
  - intros [= <-]. rewrite Hp. repeat split; eauto.
  - destruct (stat_error E (path_str p)); [done|].
    destruct (lookup_node E (disk w) (path_str (path_parent p))) as [[?|?]|];
      [done | | done].
    intros [= <-]. cbn [disk stdout with_disk]. split; [done|]. split; [|split].
    + rewrite lookup_node_insert by apply path_str_truthy.
      rewrite decide_True by done. eauto.
    + by intros [n ?].
    + intros q Hq. unfold lookup_node. destruct (truthy q); [|done].
      by rewrite lookup_insert_ne.
Qed.

(** What a successful write leaves. *)
Lemma path_write_text_inv (p : Path) (content : str) w w' :
  path_write_text E p content w = (inr tt, w') →
  stdout w' = stdout w ∧
  disk w' = <[realpath E (path_str p) := File content]> (disk w) ∧
  ¬ (∃ n, lookup_node E (disk w) (path_str p) = Some (Dir n)).
Proof.
  unfold path_write_text, check_parent.
  destruct (lookup_node E (disk w) (path_str p)) as [[bs|n]|] eqn:Hp; [| done |].
  - intros [= <-]. repeat split; try done. by intros [n ?].
  - destruct (stat_error E (path_str p)); [done|].
    destruct (lookup_node E (disk w) (path_str (path_parent p))) as [[?|?]|];
      [done | | done].
    intros [= <-]. repeat split; try done. by intros [n ?].
Qed.

Lemma find_site_packages_spec (sys_path : list str) :
  match find_site_packages sys_path with
  | Some sp =>
      ∃ before entry after,
        sys_path = before ++ entry :: after ∧ sp = mkPath entry ∧
        str_in (u "site-packages") entry = true ∧ str_in (u ".venv") entry = true ∧
        ∀ other, other ∈ before →
          str_in (u "site-packages") other && str_in (u ".venv") other = false
  | None =>
      ∀ other, other ∈ sys_path →
        str_in (u "site-packages") other && str_in (u ".venv") other = false
  end.
Proof.
  unfold find_site_packages.
  induction sys_path as [|x l IH]; cbn [List.find fmap option_fmap option_map].
  - intros other Hin. by apply elem_of_nil in Hin.
  - destruct (str_in (u "site-packages") x && str_in (u ".venv") x) eqn:Hx.
    + cbn. apply andb_prop in Hx as [? ?]. exists [], x, l. repeat split; try done.
      intros other Hin. by apply elem_of_nil in Hin.
    + destruct (List.find _ l) as [entry|]; cbn in *.
      * destruct IH as (before & entry' & after & -> & Hsp & H1 & H2 & Hb).
        exists (x :: before), entry', after. repeat split; try done.
        intros other [-> | Hin]%elem_of_cons; [done | by apply Hb].
      * intros other [-> | Hin]%elem_of_cons; [done | by apply IH].
Qed.

(** X26. [create_multipart_alias] returns [False] only for the two reasons
    it prints: no entry of [sys.path] mentions both [site-packages] and
    [.venv], or the [multipart] package is not in the site-packages found.
    In both cases it has printed one line and left the disk as it was. *)
Theorem create_multipart_alias_refuses (sys_path : list str) (w w' : World) :
  create_multipart_alias E fresh_dir_size sys_path w = (inr false, w') →
  disk w' = disk w ∧
  (∃ line, stdout w' = stdout w ++ [line]) ∧
  ((∀ entry, entry ∈ sys_path →
      str_in (u "site-packages") entry && str_in (u ".venv") entry = false) ∨
   ∃ sp, find_site_packages sys_path = Some sp ∧
         exists_on E (disk w) (path_str (truediv sp (u "multipart"))) = false).
Proof.
  unfold create_multipart_alias.
  pose proof (find_site_packages_spec sys_path) as Hfind.
  destruct (find_site_packages sys_path) as [sp|].
  - intros H.
    apply bind_inr in H as (found & w1 & Hex & H).
    apply path_exists_inv in Hex as [-> ->].
    destruct (exists_on E (disk w) (path_str (truediv sp (u "multipart")))) eqn:Hmp;
      cbn [negb] in H.
    + apply bind_inr in H as ([] & w1 & _ & H).
      apply bind_inr in H as ([] & w2 & _ & H).
      apply bind_inr in H as ([] & w3 & _ & H). done.
    + unfold mbind, M_bind, print, mret, M_ret in H. injection H as <-.
      cbn. repeat split; eauto.
  - intros H. unfold mbind, M_bind, print, mret, M_ret in H. injection H as <-.
    cbn. repeat split; eauto.
Qed.

(** The three steps that follow the two checks. *)
Lemma create_multipart_alias_steps (sp : Path) w w' :
  (_ ← path_mkdir_exist_ok E fresh_dir_size (truediv sp (u "python_multipart"));
   _ ← path_write_text E
         (truediv (truediv sp (u "python_multipart")) (u "__init__.py")) init_content;
   _ ← print (u "✅ Alias python_multipart criado em "
                ++ path_str (truediv sp (u "python_multipart")));
   mret true) w = (inr true, w') →
  (∃ n, lookup_node E (disk w') (path_str (truediv sp (u "python_multipart")))
        = Some (Dir n)) ∧
  lookup_node E (disk w')
    (path_str (truediv (truediv sp (u "python_multipart")) (u "__init__.py")))
  = Some (File init_content) ∧
  (∀ q, realpath E q ≠ realpath E (path_str (truediv sp (u "python_multipart"))) →
        realpath E q ≠ realpath E
          (path_str (truediv (truediv sp (u "python_multipart")) (u "__init__.py"))) →
        lookup_node E (disk w') q = lookup_node E (disk w) q) ∧
  ((∃ n, lookup_node E (disk w) (path_str (truediv sp (u "python_multipart")))
         = Some (Dir n)) →
   lookup_node E (disk w)
     (path_str (truediv (truediv sp (u "python_multipart")) (u "__init__.py")))
   = Some (File init_content) →
   disk w' = disk w).
Proof.
  set (dir := truediv sp (u "python_multipart")).
  set (init := truediv dir (u "__init__.py")).
  intros H.
  apply bind_inr in H as ([] & w1 & Hmk & H).
  apply bind_inr in H as ([] & w2 & Hwr & H).
  apply bind_inr in H as ([] & w3 & Hpr & H).
  unfold mret, M_ret in H. injection H as <-.
  apply print_inv in Hpr as (_ & Hd3 & _).
  apply path_mkdir_exist_ok_inv in Hmk as (_ & [n Hdir] & Hsame1 & Hframe1).
  apply path_write_text_inv in Hwr as (_ & Hd2 & Hnotdir).
  assert (realpath E (path_str init) ≠ realpath E (path_str dir)) as Hne.
  { intros Heq. apply Hnotdir. exists n.
    rewrite lookup_node_path in *. by rewrite Heq. }
  rewrite Hd3, Hd2. split; [|split; [|split]].
  - exists n. rewrite lookup_node_insert by apply path_str_truthy.
    by rewrite decide_False.
  - rewrite lookup_node_insert by apply path_str_truthy. by rewrite decide_True.
  - intros q Hq1 Hq2. unfold lookup_node at 1. destruct (truthy q) eqn:Hq.
    + rewrite lookup_insert_ne by done.
      pose proof (Hframe1 q Hq1) as Hf. unfold lookup_node in Hf.
      rewrite Hq in Hf. rewrite Hf. unfold lookup_node. by rewrite Hq.
    + unfold lookup_node. by rewrite Hq.
  - intros Hwas Hfile. rewrite (Hsame1 Hwas) in *.
    apply insert_id. by rewrite <- lookup_node_path.
Qed.

(** X27. When [create_multipart_alias] returns [True], the site-packages
    it worked in is the first entry of [sys.path] that mentions both
    [site-packages] and [.venv]; [python_multipart] is a directory there,
    its [__init__.py] holds the alias code, and no other file or directory
    has changed. *)
Theorem create_multipart_alias_creates (sys_path : list str) (w w' : World) :
  create_multipart_alias E fresh_dir_size sys_path w = (inr true, w') →
  ∃ before entry after,
    sys_path = before ++ entry :: after ∧
    str_in (u "site-packages") entry = true ∧ str_in (u ".venv") entry = true ∧
    (∀ other, other ∈ before →
       str_in (u "site-packages") other && str_in (u ".venv") other = false) ∧
    let dir := truediv (mkPath entry) (u "python_multipart") in
    let init := truediv dir (u "__init__.py") in
    exists_on E (disk w) (path_str (truediv (mkPath entry) (u "multipart"))) = true ∧
    (∃ n, lookup_node E (disk w') (path_str dir) = Some (Dir n)) ∧
    lookup_node E (disk w') (path_str init) = Some (File init_content) ∧
    ∀ q, realpath E q ≠ realpath E (path_str dir) →
         realpath E q ≠ realpath E (path_str init) →
         lookup_node E (disk w') q = lookup_node E (disk w) q.
Proof.
  unfold create_multipart_alias.
  pose proof (find_site_packages_spec sys_path) as Hfind.
  destruct (find_site_packages sys_path) as [sp|].
  - destruct Hfind as (before & entry & after & -> & -> & H1 & H2 & Hb). intros H.
    apply bind_inr in H as (found & w1 & Hex & H).
    apply path_exists_inv in Hex as [-> ->].
    destruct (exists_on E (disk w) (path_str (truediv (mkPath entry) (u "multipart"))))
      eqn:Hmp; cbn [negb] in H.
    + apply create_multipart_alias_steps in H as (Hdir & Hinit & Hframe & _).
      exists before, entry, after. repeat split; try done.
    + unfold mbind, M_bind, print, mret, M_ret in H. done.
  - intros H. unfold mbind, M_bind, print, mret, M_ret in H. done.
Qed.

(** X28. Running [create_multipart_alias] again after it returned [True]
    returns [True] again and leaves the disk as the first run left it. *)
Theorem create_multipart_alias_idempotent (sys_path : list str) (w w' : World) :
  create_multipart_alias E fresh_dir_size sys_path w = (inr true, w') →
  ∃ w'', create_multipart_alias E fresh_dir_size sys_path w' = (inr true, w'') ∧
         disk w'' = disk w'.
Proof.
  unfold create_multipart_alias.
  destruct (find_site_packages sys_path) as [sp|];
    [|intros H; unfold mbind, M_bind, print, mret, M_ret in H; done].
  set (mp := truediv sp (u "multipart")).
  set (dir := truediv sp (u "python_multipart")).
  set (init := truediv dir (u "__init__.py")).
  intros H.
  apply bind_inr in H as (found & w1 & Hex & H).
  apply path_exists_inv in Hex as [-> ->].
  destruct (exists_on E (disk w) (path_str mp)) eqn:Hmp; cbn [negb] in H;
    [|unfold mbind, M_bind, print, mret, M_ret in H; done].
  apply create_multipart_alias_steps in H as ([n Hdir] & Hinit & Hframe & _).
  fold dir init in Hdir, Hinit, Hframe.
  (* the package is still there *)
  assert (exists_on E (disk w') (path_str mp) = true) as Hmp'.
  { apply exists_on_true.
    destruct (decide (realpath E (path_str mp) = realpath E (path_str dir))) as [Heq|Hne1].
    { rewrite lookup_node_path, Heq, <- lookup_node_path, Hdir. eauto. }
    destruct (decide (realpath E (path_str mp) = realpath E (path_str init))) as [Heq|Hne2].
    { rewrite lookup_node_path, Heq, <- lookup_node_path, Hinit. eauto. }
    rewrite Hframe by done. by apply exists_on_true. }
  assert (path_exists E mp w' = (inr true, w')) as Hstep
    by (by apply path_exists_found).
  rewrite (bind_step _ _ _ _ _ Hstep). cbn [negb].
  (* the directory and the file are found as they were left *)
  assert (path_mkdir_exist_ok E fresh_dir_size dir w' = (inr tt, w')) as Hmk
    by (unfold path_mkdir_exist_ok; by rewrite Hdir).
  rewrite (bind_step _ _ _ _ _ Hmk).
  destruct (path_write_text E init init_content w') as [r2 w2] eqn:Hwr.
  assert (r2 = inr tt ∧ disk w2 = disk w') as [-> Hd2].
  { unfold path_write_text in Hwr. rewrite Hinit in Hwr. injection Hwr as <- <-.
    split; [done|]. cbn [disk with_disk]. apply insert_id.
    by rewrite <- lookup_node_path. }
  rewrite (bind_step _ _ _ _ _ Hwr).
  unfold mbind, M_bind, print, mret, M_ret. eexists. split; [done|]. done.
Qed.

End Alias.

(** ** The further properties at work on the sample installation *)

#[local] Transparent u.

(** A run is settled by its result: the final world is whatever the run
    leaves. *)
Lemma run_eq {A} (m : M A) (w : World) (r : Raised + A) :
  fst (m w) = r → m w = (r, snd (m w)).
Proof. intros <-. apply surjective_pairing. Qed.

Ltac evaluate := vm_compute; reflexivity.

(** [run m w] evaluates the handler [m] in the world [w] and records its
    result as [Hrun]. *)
Ltac run m w :=
  eassert (m w = (_, snd (m w))) as Hrun by (apply run_eq; vm_compute; reflexivity).

Lemma clean_text_fixed_point_witness :
  clean_text (u "Olá, mundo") = u "Olá, mundo".
Proof.
  apply (clean_text_fixed_point (u "Olá, mundo")).
  - apply Forall_forall. apply (bool_decide_unpack _). vm_compute. exact I.
  - vm_compute. intros c [= <-]. reflexivity.
  - vm_compute. intros c [= <-]. reflexivity.
Defined.

Lemma catalog_loaded_once_witness :
  _voices_data loaded_world = Some sample_voices ∧
  load_tts_voices demo loaded_world = (inr sample_voices, loaded_world) ∧
  (∀ request r w', tts_inference demo request loaded_world = (r, w') →
     _voices_data w' = Some sample_voices) ∧
  (∀ request r w', tts_generate_simple demo request loaded_world = (r, w') →
     _voices_data w' = Some sample_voices) ∧
  (∀ language r w', list_voices demo language loaded_world = (r, w') →
     _voices_data w' = Some sample_voices).
Proof.
  split; [reflexivity|].
  apply (catalog_loaded_once demo loaded_world sample_voices). reflexivity.
Defined.

Lemma list_voices_unfiltered_witness :
  otruthy (Some []) = false ∧
  ∃ resp w',
    list_voices demo (Some []) sample_world = (inr resp, w') ∧
    VoicesListResponse.voices resp = map voice_info sample_voices ∧
    VoicesListResponse.total resp = length sample_voices ∧
    disk w' = disk sample_world.
Proof.
  split; [reflexivity|].
  apply (list_voices_unfiltered demo (Some []) sample_world sample_voices);
    [reflexivity | evaluate].
Defined.

Lemma list_voices_filtered_witness :
  ∃ resp,
    list_voices demo (Some (u "FR")) sample_world
    = (inr resp, snd (list_voices demo (Some (u "FR")) sample_world)) ∧
    (∀ info, info ∈ VoicesListResponse.voices resp →
       str_in (lower' demo (default [] (Some (u "FR"))))
         (lower' demo (VoiceInfo.short_name info)) = true) ∧
    VoicesListResponse.total resp = length (VoicesListResponse.voices resp) ∧
    ∃ vs sel,
      catalog demo sample_world = inr vs ∧ sel `sublist_of` vs ∧
      VoicesListResponse.voices resp = map voice_info sel ∧
      ∀ voice, voice ∈ vs →
        str_in (lower' demo (default [] (Some (u "FR"))))
          (lower' demo (dict_get voice (u "ShortName"))) = true →
        voice ∈ sel.
Proof.
  run (list_voices demo (Some (u "FR"))) sample_world.
  eexists. split; [exact Hrun|].
  eapply (list_voices_filtered demo (Some (u "FR")) sample_world);
    [reflexivity | exact Hrun].
Defined.

Lemma list_voices_loader_failure_witness :
  catalog offline sample_world = inl loader_error ∧
  list_voices offline None sample_world
  = (inl (RaiseHTTP {| status_code := 500;
                       detail := u "Erro ao listar vozes: " ++ exn_str loader_error |}),
     sample_world) ∧
  _voices_data sample_world = None.
Proof.
  split; [evaluate|].
  apply (list_voices_loader_failure offline None sample_world loader_error).
  evaluate.
Defined.


Lemma tts_inference_client_error_is_clean_witness :
  ∃ h,
    tts_inference demo custom_missing_request sample_world
    = (inl (RaiseHTTP h), snd (tts_inference demo custom_missing_request sample_world)) ∧
    status_code h = 404 ∧
    pipeline_calls (snd (tts_inference demo custom_missing_request sample_world))
    = pipeline_calls sample_world ∧
    disk (snd (tts_inference demo custom_missing_request sample_world))
    = disk sample_world ∧
    stdout (snd (tts_inference demo custom_missing_request sample_world))
    = stdout sample_world.
Proof.
  run (tts_inference demo custom_missing_request) sample_world.
  eexists. split; [exact Hrun|]. split; [reflexivity|].
  eapply (tts_inference_client_error_is_clean demo custom_missing_request sample_world);
    [exact Hrun | right; reflexivity].
Defined.

Lemma tts_inference_index_not_found_witness :
  exists_on demo (disk sample_world) (u "logs/Lula/Lula.index") = false ∧
  tts_inference demo indexed_request sample_world
  = (inl (RaiseHTTP {| status_code := 404;
                       detail := u "Arquivo index não encontrado: "
                                 ++ u "logs/Lula/Lula.index" |}), sample_world).
Proof.
  split; [evaluate|].
  apply (tts_inference_index_not_found demo indexed_request sample_world
           (u "logs/Lula/Lula.index"));
    [evaluate | vm_compute; reflexivity | vm_compute; discriminate
    | evaluate].
Defined.

Lemma tts_inference_voice_not_found_witness :
  ∃ d w',
    tts_inference demo unknown_voice_request sample_world
    = (inl (RaiseHTTP {| status_code := 404; detail := d |}), w') ∧
    str_in (TTSInferenceRequest.tts_voice unknown_voice_request) d = true ∧
    str_in (u "/voices") d = true ∧
    pipeline_calls w' = pipeline_calls sample_world ∧ disk w' = disk sample_world.
Proof.
  apply (tts_inference_voice_not_found demo unknown_voice_request sample_world
           (Some []) sample_voices).
  - evaluate.
  - vm_compute; reflexivity.
  - left; reflexivity.
  - evaluate.
  - apply (bool_decide_unpack _). vm_compute. exact I.
Defined.

Lemma tts_inference_passes_request_through_witness :
  ∃ resp,
    tts_inference demo sample_request sample_world
    = (inr resp, snd (tts_inference demo sample_request sample_world)) ∧
    TTSInferenceResponse.text resp = TTSInferenceRequest.text sample_request ∧
    TTSInferenceResponse.tts_voice resp = TTSInferenceRequest.tts_voice sample_request ∧
    TTSInferenceResponse.model_path resp
    = TTSInferenceRequest.model_path sample_request ∧
    (if otruthy (TTSInferenceRequest.index_path sample_request)
     then TTSInferenceResponse.index_path resp
          = TTSInferenceRequest.index_path sample_request
     else match_index demo (TTSInferenceRequest.model_path sample_request)
            (disk sample_world)
          = inr (TTSInferenceResponse.index_path resp)) ∧
    pipeline_calls (snd (tts_inference demo sample_request sample_world))
    = pipeline_args demo
        (TTSInferenceRequest.set_index_path sample_request
           (TTSInferenceResponse.index_path resp))
        (clock sample_world)
      :: pipeline_calls sample_world.
Proof.
  run (tts_inference demo sample_request) sample_world.
  eexists. split; [exact Hrun|].
  apply (tts_inference_passes_request_through demo sample_request sample_world).
  exact Hrun.
Defined.

Lemma tts_generate_simple_returns_payload_witness :
  ∃ resp,
    tts_generate_simple demo ogg_simple sample_world
    = (inr resp, snd (tts_generate_simple demo ogg_simple sample_world)) ∧
    is_Some (TTSInferenceResponse.base64 resp) ∧
    TTSInferenceResponse.output_path resp = None ∧
    TTSInferenceResponse.format resp
    = Some (upper' demo (SimpleTTSRequest.output_format ogg_simple)) ∧
    upper' demo (SimpleTTSRequest.output_format ogg_simple) ∈ valid_formats ∧
    TTSInferenceResponse.text resp = clean_text (SimpleTTSRequest.text ogg_simple).
Proof.
  run (tts_generate_simple demo ogg_simple) sample_world.
  eexists. split; [exact Hrun|].
  eapply (tts_generate_simple_returns_payload demo ogg_simple sample_world).
  exact Hrun.
Defined.

Lemma tts_generate_simple_pipeline_arguments_witness :
  ∃ a,
    pipeline_calls (snd (tts_generate_simple demo bell_simple sample_world))
    = a :: pipeline_calls sample_world ∧
    TTSArgs.tts_text a = clean_text (SimpleTTSRequest.text bell_simple) ∧
    TTSArgs.tts_text a ≠ [] ∧
    TTSArgs.export_format a ∈ valid_formats ∧
    TTSArgs.tts_voice a = SimpleTTSRequest.tts_voice bell_simple ∧
    TTSArgs.pth_path a = SimpleTTSRequest.model_path bell_simple ∧
    TTSArgs.tts_rate a = SimpleTTSRequest.tts_rate bell_simple ∧
    TTSArgs.pitch a = 0%Z ∧ TTSArgs.index_rate a = 3 # 4 ∧
    TTSArgs.volume_envelope a = 1%Q ∧ TTSArgs.protect a = 1 # 2 ∧
    TTSArgs.f0_method a = u "rmvpe" ∧
    TTSArgs.split_audio a = false ∧ TTSArgs.f0_autotune a = false ∧
    TTSArgs.proposed_pitch a = false ∧ TTSArgs.clean_audio a = false ∧
    TTSArgs.embedder_model a = u "contentvec" ∧
    TTSArgs.embedder_model_custom a = None ∧ TTSArgs.sid a = 0%Z.
Proof.
  destruct (tts_generate_simple_pipeline_arguments demo bell_simple sample_world
              (fst (tts_generate_simple demo bell_simple sample_world))
              (snd (tts_generate_simple demo bell_simple sample_world)))
    as [Hnone | Hcall].
  - apply surjective_pairing.
  - vm_compute in Hnone. discriminate Hnone.
  - exact Hcall.
Defined.

Lemma tts_generate_simple_rejects_first_witness :
  truthy (clean_text (SimpleTTSRequest.text blank_simple)) = false ∧
  ∃ d, tts_generate_simple demo blank_simple sample_world
       = (inl (RaiseHTTP {| status_code := 400; detail := d |}), sample_world).
Proof.
  split; [evaluate|].
  apply (tts_generate_simple_rejects_first demo blank_simple sample_world).
  left. evaluate.
Defined.

Lemma inference_then_download_witness :
  ∃ resp,
    tts_inference demo sample_request sample_world
    = (inr resp, snd (tts_inference demo sample_request sample_world)) ∧
    TTSInferenceResponse.output_file resp
    = Some (rvc_output_filename demo sample_request (clock sample_world)) ∧
    download_audio demo (rvc_output_filename demo sample_request (clock sample_world))
      (snd (tts_inference demo sample_request sample_world))
    = (inr {| FileResponse.path :=
                rvc_output_path demo sample_request (clock sample_world);
              FileResponse.filename :=
                rvc_output_filename demo sample_request (clock sample_world);
              FileResponse.media_type := u "audio/wav" |},
       snd (tts_inference demo sample_request sample_world)).
Proof.
  run (tts_inference demo sample_request) sample_world.
  eexists. split; [exact Hrun|].
  apply (inference_then_download demo sample_request sample_world).
  - exact Hrun.
  - reflexivity.
  - evaluate.
  - apply (bool_decide_unpack _). vm_compute. exact I.
  - vm_compute; discriminate.
  - vm_compute; discriminate.
Defined.

Lemma get_model_index_outcomes_witness :
  ∃ resp,
    get_model_index demo (u "logs/Lula/Lula.pth") sample_world
    = (inr resp, snd (get_model_index demo (u "logs/Lula/Lula.pth") sample_world)) ∧
    snd (get_model_index demo (u "logs/Lula/Lula.pth") sample_world) = sample_world ∧
    exists_on demo (disk sample_world) (u "logs/Lula/Lula.pth") = true ∧
    match_index demo (u "logs/Lula/Lula.pth") (disk sample_world)
    = inr (ModelIndexResponse.index_path resp) ∧
    ModelIndexResponse.model_path resp = u "logs/Lula/Lula.pth" ∧
    ModelIndexResponse.success resp = true ∧
    (∀ i, ModelIndexResponse.index_path resp = Some i → i ≠ [] →
       ModelIndexResponse.message resp = u "Index file encontrado: " ++ i) ∧
    (otruthy (ModelIndexResponse.index_path resp) = false →
       ModelIndexResponse.message resp
       = u "Nenhum index file encontrado para este modelo").
Proof.
  run (get_model_index demo (u "logs/Lula/Lula.pth")) sample_world.
  eexists. split; [exact Hrun|].
  eapply (get_model_index_outcomes demo (u "logs/Lula/Lula.pth") sample_world (inr _) _).
  exact Hrun.
Defined.

Lemma get_model_speakers_outcomes_witness :
  ∃ h,
    get_model_speakers demo sample_store (u "logs/missing.pth") sample_world
    = (inl (RaiseHTTP h),
       snd (get_model_speakers demo sample_store (u "logs/missing.pth") sample_world)) ∧
    snd (get_model_speakers demo sample_store (u "logs/missing.pth") sample_world)
    = sample_world ∧
    ((status_code h = 404 ∧
      exists_on demo (disk sample_world) (u "logs/missing.pth") = false ∧
      str_in (u "logs/missing.pth") (detail h) = true) ∨
     (status_code h = 500 ∧
      exists_on demo (disk sample_world) (u "logs/missing.pth") = true ∧
      ∃ e, get_speakers_id sample_store (u "logs/missing.pth") (disk sample_world)
           = inl e)).
Proof.
  run (get_model_speakers demo sample_store (u "logs/missing.pth")) sample_world.
  eexists. split; [exact Hrun|].
  eapply (get_model_speakers_outcomes demo sample_store (u "logs/missing.pth")
           sample_world (inl (RaiseHTTP _)) _).
  exact Hrun.
Defined.

Lemma list_models_outcomes_witness :
  ∃ resp,
    list_models demo sample_store sample_world
    = (inr resp, snd (list_models demo sample_store sample_world)) ∧
    snd (list_models demo sample_store sample_world) = sample_world ∧
    ∃ files,
      get_files sample_store (u "model") (disk sample_world) = inr files ∧
      map ModelInfo.path (ModelsListResponse.models resp) = files ∧
      ModelsListResponse.total resp = length files ∧
      Forall (λ m, ModelInfo.name m = os_path_basename (ModelInfo.path m) ∧
                   match_index demo (ModelInfo.path m) (disk sample_world)
                   = inr (ModelInfo.index_path m))
        (ModelsListResponse.models resp).
Proof.
  run (list_models demo sample_store) sample_world.
  eexists. split; [exact Hrun|].
  eapply (list_models_outcomes demo sample_store sample_world (inr _) _).
  exact Hrun.
Defined.

Lemma list_models_agrees_with_index_lookup_witness :
  ∃ resp,
    list_models demo sample_store sample_world
    = (inr resp, snd (list_models demo sample_store sample_world)) ∧
    sample_model ∈ ModelsListResponse.models resp ∧
    ∃ r, get_model_index demo (ModelInfo.path sample_model) sample_world
         = (inr r, sample_world) ∧
         ModelIndexResponse.index_path r = ModelInfo.index_path sample_model.
Proof.
  run (list_models demo sample_store) sample_world.
  eexists. split; [exact Hrun|].
  assert (sample_model
          ∈ [{| ModelInfo.path := [108; 111; 103; 115; 47; 76; 117; 108; 97; 47; 76;
                                   117; 108; 97; 46; 112; 116; 104];
                ModelInfo.name := [76; 117; 108; 97; 46; 112; 116; 104];
                ModelInfo.index_path := Some [] |}]) as Hin
    by (vm_compute; left).
  split; [exact Hin|].
  eapply (list_models_agrees_with_index_lookup demo sample_store sample_world _ _
            sample_model); [exact Hrun | exact Hin | evaluate].
Defined.

Lemma inference_index_agrees_with_index_lookup_witness :
  ∃ resp,
    tts_inference demo sample_request sample_world
    = (inr resp, snd (tts_inference demo sample_request sample_world)) ∧
    ∃ r, get_model_index demo (TTSInferenceRequest.model_path sample_request)
           sample_world = (inr r, sample_world) ∧
         ModelIndexResponse.index_path r = TTSInferenceResponse.index_path resp.
Proof.
  run (tts_inference demo sample_request) sample_world.
  eexists. split; [exact Hrun|].
  eapply (inference_index_agrees_with_index_lookup demo sample_request sample_world);
    [exact Hrun | reflexivity].
Defined.

Lemma create_multipart_alias_refuses_witness :
  create_multipart_alias demo 4096 sample_sys_path sample_world
  = (inr false, snd (create_multipart_alias demo 4096 sample_sys_path sample_world)) ∧
  disk (snd (create_multipart_alias demo 4096 sample_sys_path sample_world))
  = disk sample_world ∧
  (∃ line, stdout (snd (create_multipart_alias demo 4096 sample_sys_path sample_world))
           = stdout sample_world ++ [line]) ∧
  ((∀ entry, entry ∈ sample_sys_path →
      str_in (u "site-packages") entry && str_in (u ".venv") entry = false) ∨
   ∃ sp, find_site_packages sample_sys_path = Some sp ∧
         exists_on demo (disk sample_world) (path_str (truediv sp (u "multipart")))
         = false).
Proof.
  run (create_multipart_alias demo 4096 sample_sys_path) sample_world.
  split; [exact Hrun|].
  apply (create_multipart_alias_refuses demo 4096 sample_sys_path sample_world).
  exact Hrun.
Defined.

Lemma create_multipart_alias_creates_witness :
  create_multipart_alias demo 4096 sample_sys_path venv_world
  = (inr true, snd (create_multipart_alias demo 4096 sample_sys_path venv_world)) ∧
  ∃ before entry after,
    sample_sys_path = before ++ entry :: after ∧
    str_in (u "site-packages") entry = true ∧ str_in (u ".venv") entry = true ∧
    (∀ other, other ∈ before →
       str_in (u "site-packages") other && str_in (u ".venv") other = false) ∧
    let dir := truediv (mkPath entry) (u "python_multipart") in
    let init := truediv dir (u "__init__.py") in
    exists_on demo (disk venv_world)
      (path_str (truediv (mkPath entry) (u "multipart"))) = true ∧
    (∃ n, lookup_node demo
            (disk (snd (create_multipart_alias demo 4096 sample_sys_path venv_world)))
            (path_str dir) = Some (Dir n)) ∧
    lookup_node demo
      (disk (snd (create_multipart_alias demo 4096 sample_sys_path venv_world)))
      (path_str init) = Some (File init_content) ∧
    ∀ q, realpath demo q ≠ realpath demo (path_str dir) →
         realpath demo q ≠ realpath demo (path_str init) →
         lookup_node demo
           (disk (snd (create_multipart_alias demo 4096 sample_sys_path venv_world))) q
         = lookup_node demo (disk venv_world) q.
Proof.
  run (create_multipart_alias demo 4096 sample_sys_path) venv_world.
  split; [exact Hrun|].
  apply (create_multipart_alias_creates demo 4096 sample_sys_path venv_world).
  exact Hrun.
Defined.

Lemma create_multipart_alias_idempotent_witness :
  create_multipart_alias demo 4096 sample_sys_path venv_world
  = (inr true, snd (create_multipart_alias demo 4096 sample_sys_path venv_world)) ∧
  ∃ w'',
    create_multipart_alias demo 4096 sample_sys_path
      (snd (create_multipart_alias demo 4096 sample_sys_path venv_world))
    = (inr true, w'') ∧
    disk w'' = disk (snd (create_multipart_alias demo 4096 sample_sys_path venv_world)).
Proof.
  run (create_multipart_alias demo 4096 sample_sys_path) venv_world.
  split; [exact Hrun|].
  apply (create_multipart_alias_idempotent demo 4096 sample_sys_path venv_world).
  exact Hrun.
Defined.

(** ** The revised claims at work on the sample installation *)

Lemma custom_embedder_rejected_witness :
  TTSInferenceRequest.embedder_model custom_request = u "custom" ∧
  otruthy (TTSInferenceRequest.embedder_model_custom custom_request) = false ∧
  found_checks_pass demo custom_request sample_world ∧
  (∃ h w', tts_inference demo custom_request sample_world = (inl (RaiseHTTP h), w') ∧
     status_code h = 400 ∧
     disk w' = disk sample_world ∧
     pipeline_calls w' = pipeline_calls sample_world) ∧
  (∃ h w',
     tts_inference demo custom_unknown_voice_request sample_world
     = (inl (RaiseHTTP h), w') ∧
     h = {| status_code := 404;
            detail := u "Voz TTS não encontrada: "
                        ++ TTSInferenceRequest.tts_voice custom_unknown_voice_request
                        ++ u ". Use /voices para listar vozes disponíveis." |}) ∧
  (∃ h w',
     tts_inference demo custom_indexed_request sample_world = (inl (RaiseHTTP h), w') ∧
     h = {| status_code := 404;
            detail := u "Arquivo index não encontrado: " ++ u "logs/Lula/Lula.index" |}).
Proof.
  assert (catalog demo sample_world = inr sample_voices) as Hcat by evaluate.
  assert (found_checks_pass demo custom_request sample_world) as Hfound.
  { split; [evaluate|]. split.
    - exists (Some []). split; [evaluate|]. left. reflexivity.
    - exists sample_voices. split; [exact Hcat|].
      apply (bool_decide_unpack _). vm_compute. exact I. }
  split; [evaluate|]. split; [evaluate|]. split; [exact Hfound|].
  split; [|split].
  - destruct (custom_embedder_rejected demo custom_request sample_world)
      as (h & w' & Hrun & Hd & Hp & _ & _ & _ & _ & Hstatus); [evaluate | evaluate |].
    exists h, w'. split; [exact Hrun|]. split; [by apply Hstatus|]. by split.
  - destruct (custom_embedder_rejected demo custom_unknown_voice_request sample_world)
      as (h & w' & Hrun & _ & _ & _ & _ & _ & Hvoice & _); [evaluate | evaluate |].
    exists h, w'. split; [exact Hrun|].
    apply (Hvoice (Some []) sample_voices);
      [evaluate | vm_compute; reflexivity | left; reflexivity | exact Hcat |].
    apply (bool_decide_unpack _). vm_compute. exact I.
  - destruct (custom_embedder_rejected demo custom_indexed_request sample_world)
      as (h & w' & Hrun & _ & _ & _ & _ & Hindex & _); [evaluate | evaluate |].
    exists h, w'. split; [exact Hrun|].
    apply (Hindex (u "logs/Lula/Lula.index"));
      [evaluate | vm_compute; reflexivity | vm_compute; discriminate | evaluate].
Defined.



